(** * WithSecure Elements API client: token lifecycle, pagination drain,
      update-status statistics.

    Shallow embedding of [withsecure_client.py], [async_withsecure_client.py],
    [main.py] and [monitor_updates.py].

    Conventions of the embedding:
    - a value decoded from JSON (and every Python value the code stores or
      passes around) is a [json]; numbers are integers;
    - a [datetime] is a number of microseconds, a [timedelta] a difference of
      such numbers; the calendar range of [datetime] is not modelled;
    - the upstream service is a script of replies, consumed one per request,
      each with the time it took; the requests sent are logged;
    - a method of the client is a function from the world before the call to
      its outcome (a value or the exception raised) and the world after;
    - the response models of [models.py] are records built by constructors
      that validate their fields as pydantic does and raise
      [ValidationError]; the text of that error is a parameter of the
      definitions that build a model;
    - floats are the binary64 numbers of the kernel. *)

From Stdlib Require Import ZArith List String Ascii Bool Lia PrimFloat Uint63 Floats.
From Stdlib Require Import DecimalString.
Import ListNotations.
Open Scope string_scope.
Open Scope list_scope.
Open Scope Z_scope.

Local Set Warnings "-register-all".

(* ====================================================================== *)
(** ** Python values *)

Inductive json : Type :=
| JNull
| JBool (b : bool)
| JNum (z : Z)
| JStr (s : string)
| JArr (l : list json)
| JObj (kv : list (string * json)).

(** Truth value of a Python object, as [if x:] and [not x] take it. *)
Definition truthy (j : json) : bool :=
  match j with
  | JNull => false
  | JBool b => b
  | JNum z => negb (z =? 0)
  | JStr s => negb (s =? "")%string
  | JArr l => match l with [] => false | _ => true end
  | JObj kv => match kv with [] => false | _ => true end
  end.

Fixpoint assoc {V : Type} (k : string) (kv : list (string * V)) : option V :=
  match kv with
  | [] => None
  | (k', v) :: rest => if (k =? k')%string then Some v else assoc k rest
  end.

(** Exceptions the modelled code can raise. [HTTPStatusError] is what
    [raise_for_status] raises ([requests.exceptions.HTTPError] in the
    synchronous client, [httpx.HTTPStatusError] in the asynchronous one); it
    carries the response's status, reason phrase and the request's url.
    [ValidationError] is what a response model of [models.py] raises when it
    refuses a field; it carries its text. *)
Inductive exn : Type :=
| TransportError (msg : string)
| HTTPStatusError (status : Z) (reason url : string)
| JSONDecodeError (msg : string)
| KeyError (k : string)
| TypeError (msg : string)
| AttributeError (msg : string)
| ValidationError (text : string)
| HTTPException (status_code : Z) (detail : string).

(** The Python class of an exception: what an [except] clause and
    [isinstance] can tell apart without reading the message. *)
Inductive exn_class : Type :=
| CTransportError | CHTTPStatusError | CJSONDecodeError | CKeyError
| CTypeError | CAttributeError | CValidationError | CHTTPException.

Definition class_of (e : exn) : exn_class :=
  match e with
  | TransportError _ => CTransportError
  | HTTPStatusError _ _ _ => CHTTPStatusError
  | JSONDecodeError _ => CJSONDecodeError
  | KeyError _ => CKeyError
  | TypeError _ => CTypeError
  | AttributeError _ => CAttributeError
  | ValidationError _ => CValidationError
  | HTTPException _ _ => CHTTPException
  end.

Inductive result (A : Type) : Type :=
| Ok (a : A)
| Raise (e : exn).
Arguments Ok {A} a.
Arguments Raise {A} e.

(** [type(x).__name__], for the texts of the interpreter's exceptions. *)
Definition type_name (j : json) : string :=
  match j with
  | JNull => "NoneType"
  | JBool _ => "bool"
  | JNum _ => "int"
  | JStr _ => "str"
  | JArr _ => "list"
  | JObj _ => "dict"
  end.

(** [d.get(k, default)]: only a dict has the method. *)
Definition py_get (d : json) (k : string) (default : json) : result json :=
  match d with
  | JObj kv => Ok (match assoc k kv with Some v => v | None => default end)
  | _ => Raise (AttributeError ("'" ++ type_name d ++ "' object has no attribute 'get'"))
  end.

(** [d[k]] with a string key. *)
Definition py_item (d : json) (k : string) : result json :=
  match d with
  | JObj kv => match assoc k kv with Some v => Ok v | None => Raise (KeyError k) end
  | JArr _ => Raise (TypeError "list indices must be integers or slices, not str")
  | JStr _ => Raise (TypeError "string indices must be integers, not 'str'")
  | _ => Raise (TypeError ("'" ++ type_name d ++ "' object is not subscriptable"))
  end.

Fixpoint chars (s : string) : list json :=
  match s with
  | EmptyString => []
  | String c rest => JStr (String c EmptyString) :: chars rest
  end.

(** The elements [for u in x] and [list.extend(x)] go through. *)
Definition py_iter (x : json) : result (list json) :=
  match x with
  | JArr l => Ok l
  | JStr s => Ok (chars s)
  | JObj kv => Ok (map (fun p => JStr (fst p)) kv)
  | _ => Raise (TypeError ("'" ++ type_name x ++ "' object is not iterable"))
  end.

(** [len(x)]. *)
Definition py_len (x : json) : result Z :=
  match x with
  | JArr l => Ok (Z.of_nat (List.length l))
  | JStr s => Ok (Z.of_nat (String.length s))
  | JObj kv => Ok (Z.of_nat (List.length kv))
  | _ => Raise (TypeError ("object of type '" ++ type_name x ++ "' has no len()"))
  end.

(* ====================================================================== *)
(** ** The world: client object, clock, upstream service *)

Inductive http_method : Type := GET | POST.

(** The [Authorization] header; [Basic] stands for the base64 encoding of
    [client_id:client_secret], [Bearer] for [f"Bearer {self.access_token}"]. *)
Inductive authorization : Type :=
| Basic (client_id client_secret : string)
| Bearer (token : json).

Record request : Type := {
  req_method : http_method;
  req_url : string;
  req_auth : authorization;
  req_params : list (string * json);
  req_data : list (string * string)
}.

(** What comes back: no HTTP exchange at all (with the text of the transport
    error), or a status line and a body; [response.json()] either decodes
    the body or fails with the decoder's message. *)
Inductive reply : Type :=
| NoResponse (msg : string)
| Response (status : Z) (reason : string) (body : result json).

(** The two HTTP libraries differ in [raise_for_status]: [requests] raises
    for 4xx and 5xx, [httpx] for every status outside 2xx. *)
Inductive http_lib : Type := Requests | Httpx.

Definition is_error_status (lib : http_lib) (status : Z) : bool :=
  match lib with
  | Requests => (400 <=? status) && (status <? 600)
  | Httpx => negb ((200 <=? status) && (status <? 300))
  end.

Record client : Type := {
  client_id : string;
  client_secret : string;
  api_base_url : string;
  scopes : string;
  access_token : json;
  token_expiry : option Z
}.

(** [__init__]. *)
Definition new_client (cid secret base sc : string) : client :=
  {| client_id := cid; client_secret := secret; api_base_url := base;
     scopes := sc; access_token := JNull; token_expiry := None |}.

Record world : Type := {
  self : client;
  clock : Z;
  upstream : list (Z * reply);
  sent : list request
}.

Definition M (A : Type) : Type := world -> result A * world.

Definition ret {A} (a : A) : M A := fun w => (Ok a, w).
Definition raise {A} (e : exn) : M A := fun w => (Raise e, w).
Definition bind {A B} (m : M A) (k : A -> M B) : M B :=
  fun w => match m w with
           | (Ok a, w') => k a w'
           | (Raise e, w') => (Raise e, w')
           end.
Definition lift {A} (r : result A) : M A := fun w => (r, w).

Notation "x <- m ;; k" := (bind m (fun x => k))
  (at level 61, m at next level, right associativity).
Notation "m ;;; k" := (bind m (fun _ => k))
  (at level 61, right associativity).

(** [datetime.now()]. *)
Definition now : M Z := fun w => (Ok (clock w), w).

Definition get_self : M client := fun w => (Ok (self w), w).
Definition set_self (c : client) : M unit :=
  fun w => (Ok tt, {| self := c; clock := clock w; upstream := upstream w; sent := sent w |}).

(** One HTTP exchange: the request is logged, the next reply of the script
    is consumed and the clock moves by the time the exchange took. An
    exhausted script is an upstream that no longer answers. *)
Definition send (rq : request) : M (Z * string * result json) :=
  fun w =>
    match upstream w with
    | [] =>
        (Raise (TransportError "All connection attempts failed"),
         {| self := self w; clock := clock w; upstream := []; sent := sent w ++ [rq] |})
    | (dt, r) :: rest =>
        let w' := {| self := self w; clock := clock w + dt; upstream := rest;
                     sent := sent w ++ [rq] |} in
        match r with
        | NoResponse msg => (Raise (TransportError msg), w')
        | Response st reason body => (Ok (st, reason, body), w')
        end
    end.

(** [response.raise_for_status()]. *)
Definition raise_for_status (lib : http_lib) (url : string)
    (resp : Z * string * result json) : M unit :=
  let '(st, reason, _) := resp in
  if is_error_status lib st then raise (HTTPStatusError st reason url) else ret tt.

(** [response.json()]. *)
Definition response_json (resp : Z * string * result json) : M json :=
  lift (snd resp).

(* ====================================================================== *)
(** ** Token manager *)

Definition second : Z := 1000000.

(** [timedelta(seconds=x)]: [x] must be a number ([bool] is one). Numbers
    are the integers the calendar has room for: the [OverflowError] of
    [timedelta] and of [datetime] beyond their range is not modelled. *)
Definition timedelta_seconds (x : json) : result Z :=
  match x with
  | JNum z => Ok (z * second)
  | JBool b => Ok ((if b then 1 else 0) * second)
  | _ => Raise (TypeError ("unsupported type for timedelta seconds component: "
                           ++ type_name x))
  end.

Definition set_access_token (c : client) (t : json) : client :=
  {| client_id := client_id c; client_secret := client_secret c;
     api_base_url := api_base_url c; scopes := scopes c;
     access_token := t; token_expiry := token_expiry c |}.

Definition set_token_expiry (c : client) (e : option Z) : client :=
  {| client_id := client_id c; client_secret := client_secret c;
     api_base_url := api_base_url c; scopes := scopes c;
     access_token := access_token c; token_expiry := e |}.

(** The token request: [url], [headers] and [data] of [authenticate]. *)
Definition token_request (c : client) : request :=
  {| req_method := POST; req_url := (api_base_url c ++ "/as/token.oauth2")%string;
     req_auth := Basic (client_id c) (client_secret c);
     req_params := [];
     req_data := [("grant_type", "client_credentials"); ("scope", scopes c)] |}.

(** [authenticate]. The [try]/[except] of the synchronous client prints and
    re-raises, so both clients share this body. *)
Definition authenticate (lib : http_lib) : M json :=
  c <- get_self ;;
  let url := (api_base_url c ++ "/as/token.oauth2")%string in
  response <- send (token_request c) ;;
  raise_for_status lib url response ;;;
  token_data <- response_json response ;;
  tok <- lift (py_item token_data "access_token") ;;
  c1 <- get_self ;;
  set_self (set_access_token c1 tok) ;;;
  expires_in <- lift (py_get token_data "expires_in" (JNum 3600)) ;;
  delta <- lift (timedelta_seconds expires_in) ;;
  t <- now ;;
  c2 <- get_self ;;
  set_self (set_token_expiry c2 (Some (t + delta))) ;;;
  ret token_data.

(** [is_token_valid], at the instant [t] that [datetime.now()] returns. A
    [datetime] object is always true, so [not self.token_expiry] holds
    exactly when the field is [None]. *)
Definition is_token_valid (c : client) (t : Z) : bool :=
  match token_expiry c with
  | None => false
  | Some expiry =>
      if negb (truthy (access_token c)) then false
      else t <? expiry - 60 * second
  end.

(** [ensure_authenticated]; in the asynchronous client the body runs under
    [self._lock] (see [Async] below for the interleaving of several callers). *)
Definition ensure_authenticated (lib : http_lib) : M unit :=
  c <- get_self ;;
  t <- now ;;
  if is_token_valid c t then ret tt
  else authenticate lib ;;; ret tt.

(** [_get_headers]: the bearer authorization of the next request. *)
Definition get_headers (lib : http_lib) : M authorization :=
  ensure_authenticated lib ;;;
  c <- get_self ;;
  ret (Bearer (access_token c)).

(* ====================================================================== *)
(** ** Paginated resource fetcher *)

(** The request [get_devices] / [get_software_updates] / [get_security_events]
    build: [params = {"limit": limit}], and [params["anchor"] = anchor] only
    under [if anchor:]. *)
Definition page_params (anchor : json) (limit : Z) : list (string * json) :=
  ("limit", JNum limit) :: (if truthy anchor then [("anchor", anchor)] else []).

Definition page_request (c : client) (path : string) (auth : authorization)
    (anchor : json) (limit : Z) : request :=
  {| req_method := GET; req_url := (api_base_url c ++ path)%string; req_auth := auth;
     req_params := page_params anchor limit; req_data := [] |}.

(** The three page getters differ in the path only. *)
Definition get_page (lib : http_lib) (path : string) (anchor : json) (limit : Z) : M json :=
  c <- get_self ;;
  let url := (api_base_url c ++ path)%string in
  headers <- get_headers lib ;;
  response <- send (page_request c path headers anchor limit) ;;
  raise_for_status lib url response ;;;
  response_json response.

Definition get_devices (lib : http_lib) : json -> Z -> M json :=
  get_page lib "/devices/v1".
Definition get_software_updates (lib : http_lib) : json -> Z -> M json :=
  get_page lib "/software-updates/v1".
Definition get_security_events (lib : http_lib) : json -> Z -> M json :=
  get_page lib "/security-events/v1".

Section Drain.
(** [self.get_devices(anchor=anchor)], resp. [self.get_software_updates]. *)
Variable fetch_page : json -> M json.

(** One turn of the [while True] loop, up to the test of [next_anchor]. *)
Definition drain_step (all : list json) (anchor : json) : M (list json * json) :=
  response <- fetch_page anchor ;;
  items <- lift (py_get response "items" (JArr [])) ;;
  extended <- lift (py_iter items) ;;
  next_anchor <- lift (py_get response "nextAnchor" JNull) ;;
  ret (all ++ extended, next_anchor).

(** The loop; it has no bound of its own, [fuel] counts the turns allowed
    and [None] is a loop still running when they are used up. *)
Fixpoint drain (fuel : nat) (all : list json) (anchor : json) (w : world)
  : option (result (list json) * world) :=
  match fuel with
  | O => None
  | S fuel' =>
      match drain_step all anchor w with
      | (Raise e, w') => Some (Raise e, w')
      | (Ok (all', next_anchor), w') =>
          if negb (truthy next_anchor) then Some (Ok all', w')
          else drain fuel' all' next_anchor w'
      end
  end.
End Drain.

Definition get_all_devices (lib : http_lib) (fuel : nat) (w : world) :=
  drain (fun anchor => get_devices lib anchor 100) fuel [] JNull w.

Definition get_all_software_updates (lib : http_lib) (fuel : nat) (w : world) :=
  drain (fun anchor => get_software_updates lib anchor 100) fuel [] JNull w.

(** [get_device_by_id] and [get_software_update_by_device] (asynchronous
    client only). *)
Definition get_by_id (lib : http_lib) (path device_id : string) : M json :=
  c <- get_self ;;
  let url := (api_base_url c ++ path ++ device_id)%string in
  headers <- get_headers lib ;;
  response <- send {| req_method := GET; req_url := url; req_auth := headers;
                      req_params := []; req_data := [] |} ;;
  raise_for_status lib url response ;;;
  response_json response.

Definition get_device_by_id (device_id : string) : M json :=
  get_by_id Httpx "/devices/v1/" device_id.
Definition get_software_update_by_device (device_id : string) : M json :=
  get_by_id Httpx "/software-updates/v1/" device_id.

(** *** Views of a page body, to state what the drain returns *)

Definition items_of (body : json) : list json :=
  match py_get body "items" (JArr []) with
  | Ok (JArr l) => l
  | _ => []
  end.

Definition next_of (body : json) : json :=
  match py_get body "nextAnchor" JNull with
  | Ok n => n
  | Raise _ => JNull
  end.

(** A page body as the upstream contract has it: an object whose [items],
    when present, is an array. *)
Definition page_ok (body : json) : bool :=
  match py_get body "items" (JArr []) with
  | Ok (JArr _) => true
  | _ => false
  end.

(** [nextAnchor] absent or [null]: [response.get("nextAnchor")] is [None]. *)
Definition next_absent_or_null (body : json) : bool :=
  match next_of body with JNull => true | _ => false end.

Definition page_reply (p : Z * json) : Z * reply :=
  (fst p, Response 200 "OK" (Ok (snd p))).

Definition total_delay (ps : list (Z * json)) : Z :=
  fold_right (fun p acc => fst p + acc) 0 ps.

(* ====================================================================== *)
(** ** Local service ([main.py]): single-device lookup *)

Definition digits (z : Z) : string := NilZero.string_of_int (Z.to_int z).

(** [needle in hay] on strings. *)
Fixpoint contains (needle hay : string) : bool :=
  String.prefix needle hay ||
  match hay with
  | EmptyString => false
  | String _ rest => contains needle rest
  end.

(** The message [httpx] gives an [HTTPStatusError] (responses here carry no
    redirect location). *)
Definition error_type (status : Z) : string :=
  match status / 100 with
  | 1 => "Informational response"
  | 3 => "Redirect response"
  | 4 => "Client error"
  | 5 => "Server error"
  | _ => "Invalid status code"
  end.

Definition newline : string := String (ascii_of_nat 10) EmptyString.

Definition status_message (status : Z) (reason url : string) : string :=
  (error_type status ++ " '" ++ digits status ++ " " ++ reason ++ "' for url '"
   ++ url ++ "'" ++ newline
   ++ "For more information check: https://developer.mozilla.org/en-US/docs/Web/HTTP/Status/"
   ++ digits status)%string.

(** [str(e)]. *)
Definition str_exn (e : exn) : string :=
  match e with
  | TransportError msg => msg
  | HTTPStatusError status reason url => status_message status reason url
  | JSONDecodeError msg => msg
  | KeyError k => ("'" ++ k ++ "'")%string
  | TypeError msg => msg
  | AttributeError msg => msg
  | ValidationError text => text
  | HTTPException status_code detail => (digits status_code ++ ": " ++ detail)%string
  end.

(** The endpoint [GET /devices/{device_id}]: every exception of the client
    becomes an [HTTPException], 404 when its text contains ["404"]. *)
Definition get_device (device_id : string) : M json :=
  fun w =>
    match get_device_by_id device_id w with
    | (Ok device, w') => (Ok device, w')
    | (Raise e, w') =>
        if contains "404" (str_exn e)
        then (Raise (HTTPException 404 ("Device " ++ device_id ++ " not found")%string), w')
        else (Raise (HTTPException 500 ("Failed to fetch device: " ++ str_exn e)%string), w')
    end.

(* ====================================================================== *)
(** ** Join of devices and update records ([main.py], [monitor_updates.py]) *)

(** *** Python dicts keyed by decoded values *)

Definition hashable (k : json) : bool :=
  match k with
  | JArr _ | JObj _ => false
  | _ => true
  end.

Definition key_num (k : json) : option Z :=
  match k with
  | JBool b => Some (if b then 1 else 0)
  | JNum z => Some z
  | _ => None
  end.

(** [a == b] on hashable values: [True == 1] and [False == 0]. *)
Definition key_eqb (a b : json) : bool :=
  match a, b with
  | JNull, JNull => true
  | JStr s, JStr t => (s =? t)%string
  | _, _ =>
      match key_num a, key_num b with
      | Some x, Some y => x =? y
      | _, _ => false
      end
  end.

(** A dict in insertion order; keys are pairwise different for [key_eqb]. *)
Definition pydict (V : Type) : Type := list (json * V).

Fixpoint dict_lookup {V} (k : json) (d : pydict V) : option V :=
  match d with
  | [] => None
  | (k', v) :: rest => if key_eqb k k' then Some v else dict_lookup k rest
  end.

(** [d[k] = v]: an equal key keeps its place and its first spelling. *)
Fixpoint dict_set {V} (k : json) (v : V) (d : pydict V) : pydict V :=
  match d with
  | [] => [(k, v)]
  | (k', v') :: rest =>
      if key_eqb k k' then (k', v) :: rest else (k', v') :: dict_set k v rest
  end.

Definition unhashable (k : json) : exn :=
  TypeError ("unhashable type: '" ++ type_name k ++ "'")%string.

(** [{item["deviceId"]: item for item in updates}]. *)
Fixpoint updates_by_device_from (updates : list json) (d : pydict json)
  : result (pydict json) :=
  match updates with
  | [] => Ok d
  | item :: rest =>
      match py_item item "deviceId" with
      | Raise e => Raise e
      | Ok k =>
          if hashable k then updates_by_device_from rest (dict_set k item d)
          else Raise (unhashable k)
      end
  end.

Definition updates_by_device (updates : list json) : result (pydict json) :=
  updates_by_device_from updates [].

(** [k in d] followed by [d[k]]. *)
Definition dict_find {V} (k : json) (d : pydict V) : result (option V) :=
  if hashable k then Ok (dict_lookup k d) else Raise (unhashable k).

(** *** Percentages *)

Inductive pynum : Type :=
| PInt (z : Z)
| PFloat (f : float).

(** [float(z)] for a count [z]: exact from [0] to [2^53]. *)
Definition float_of_Z (z : Z) : float := PrimFloat.of_uint63 (Uint63.of_Z z).

(** [count / total_devices * 100] on [int]s: true division, then a float
    product. *)
Definition ratio_percent (count total : Z) : float :=
  PrimFloat.mul (PrimFloat.div (float_of_Z count) (float_of_Z total)) (float_of_Z 100).

Definition round_half_even (num den : Z) : Z :=
  let q := num / den in
  let r := num mod den in
  match 2 * r ?= den with
  | Lt => q
  | Gt => q + 1
  | Eq => if Z.even q then q else q + 1
  end.

(** [round(x, 2)] on a float: the exact binary value of [x] is rounded to two
    decimals, ties to even, and the nearest float of that decimal returned
    (as a correctly rounded quotient by 100, exact for the hundredths below
    [2^53], far above any percentage). *)
Definition round_float2 (x : float) : float :=
  match Prim2SF x with
  | S754_finite s m e =>
      let n := if 0 <=? e then Z.pos m * 2 ^ e * 100
               else round_half_even (Z.pos m * 100) (2 ^ (- e)) in
      let r := PrimFloat.div (float_of_Z n) (float_of_Z 100) in
      if s then PrimFloat.opp r else r
  | _ => x
  end.

(** [round(x, 2)]: an [int] comes back unchanged. *)
Definition py_round2 (x : pynum) : pynum :=
  match x with
  | PInt z => PInt z
  | PFloat f => PFloat (round_float2 f)
  end.

(** [round((count / total_devices * 100) if total_devices > 0 else 0, 2)]. *)
Definition percentage (count total_devices : Z) : pynum :=
  py_round2 (if 0 <? total_devices then PFloat (ratio_percent count total_devices)
             else PInt 0).

(** *** Pure computations that may raise *)

Definition rbind {A B} (r : result A) (k : A -> result B) : result B :=
  match r with
  | Ok a => k a
  | Raise e => Raise e
  end.

Notation "x <~ r ;; k" := (rbind r (fun x => k))
  (at level 61, r at next level, right associativity).

Fixpoint map_result {A B} (f : A -> result B) (l : list A) : result (list B) :=
  match l with
  | [] => Ok []
  | a :: rest => b <~ f a ;; bs <~ map_result f rest ;; Ok (b :: bs)
  end.

Fixpoint fold_result {A S} (f : S -> A -> result S) (l : list A) (s : S) : result S :=
  match l with
  | [] => Ok s
  | a :: rest => s' <~ f s a ;; fold_result f rest s'
  end.

(** *** Response models ([models.py])

    The models are pydantic models (version 2, as the [json_schema_extra] of
    their [Config] tells). Building one validates every field against its
    annotation: a [str] field takes a string and nothing else, an
    [Optional[str]] field a string or [None], a [List[str]] field a list of
    strings, a [float] field also an [int], which it stores as a float; keys
    that a model does not declare are dropped. When a field is refused the
    constructor raises [ValidationError]. *)

Inductive UpdateStatus : Type := UP_TO_DATE | PENDING | NO_INFO.

Record PlatformStats : Type := {
  ps_platform : string;
  ps_count : Z;
  ps_percentage : float
}.

Record UpdateStatusStats : Type := {
  us_status : UpdateStatus;
  us_count : Z;
  us_percentage : float
}.

Record DeviceWithPendingUpdates : Type := {
  device_id : string;
  device_name : option string;
  platform : option string;
  pending_updates_count : Z;
  pending_updates : list string
}.

Record StatisticsResponse : Type := {
  total_devices : Z;
  devices_online : Z;
  devices_offline : Z;
  devices_with_updates : Z;
  devices_up_to_date : Z;
  devices_with_pending_updates : Z;
  devices_by_platform : list PlatformStats;
  devices_by_status : list UpdateStatusStats;
  devices_with_pending_details : list DeviceWithPendingUpdates
}.

Record SoftwareUpdate : Type := {
  su_title : option string;
  su_version : option string;
  su_id : option string
}.

Record DeviceUpdateInfo : Type := {
  dui_deviceId : string;
  dui_pendingSoftwareUpdates : list SoftwareUpdate;
  dui_status : UpdateStatus
}.

Record UpdatesListResponse : Type := {
  ul_items : list DeviceUpdateInfo;
  ul_nextAnchor : option string;
  ul_total : Z
}.

(** What a field accepts, and the value it then holds. *)
Definition as_str (v : json) : option string :=
  match v with
  | JStr s => Some s
  | _ => None
  end.

Definition as_optional_str (v : json) : option (option string) :=
  match v with
  | JNull => Some None
  | JStr s => Some (Some s)
  | _ => None
  end.

Fixpoint as_list {A} (f : json -> option A) (l : list json) : option (list A) :=
  match l with
  | [] => Some []
  | v :: rest =>
      match f v, as_list f rest with
      | Some a, Some r => Some (a :: r)
      | _, _ => None
      end
  end.

(** A [float] field given what [round] returned. *)
Definition as_float (x : pynum) : float :=
  match x with
  | PInt z => float_of_Z z
  | PFloat f => f
  end.

(** An [Optional[str]] field of a model built from a dict: an absent key
    leaves the default [None]. *)
Definition optional_str_field (k : string) (kv : list (string * json))
  : option (option string) :=
  match assoc k kv with
  | None => Some None
  | Some v => as_optional_str v
  end.

Definition as_SoftwareUpdate (u : json) : option SoftwareUpdate :=
  match u with
  | JObj kv =>
      match optional_str_field "title" kv, optional_str_field "version" kv,
            optional_str_field "id" kv with
      | Some t, Some v, Some i => Some {| su_title := t; su_version := v; su_id := i |}
      | _, _, _ => None
      end
  | _ => None
  end.

(** The value of a member of [UpdateStatus], a [str] itself. *)
Definition status_name (s : UpdateStatus) : string :=
  match s with
  | UP_TO_DATE => "up_to_date"
  | PENDING => "pending"
  | NO_INFO => "no_info"
  end.

Definition as_status (v : json) : option UpdateStatus :=
  match v with
  | JStr s =>
      if (s =? "up_to_date")%string then Some UP_TO_DATE
      else if (s =? "pending")%string then Some PENDING
      else if (s =? "no_info")%string then Some NO_INFO
      else None
  | _ => None
  end.

(** A [DeviceUpdateInfo] built from a dict: [deviceId] and [status] are
    required, [pendingSoftwareUpdates] defaults to the empty list. *)
Definition as_DeviceUpdateInfo (d : json) : option DeviceUpdateInfo :=
  match d with
  | JObj kv =>
      match assoc "deviceId" kv, assoc "status" kv with
      | Some id, Some st =>
          match as_str id,
                match assoc "pendingSoftwareUpdates" kv with
                | None => Some []
                | Some (JArr l) => as_list as_SoftwareUpdate l
                | Some _ => None
                end,
                as_status st with
          | Some i, Some us, Some s_ =>
              Some {| dui_deviceId := i; dui_pendingSoftwareUpdates := us;
                      dui_status := s_ |}
          | _, _, _ => None
          end
      | _, _ => None
      end
  | _ => None
  end.

Section Models.
(** [str(e)] of the [ValidationError] of a model: a text made from the name
    of the model and from the values given to the fields it can refuse. *)
Variable validation_text : string -> list (string * json) -> string.

Definition refused {A} (model : string) (fields : list (string * json)) : result A :=
  Raise (ValidationError (validation_text model fields)).

(** [PlatformStats(platform=..., count=..., percentage=...)]. *)
Definition new_PlatformStats (platform_ : json) (count : Z) (pct : pynum)
  : result PlatformStats :=
  match as_str platform_ with
  | Some p => Ok {| ps_platform := p; ps_count := count; ps_percentage := as_float pct |}
  | None => refused "PlatformStats" [("platform", platform_)]
  end.

(** [UpdateStatusStats(status=..., count=..., percentage=...)], on a key of
    [status_counts]: no field can be refused. *)
Definition new_UpdateStatusStats (s : UpdateStatus) (count : Z) (pct : pynum)
  : UpdateStatusStats :=
  {| us_status := s; us_count := count; us_percentage := as_float pct |}.

(** [DeviceWithPendingUpdates(device_id=..., device_name=..., platform=...,
    pending_updates_count=..., pending_updates=...)]. *)
Definition new_DeviceWithPendingUpdates (id name platform_ : json) (count : Z)
    (titles : list json) : result DeviceWithPendingUpdates :=
  match as_str id, as_optional_str name, as_optional_str platform_,
        as_list as_str titles with
  | Some i, Some n, Some p, Some ts =>
      Ok {| device_id := i; device_name := n; platform := p;
            pending_updates_count := count; pending_updates := ts |}
  | _, _, _, _ =>
      refused "DeviceWithPendingUpdates"
              [("device_id", id); ("device_name", name); ("platform", platform_);
               ("pending_updates", JArr titles)]
  end.

(** [UpdatesListResponse(items=..., nextAnchor=..., total=...)], on a list of
    dicts. *)
Definition new_UpdatesListResponse (items : list json) (next_anchor : json) (total : Z)
  : result UpdatesListResponse :=
  match as_list as_DeviceUpdateInfo items, as_optional_str next_anchor with
  | Some infos, Some next =>
      Ok {| ul_items := infos; ul_nextAnchor := next; ul_total := total |}
  | _, _ =>
      refused "UpdatesListResponse" [("items", JArr items); ("nextAnchor", next_anchor)]
  end.

(** *** [get_statistics] of [main.py] *)

(** [status_counts = {"up_to_date": 0, "pending": 0, "no_info": 0}]. *)
Record status_counts : Type := {
  up_to_date : Z;
  pending : Z;
  no_info : Z
}.

(** [sum(1 for d in devices if d.get("online", False))]. *)
Definition count_online (devices : list json) : result Z :=
  fold_result (fun n d =>
                 online <~ py_get d "online" (JBool false) ;;
                 Ok (if truthy online then n + 1 else n))
              devices 0.

(** [platform_counts[platform] = platform_counts.get(platform, 0) + 1]. *)
Definition count_platform (counts : pydict Z) (platform_ : json) : result (pydict Z) :=
  found <~ dict_find platform_ counts ;;
  Ok (dict_set platform_ (match found with Some n => n | None => 0 end + 1) counts).

Definition platform_counts (devices : list json) : result (pydict Z) :=
  fold_result (fun counts device =>
                 platform_ <~ py_get device "platform" (JStr "Unknown") ;;
                 count_platform counts platform_)
              devices [].

(** [[u.get("title", "Unknown") for u in pending]]. *)
Definition pending_titles (pending_ : json) : result (list json) :=
  us <~ py_iter pending_ ;;
  map_result (fun u => py_get u "title" (JStr "Unknown")) us.

(** Body of the loop [for device in devices] that fills [status_counts] and
    [pending_details]. *)
Definition visit_device (by_device : pydict json)
    (acc : status_counts * list DeviceWithPendingUpdates) (device : json)
  : result (status_counts * list DeviceWithPendingUpdates) :=
  let (counts, details) := acc in
  id <~ py_get device "id" JNull ;;
  found <~ dict_find id by_device ;;
  match found with
  | Some update_info =>
      pending_ <~ py_get update_info "pendingSoftwareUpdates" (JArr []) ;;
      if truthy pending_ then
        let counts' := {| up_to_date := up_to_date counts;
                          pending := pending counts + 1;
                          no_info := no_info counts |} in
        name <~ py_get device "name" JNull ;;
        platform_ <~ py_get device "platform" JNull ;;
        n <~ py_len pending_ ;;
        titles <~ pending_titles pending_ ;;
        detail <~ new_DeviceWithPendingUpdates id name platform_ n titles ;;
        Ok (counts', details ++ [detail])
      else
        Ok ({| up_to_date := up_to_date counts + 1;
               pending := pending counts;
               no_info := no_info counts |}, details)
  | None =>
      Ok ({| up_to_date := up_to_date counts;
             pending := pending counts;
             no_info := no_info counts + 1 |}, details)
  end.

(** The statistics, from the two drained collections to the response (the
    [generated_at] stamp aside). *)
Definition compute_statistics (devices updates : list json) : result StatisticsResponse :=
  by_device <~ updates_by_device updates ;;
  let total := Z.of_nat (List.length devices) in
  online <~ count_online devices ;;
  let offline := total - online in
  pcounts <~ platform_counts devices ;;
  platform_stats <~ map_result (fun pc => new_PlatformStats (fst pc) (snd pc)
                                            (percentage (snd pc) total))
                               pcounts ;;
  visited <~ fold_result (visit_device by_device) devices
               ({| up_to_date := 0; pending := 0; no_info := 0 |}, []) ;;
  let (counts, pending_details) := visited in
  let status_stats :=
    map (fun sc => new_UpdateStatusStats (fst sc) (snd sc) (percentage (snd sc) total))
        [(UP_TO_DATE, up_to_date counts); (PENDING, pending counts);
         (NO_INFO, no_info counts)] in
  Ok {| total_devices := total;
        devices_online := online;
        devices_offline := offline;
        devices_with_updates := Z.of_nat (List.length updates);
        devices_up_to_date := up_to_date counts;
        devices_with_pending_updates := pending counts;
        devices_by_platform := platform_stats;
        devices_by_status := status_stats;
        devices_with_pending_details := pending_details |}.

(** The endpoint [GET /statistics]: both drains, then the computation; any
    exception becomes a 500. *)
Definition get_statistics (fuel : nat) (w : world)
  : option (result StatisticsResponse * world) :=
  let failed (e : exn) :=
    Raise (HTTPException 500 ("Failed to generate statistics: " ++ str_exn e)%string) in
  match get_all_devices Httpx fuel w with
  | None => None
  | Some (Raise e, w1) => Some (failed e, w1)
  | Some (Ok devices, w1) =>
      match get_all_software_updates Httpx fuel w1 with
      | None => None
      | Some (Raise e, w2) => Some (failed e, w2)
      | Some (Ok updates, w2) =>
          match compute_statistics devices updates with
          | Ok st => Some (Ok st, w2)
          | Raise e => Some (failed e, w2)
          end
      end
  end.
End Models.

(** *** [analyze_update_status] of [monitor_updates.py] *)

Definition label_pending : string := "Mises à jour en attente".
Definition label_up_to_date : string := "À jour".
Definition label_no_info : string := "Pas d'information".

Record update_detail : Type := {
  d_device_id : json;
  d_device_name : json;
  d_platform : json;
  d_status : string;
  d_pending_updates : Z;
  d_pending_update_names : list json
}.

(** The [stats] dict, one field per key. *)
Record analysis : Type := {
  a_total_devices : Z;
  a_devices_with_updates : Z;
  a_devices_up_to_date : Z;
  a_devices_with_pending_updates : Z;
  a_devices_by_status : pydict Z;
  a_devices_by_platform : pydict Z;
  a_update_details : list update_detail
}.

(** [d[k] += 1] on a [defaultdict(int)]. *)
Definition incr_key (k : json) (d : pydict Z) : result (pydict Z) :=
  count_platform d k.

Definition analyze_device (by_device : pydict json) (stats : analysis) (device : json)
  : result analysis :=
  id <~ py_get device "id" JNull ;;
  name <~ py_get device "name" (JStr "Unknown") ;;
  platform_ <~ py_get device "platform" (JStr "Unknown") ;;
  by_platform <~ incr_key platform_ (a_devices_by_platform stats) ;;
  found <~ dict_find id by_device ;;
  match found with
  | Some update_info =>
      let with_updates := a_devices_with_updates stats + 1 in
      pending_ <~ py_get update_info "pendingSoftwareUpdates" (JArr []) ;;
      let is_pending := truthy pending_ in
      let status := if is_pending then label_pending else label_up_to_date in
      by_status <~ incr_key (JStr status) (a_devices_by_status stats) ;;
      n <~ py_len pending_ ;;
      names <~ pending_titles pending_ ;;
      Ok {| a_total_devices := a_total_devices stats;
            a_devices_with_updates := with_updates;
            a_devices_up_to_date :=
              if is_pending then a_devices_up_to_date stats
              else a_devices_up_to_date stats + 1;
            a_devices_with_pending_updates :=
              if is_pending then a_devices_with_pending_updates stats + 1
              else a_devices_with_pending_updates stats;
            a_devices_by_status := by_status;
            a_devices_by_platform := by_platform;
            a_update_details :=
              a_update_details stats
              ++ [{| d_device_id := id; d_device_name := name;
                     d_platform := platform_; d_status := status;
                     d_pending_updates := n; d_pending_update_names := names |}] |}
  | None =>
      by_status <~ incr_key (JStr label_no_info) (a_devices_by_status stats) ;;
      Ok {| a_total_devices := a_total_devices stats;
            a_devices_with_updates := a_devices_with_updates stats;
            a_devices_up_to_date := a_devices_up_to_date stats;
            a_devices_with_pending_updates := a_devices_with_pending_updates stats;
            a_devices_by_status := by_status;
            a_devices_by_platform := by_platform;
            a_update_details := a_update_details stats |}
  end.

Definition analyze_update_status (devices updates : list json) : result analysis :=
  by_device <~ updates_by_device updates ;;
  fold_result (analyze_device by_device) devices
    {| a_total_devices := Z.of_nat (List.length devices);
       a_devices_with_updates := 0;
       a_devices_up_to_date := 0;
       a_devices_with_pending_updates := 0;
       a_devices_by_status := [];
       a_devices_by_platform := [];
       a_update_details := [] |}.

(** Number of devices filed under a status label, [0] when the
    [defaultdict] never saw the label. *)
Definition by_status_count (label : string) (stats : analysis) : Z :=
  match dict_lookup (JStr label) (a_devices_by_status stats) with
  | Some n => n
  | None => 0
  end.

(** *** The classification in the words of the specification *)

(** The update record the mapping holds for a device id: with several
    records for one id the last one wins. *)
Definition record_for (updates : list json) (id : json) : option json :=
  find (fun item => match py_item item "deviceId" with
                    | Ok k => key_eqb id k
                    | Raise _ => false
                    end)
       (rev updates).

Definition pending_list (update_info : json) : list json :=
  match py_get update_info "pendingSoftwareUpdates" (JArr []) with
  | Ok (JArr l) => l
  | _ => []
  end.

Definition device_key (device : json) : json :=
  match py_get device "id" JNull with
  | Ok k => k
  | Raise _ => JNull
  end.

Definition spec_classify (updates : list json) (device : json) : UpdateStatus :=
  match record_for updates (device_key device) with
  | None => NO_INFO
  | Some update_info =>
      match pending_list update_info with
      | [] => UP_TO_DATE
      | _ :: _ => PENDING
      end
  end.

Definition status_eqb (a b : UpdateStatus) : bool :=
  match a, b with
  | UP_TO_DATE, UP_TO_DATE | PENDING, PENDING | NO_INFO, NO_INFO => true
  | _, _ => false
  end.

Definition count_status (s : UpdateStatus) (updates devices : list json) : Z :=
  Z.of_nat (List.length
              (filter (fun d => status_eqb (spec_classify updates d) s) devices)).

(** Inputs as the upstream contract has them: a device is an object whose
    [id] and [platform] are scalars; an update record is an object with a
    scalar [deviceId] whose [pendingSoftwareUpdates], when present, is an
    array of objects. *)
Definition is_object (j : json) : bool :=
  match j with JObj _ => true | _ => false end.

Definition device_ok (device : json) : bool :=
  match device with
  | JObj kv =>
      hashable (match assoc "id" kv with Some k => k | None => JNull end)
      && hashable (match assoc "platform" kv with Some p => p | None => JStr "Unknown" end)
  | _ => false
  end.

Definition update_ok (item : json) : bool :=
  match item with
  | JObj kv =>
      match assoc "deviceId" kv with
      | Some k => hashable k
      | None => false
      end
      && match assoc "pendingSoftwareUpdates" kv with
         | Some (JArr l) => forallb is_object l
         | Some _ => false
         | None => true
         end
  | _ => false
  end.

(* ====================================================================== *)
(** ** Concurrent callers of [ensure_authenticated] (asynchronous client)

    Coroutines of one event loop run one at a time and give way only at an
    [await] that suspends. In [ensure_authenticated] these are: waiting for
    [self._lock] when it is taken or already waited for, and the token
    request inside [authenticate]. A step below is what one coroutine does
    between two such points; the order of the steps is free. *)

Module Async.

(** Where a caller of [ensure_authenticated] stands. *)
Inductive task : Type :=
| Start                (* not called yet *)
| Waiting              (* suspended in [self._lock.acquire()] *)
| Authenticating       (* holds the lock, suspended on the token request *)
| Done                 (* returned *)
| Failed (e : exn).    (* raised [e] *)

Record state : Type := {
  env : world;              (* client object, clock, token replies to come *)
  tasks : list task;
  locked : bool;            (* [self._lock._locked] *)
  waiters : list nat;       (* [self._lock._waiters], oldest first *)
  auth_calls : nat          (* token requests issued so far *)
}.

Inductive event : Type :=
| Call (i : nat)       (* caller [i] enters [ensure_authenticated] *)
| Resume (i : nat)     (* the first waiter is woken and gets the lock *)
| Reply (i : nat)      (* the token response of caller [i] arrives *)
| Tick (dt : Z).       (* time passes *)

Fixpoint update {A} (i : nat) (a : A) (l : list A) : list A :=
  match l, i with
  | [], _ => []
  | _ :: rest, O => a :: rest
  | x :: rest, S i' => x :: update i' a rest
  end.

Definition is_task (t : task) (i : nat) (s : state) : bool :=
  match nth_error (tasks s) i, t with
  | Some Start, Start | Some Waiting, Waiting
  | Some Authenticating, Authenticating | Some Done, Done => true
  | _, _ => false
  end.

(** Caller [i] has the lock: [if not self.is_token_valid()] decides between
    leaving at once (the lock is released on the way out) and issuing the
    token request. *)
Definition enter_critical (i : nat) (s : state) (ws : list nat) : state :=
  if is_token_valid (self (env s)) (clock (env s)) then
    {| env := env s; tasks := update i Done (tasks s); locked := false;
       waiters := ws; auth_calls := auth_calls s |}
  else
    {| env := env s; tasks := update i Authenticating (tasks s); locked := true;
       waiters := ws; auth_calls := S (auth_calls s) |}.

Definition advance (dt : Z) (w : world) : world :=
  {| self := self w; clock := clock w + dt; upstream := upstream w; sent := sent w |}.

Definition step (ev : event) (s : state) : option state :=
  match ev with
  | Call i =>
      if is_task Start i s then
        match locked s, waiters s with
        | false, [] => Some (enter_critical i s [])
        | _, _ =>
            Some {| env := env s; tasks := update i Waiting (tasks s);
                    locked := locked s; waiters := waiters s ++ [i];
                    auth_calls := auth_calls s |}
        end
      else None
  | Resume i =>
      match locked s, waiters s with
      | false, j :: rest =>
          if Nat.eqb i j && is_task Waiting i s
          then Some (enter_critical i s rest) else None
      | _, _ => None
      end
  | Reply i =>
      if is_task Authenticating i s then
        let (r, w') := authenticate Httpx (env s) in
        Some {| env := w';
                tasks := update i (match r with Ok _ => Done | Raise e => Failed e end)
                                (tasks s);
                locked := false; waiters := waiters s;
                auth_calls := auth_calls s |}
      else None
  | Tick dt =>
      if 0 <=? dt then
        Some {| env := advance dt (env s); tasks := tasks s; locked := locked s;
                waiters := waiters s; auth_calls := auth_calls s |}
      else None
  end.

Fixpoint run (evs : list event) (s : state) : option state :=
  match evs with
  | [] => Some s
  | ev :: rest =>
      match step ev s with
      | Some s' => run rest s'
      | None => None
      end
  end.

(** [n] callers about to call, on a client in world [w]. *)
Definition init (n : nat) (w : world) : state :=
  {| env := w; tasks := repeat Start n; locked := false; waiters := [];
     auth_calls := 0 |}.

Definition finished_task (t : task) : bool :=
  match t with
  | Done | Failed _ => true
  | _ => false
  end.

Definition finished (s : state) : bool := forallb finished_task (tasks s).



End Async.

(* ====================================================================== *)
(** ** Further operations of the clients *)

(** [get_latest_database_versions]: one request, the ids as a repeated [id]
    parameter. *)
Definition get_latest_database_versions (lib : http_lib) (database_ids : json) : M json :=
  c <- get_self ;;
  let url := (api_base_url c ++ "/databases/v1/latest-versions")%string in
  headers <- get_headers lib ;;
  response <- send {| req_method := GET; req_url := url; req_auth := headers;
                      req_params := [("id", database_ids)]; req_data := [] |} ;;
  raise_for_status lib url response ;;;
  response_json response.

(** The shape all the getters share: the headers (with the token exchange
    they may start), one [GET], the status check, the decoding. *)
Definition authorized_get (lib : http_lib) (url : string)
    (params : list (string * json)) : M json :=
  headers <- get_headers lib ;;
  response <- send {| req_method := GET; req_url := url; req_auth := headers;
                      req_params := params; req_data := [] |} ;;
  raise_for_status lib url response ;;;
  response_json response.

(** Successive page fetches that each returned a page with a true
    [nextAnchor]: from anchor [a] in world [w] they lead to the anchor and the
    world of the next fetch. *)
Inductive fetched (fetch_page : json -> M json)
  : json -> world -> list json -> json -> world -> Prop :=
| fetched_none (a : json) (w : world) : fetched fetch_page a w [] a w
| fetched_more (a : json) (w : world) (p : json) (w1 : world)
               (ps : list json) (a' : json) (w' : world) :
    fetch_page a w = (Ok p, w1) ->
    page_ok p = true ->
    truthy (next_of p) = true ->
    fetched fetch_page (next_of p) w1 ps a' w' ->
    fetched fetch_page a w (p :: ps) a' w'.

(** A value [list.extend] refuses. *)
Definition not_iterable (v : json) : bool :=
  match v with
  | JNull | JBool _ | JNum _ => true
  | _ => false
  end.

(** What a request may carry as authorization: the credentials go to the
    token endpoint only, every other request is a [GET] with a bearer. *)
Definition credentials_confined (c : client) (rq : request) : Prop :=
  match req_auth rq with
  | Basic _ _ => rq = token_request c
  | Bearer _ => req_method rq = GET
  end.

(** *** Measures on the counting dicts and the detail records *)

(** Sum of the counts of a counting dict. *)
Definition dict_total (d : pydict Z) : Z :=
  fold_right (fun kv acc => snd kv + acc) 0 d.

(** No two keys of the dict are equal for [==]. *)
Fixpoint dict_distinct {V} (d : pydict V) : Prop :=
  match d with
  | [] => True
  | (k, _) :: rest => dict_lookup k rest = None /\ dict_distinct rest
  end.

(** A detail record of [get_statistics] counts the titles it lists, and
    lists at least one. *)
Definition detail_consistent (d : DeviceWithPendingUpdates) : Prop :=
  pending_updates_count d = Z.of_nat (List.length (pending_updates d))
  /\ 1 <= pending_updates_count d.

(** The same for a detail of [analyze_update_status], whose status label
    goes with the count. *)
Definition update_detail_consistent (d : update_detail) : Prop :=
  d_pending_updates d = Z.of_nat (List.length (d_pending_update_names d))
  /\ (d_status d = label_pending /\ 1 <= d_pending_updates d
      \/ d_status d = label_up_to_date /\ d_pending_updates d = 0).

(** A counting dict after [n] increments. *)
Definition counted (d : pydict Z) (n : nat) : Prop :=
  dict_total d = Z.of_nat n /\ dict_distinct d /\ Forall (fun kv => 1 <= snd kv) d.

(** The state of the status loop of [get_statistics] after [n] devices. *)
Definition visited (acc : status_counts * list DeviceWithPendingUpdates) (n : nat) : Prop :=
  let (c, details) := acc in
  up_to_date c + pending c + no_info c = Z.of_nat n
  /\ 0 <= up_to_date c /\ 0 <= no_info c
  /\ pending c = Z.of_nat (List.length details)
  /\ Forall detail_consistent details.

Definition sum_counts (l : list Z) : Z := fold_right Z.add 0 l.

(** The platform buckets of the response, back as a counting dict. *)
Definition platform_buckets (st : StatisticsResponse) : pydict Z :=
  map (fun b => (JStr (ps_platform b), ps_count b)) (devices_by_platform st).

(** The [stats] of [analyze_update_status] after [n] devices. *)
Definition analysed (stats : analysis) (n : nat) : Prop :=
  a_devices_with_updates stats
  = a_devices_up_to_date stats + a_devices_with_pending_updates stats
  /\ 0 <= a_devices_up_to_date stats
  /\ 0 <= a_devices_with_pending_updates stats
  /\ a_devices_with_updates stats <= Z.of_nat n
  /\ Z.of_nat (List.length (a_update_details stats)) = a_devices_with_updates stats
  /\ Forall update_detail_consistent (a_update_details stats)
  /\ counted (a_devices_by_platform stats) n
  /\ counted (a_devices_by_status stats) n.

(* ====================================================================== *)
(** ** Local service ([main.py]): further endpoints *)

(** [{**d, k: v}] on the items of a dict: an existing key keeps its place. *)
Fixpoint obj_set (k : string) (v : json) (kv : list (string * json))
  : list (string * json) :=
  match kv with
  | [] => [(k, v)]
  | (k', v') :: rest =>
      if (k =? k')%string then (k', v) :: rest else (k', v') :: obj_set k v rest
  end.

(** [UpdateStatus.PENDING if pending else UpdateStatus.UP_TO_DATE], as the
    string the enumeration member is. *)
Definition status_value (pending_ : json) : json :=
  JStr (if truthy pending_ then "pending" else "up_to_date").

(** The same as the member itself. *)
Definition status_of_pending (pending_ : json) : UpdateStatus :=
  if truthy pending_ then PENDING else UP_TO_DATE.

Definition not_a_mapping (j : json) : exn :=
  TypeError ("'" ++ type_name j ++ "' object is not a mapping")%string.

(** [{**item, "status": ...}] of [list_updates]. *)
Definition enrich (item : json) : result json :=
  pending_ <~ py_get item "pendingSoftwareUpdates" (JArr []) ;;
  match item with
  | JObj kv => Ok (JObj (obj_set "status" (status_value pending_) kv))
  | _ => Raise (not_a_mapping item)
  end.

(** [except Exception as e: raise HTTPException(500, detail=prefix + str(e))]. *)
Definition failed (prefix : string) (e : exn) : exn :=
  HTTPException 500 (prefix ++ str_exn e)%string.

Section Endpoints.
Variable validation_text : string -> list (string * json) -> string.

(** What [list_updates] makes of a page of update records: the enriched
    dicts, then the response model built from them. *)
Definition enrich_page (response : json) : result UpdatesListResponse :=
  items <~ py_get response "items" (JArr []) ;;
  records <~ py_iter items ;;
  enriched_items <~ map_result enrich records ;;
  next_anchor <~ py_get response "nextAnchor" JNull ;;
  n <~ py_len items ;;
  new_UpdatesListResponse validation_text enriched_items next_anchor n.

(** The endpoint [GET /updates]. *)
Definition list_updates (anchor : json) (limit : Z) : M UpdatesListResponse :=
  fun w =>
    match get_software_updates Httpx anchor limit w with
    | (Ok response, w') =>
        match enrich_page response with
        | Ok r => (Ok r, w')
        | Raise e => (Raise (failed "Failed to fetch updates: " e), w')
        end
    | (Raise e, w') => (Raise (failed "Failed to fetch updates: " e), w')
    end.

(** The loop of [list_pending_updates]: one record per update with a true
    pending list. *)
Definition pending_device (found : list DeviceWithPendingUpdates) (update : json)
  : result (list DeviceWithPendingUpdates) :=
  pending_ <~ py_get update "pendingSoftwareUpdates" (JArr []) ;;
  if truthy pending_ then
    id <~ py_get update "deviceId" JNull ;;
    name <~ py_get update "deviceName" JNull ;;
    platform_ <~ py_get update "platform" JNull ;;
    n <~ py_len pending_ ;;
    titles <~ pending_titles pending_ ;;
    detail <~ new_DeviceWithPendingUpdates validation_text id name platform_ n titles ;;
    Ok (found ++ [detail])
  else Ok found.

Definition pending_devices (updates : list json) : result (list DeviceWithPendingUpdates) :=
  fold_result pending_device updates [].

(** The endpoint [GET /updates/pending/all]. *)
Definition list_pending_updates (fuel : nat) (w : world)
  : option (result (list DeviceWithPendingUpdates) * world) :=
  match get_all_software_updates Httpx fuel w with
  | None => None
  | Some (Raise e, w') => Some (Raise (failed "Failed to fetch pending updates: " e), w')
  | Some (Ok updates, w') =>
      match pending_devices updates with
      | Ok found => Some (Ok found, w')
      | Raise e => Some (Raise (failed "Failed to fetch pending updates: " e), w')
      end
  end.
End Endpoints.

(** [{**update_info, "status": ..., "pending_count": len(pending)}]. *)
Definition device_updates_body (update_info : json) : result json :=
  pending_ <~ py_get update_info "pendingSoftwareUpdates" (JArr []) ;;
  match update_info with
  | JObj kv =>
      n <~ py_len pending_ ;;
      Ok (JObj (obj_set "pending_count" (JNum n)
                        (obj_set "status" (status_value pending_) kv)))
  | _ => Raise (not_a_mapping update_info)
  end.

(** The endpoint [GET /updates/{device_id}]. *)
Definition get_device_updates (device_id : string) : M json :=
  fun w =>
    let handler (e : exn) :=
      if contains "404" (str_exn e)
      then HTTPException 404 ("Update info for device " ++ device_id ++ " not found")%string
      else HTTPException 500 ("Failed to fetch device updates: " ++ str_exn e)%string in
    match get_software_update_by_device device_id w with
    | (Ok update_info, w') =>
        match device_updates_body update_info with
        | Ok body => (Ok body, w')
        | Raise e => (Raise (handler e), w')
        end
    | (Raise e, w') => (Raise (handler e), w')
    end.

Fixpoint filter_result {A} (f : A -> result bool) (l : list A) : result (list A) :=
  match l with
  | [] => Ok []
  | a :: rest =>
      keep <~ f a ;;
      kept <~ filter_result f rest ;;
      Ok (if keep then a :: kept else kept)
  end.

Section ByPlatform.
(** [str.lower] of the interpreter. *)
Variable lower : string -> string.

(** [d.get("platform", "").lower() == platform.lower()]. *)
Definition platform_matches (platform_ : string) (d : json) : result bool :=
  v <~ py_get d "platform" (JStr "") ;;
  match v with
  | JStr s => Ok (lower s =? lower platform_)%string
  | _ => Raise (AttributeError ("'" ++ type_name v ++ "' object has no attribute 'lower'"))
  end.

Definition filter_by_platform (platform_ : string) (all_devices : list json)
  : result (list json) :=
  filter_result (platform_matches platform_) all_devices.

(** The endpoint [GET /devices/platform/{platform}]. *)
Definition list_devices_by_platform (platform_ : string) (fuel : nat) (w : world)
  : option (result (list json) * world) :=
  match get_all_devices Httpx fuel w with
  | None => None
  | Some (Raise e, w') => Some (Raise (failed "Failed to filter devices: " e), w')
  | Some (Ok all_devices, w') =>
      match filter_by_platform platform_ all_devices with
      | Ok filtered => Some (Ok filtered, w')
      | Raise e => Some (Raise (failed "Failed to filter devices: " e), w')
      end
  end.
End ByPlatform.

(** [str.lower] on the letters A to Z, every other character kept: what the
    interpreter does on ASCII text. *)
Definition ascii_lower (c : ascii) : ascii :=
  let n := nat_of_ascii c in
  if (65 <=? n)%nat && (n <=? 90)%nat then ascii_of_nat (n + 32) else c.

Fixpoint lower_ascii (s : string) : string :=
  match s with
  | EmptyString => EmptyString
  | String c rest => String (ascii_lower c) (lower_ascii rest)
  end.

(** A device the platform filter can read: an object whose [platform], when
    present, is a string. *)
Definition platform_readable (d : json) : bool :=
  match d with
  | JObj kv =>
      match assoc "platform" kv with
      | None | Some (JStr _) => true
      | Some _ => false
      end
  | _ => false
  end.


(** *** Views used to state what the endpoints return *)

(** The text under a key of an object, when there is one. *)
Definition text_field (k : string) (u : json) : option string :=
  match py_get u k JNull with
  | Ok (JStr s) => Some s
  | _ => None
  end.

(** What [list_updates] delivers of an upstream record: its [deviceId], of
    each pending update the [title], the [version] and the [id], and the
    status of its pending list; nothing else of the record. *)
Definition delivered_update (u : json) (su : SoftwareUpdate) : Prop :=
  su_title su = text_field "title" u
  /\ su_version su = text_field "version" u
  /\ su_id su = text_field "id" u.

Definition delivered_from (item : json) (info : DeviceUpdateInfo) : Prop :=
  py_item item "deviceId" = Ok (JStr (dui_deviceId info))
  /\ Forall2 delivered_update (pending_list item) (dui_pendingSoftwareUpdates info)
  /\ dui_status info = match pending_list item with
                       | [] => UP_TO_DATE
                       | _ :: _ => PENDING
                       end.

(** A record [list_updates] cannot deliver: no [deviceId] that is a
    string. *)
Definition without_device_id (item : json) : bool :=
  match py_item item "deviceId" with
  | Ok (JStr _) => false
  | _ => true
  end.

(** The anchor as the response model holds it. *)
Definition anchor_value (a : option string) : json :=
  match a with
  | None => JNull
  | Some s => JStr s
  end.

(** The status [list_updates] attaches to an update record, and the status
    and the count [get_device_updates] attach to it. *)
Definition listed_status (update_info : json) : option UpdateStatus :=
  match enrich update_info with
  | Ok e =>
      match py_get e "status" JNull with
      | Ok v => as_status v
      | Raise _ => None
      end
  | Raise _ => None
  end.

Definition detailed_status (update_info : json) : option (UpdateStatus * json) :=
  match device_updates_body update_info with
  | Ok body =>
      match py_get body "status" JNull, py_get body "pending_count" JNull with
      | Ok v, Ok n => option_map (fun s => (s, n)) (as_status v)
      | _, _ => None
      end
  | Raise _ => None
  end.

Definition count_of (s : UpdateStatus) (l : list UpdateStatus) : Z :=
  Z.of_nat (List.length (filter (status_eqb s) l)).

(** Devices and update records as the response models of [get_statistics]
    and [list_pending_updates] take them: the [id] of a device is a string,
    its [name] a string or [null] when present, its [platform] a string when
    present; an update record has a string for [deviceId] and, when it has a
    pending list, a list of objects whose [title], when present, is a
    string; [list_pending_updates] also reads its [deviceName] and
    [platform], strings or [null] when present. *)
Definition optional_text (k : string) (kv : list (string * json)) : bool :=
  match assoc k kv with
  | None | Some JNull | Some (JStr _) => true
  | Some _ => false
  end.

Definition device_valid (device : json) : bool :=
  match device with
  | JObj kv =>
      match assoc "id" kv with Some (JStr _) => true | _ => false end
      && optional_text "name" kv
      && match assoc "platform" kv with None | Some (JStr _) => true | Some _ => false end
  | _ => false
  end.

Definition title_valid (u : json) : bool :=
  match u with
  | JObj kv => match assoc "title" kv with None | Some (JStr _) => true | Some _ => false end
  | _ => false
  end.

Definition update_valid (item : json) : bool :=
  match item with
  | JObj kv =>
      match assoc "deviceId" kv with Some (JStr _) => true | _ => false end
      && match assoc "pendingSoftwareUpdates" kv with
         | Some (JArr l) => forallb title_valid l
         | Some _ => false
         | None => true
         end
  | _ => false
  end.

Definition update_listable (item : json) : bool :=
  update_valid item
  && match item with
     | JObj kv => optional_text "deviceName" kv && optional_text "platform" kv
     | _ => false
     end.

(** *** Rounding to two decimals, in the words of the specification *)

(** [k] is the integer nearest to [100 x] for [x = m * 2^e], the even one of
    the two when [100 x] lies half-way between two integers. *)
Definition nearest_hundredth (m : positive) (e : Z) (k : Z) : Prop :=
  let num := 100 * Z.pos m * 2 ^ Z.max e 0 in
  let den := 2 ^ Z.max (- e) 0 in
  2 * Z.abs (num - k * den) <= den
  /\ (2 * Z.abs (num - k * den) = den -> Z.even k = true).

(** [r] is [x] rounded to two decimals: the float nearest to [k / 100] for
    that [k], with the sign of [x]. A zero is left as it is (so are the
    infinities and NaN, which no percentage is). *)
Definition rounded_to_2_decimals (x r : float) : Prop :=
  match Prim2SF x with
  | S754_finite s m e =>
      exists k : Z,
        nearest_hundredth m e k
        /\ r = (if s then PrimFloat.opp else fun y => y)
                 (PrimFloat.div (float_of_Z k) (float_of_Z 100))
  | _ => r = x
  end.

Definition has_pending (update : json) : bool :=
  match pending_list update with
  | [] => false
  | _ :: _ => true
  end.

Definition update_key (update : json) : json :=
  match py_get update "deviceId" JNull with
  | Ok k => k
  | Raise _ => JNull
  end.

(** The text the platform filter lowers: [d.get("platform", "")]. *)
Definition platform_text (d : json) : string :=
  match py_get d "platform" (JStr "") with
  | Ok (JStr s) => s
  | _ => ""
  end.

(* ====================================================================== *)
(** ** Concrete inputs used to run the definitions *)

Definition fresh_client : client :=
  new_client "id" "secret" "https://api.connect.withsecure.com"
             "connect.api.read connect.api.write".

(** The token object of a successful exchange, with its lifetime. *)
Definition token_body (expires_in : Z) : json :=
  JObj [("access_token", JStr "tok"); ("token_type", JStr "Bearer");
        ("expires_in", JNum expires_in)].

Definition ok_reply (dt : Z) (body : json) : Z * reply :=
  (dt, Response 200 "OK" (Ok body)).

(** A text for the validation errors, where one is needed to run the
    definitions: the name of the model. *)
Definition model_name_only : string -> list (string * json) -> string :=
  fun model _ => model.

(** A new client at time [t] in front of an upstream that will give
    [replies]. *)
Definition world_at (t : Z) (replies : list (Z * reply)) : world :=
  {| self := fresh_client; clock := t; upstream := replies; sent := [] |}.

(** The same with a token [tok] already stored, expiring at [expiry]. *)
Definition world_with_token (t expiry : Z) (replies : list (Z * reply)) : world :=
  {| self := set_token_expiry (set_access_token fresh_client (JStr "tok")) (Some expiry);
     clock := t; upstream := replies; sent := [] |}.

(** The stub upstream of the specification: three pages, the last one
    without a cursor. *)
Definition page (items : list json) (next : json) : json :=
  JObj [("items", JArr items); ("nextAnchor", next)].

Definition stub_pages : list (Z * json) :=
  [(1, page [JStr "a"; JStr "b"] (JStr "cursor1"));
   (1, page [JStr "c"] (JStr "cursor2"))].

Definition stub_last : Z * json := (1, page [JStr "d"] JNull).

Definition anchors_sent (w : world) : list (option json) :=
  map (fun rq => assoc "anchor" (req_params rq)) (sent w).

(** The same for the page requests only (the token request is a [POST]). *)
Definition is_get (rq : request) : bool :=
  match req_method rq with GET => true | POST => false end.

Definition page_anchors_sent (w : world) : list (option json) :=
  map (fun rq => assoc "anchor" (req_params rq)) (filter is_get (sent w)).

(** A page with no items and no cursor, in the shapes the drain accepts as
    such: [items] absent or [[]], [nextAnchor] absent or [null]. *)
Definition empty_page (body : json) : bool :=
  match body with
  | JObj kv =>
      match assoc "items" kv with
      | None | Some (JArr []) => true
      | _ => false
      end
      && match assoc "nextAnchor" kv with
         | None | Some JNull => true
         | _ => false
         end
  | _ => false
  end.

Definition no_anchor_param (rq : request) : Prop :=
  assoc "anchor" (req_params rq) = None.

Definition bearer_page_request (c : client) (path : string) (anchor : json) : request :=
  page_request c path (Bearer (access_token c)) anchor 100.

Definition page_well_formed (p : Z * json) : Prop :=
  0 <= fst p /\ page_ok (snd p) = true.

(** The class of the exception an outcome raised, if it raised one. *)
Definition raised_class {A} (r : result A) : option exn_class :=
  match r with
  | Raise e => Some (class_of e)
  | Ok _ => None
  end.

Definition device_url (c : client) (device_id : string) : string :=
  (api_base_url c ++ "/devices/v1/" ++ device_id)%string.

(** One more device in the bucket of its status. *)
Definition bump (s : UpdateStatus) (c : status_counts) : status_counts :=
  match s with
  | UP_TO_DATE => {| up_to_date := up_to_date c + 1; pending := pending c; no_info := no_info c |}
  | PENDING => {| up_to_date := up_to_date c; pending := pending c + 1; no_info := no_info c |}
  | NO_INFO => {| up_to_date := up_to_date c; pending := pending c; no_info := no_info c + 1 |}
  end.

Definition bucket (s : UpdateStatus) (c : status_counts) : Z :=
  match s with
  | UP_TO_DATE => up_to_date c
  | PENDING => pending c
  | NO_INFO => no_info c
  end.

(** The buckets after all devices were filed by [spec_classify]. *)
Definition tally (updates devices : list json) (c : status_counts) : status_counts :=
  fold_left (fun c d => bump (spec_classify updates d) c) devices c.

(** The label [analyze_update_status] files a status under. *)
Definition label_of (s : UpdateStatus) : string :=
  match s with
  | UP_TO_DATE => label_up_to_date
  | PENDING => label_pending
  | NO_INFO => label_no_info
  end.

Definition one_if (b : bool) : Z := if b then 1 else 0.

(** The example of the specification: device 1 up to date, device 2 with
    one pending update, device 3 without update record. *)
Definition example_devices : list json :=
  [JObj [("id", JStr "1")]; JObj [("id", JStr "2")]; JObj [("id", JStr "3")]].

Definition example_updates : list json :=
  [JObj [("deviceId", JStr "1"); ("pendingSoftwareUpdates", JArr [])];
   JObj [("deviceId", JStr "2");
         ("pendingSoftwareUpdates", JArr [JObj [("title", JStr "x")]])]].

Definition status_buckets (st : StatisticsResponse) : list (UpdateStatus * Z) :=
  map (fun b => (us_status b, us_count b)) (devices_by_status st).

(** *** Invariants of the concurrent runs *)

(** No exchange takes a negative time. *)
Definition durations_ok (w : world) : Prop :=
  Forall (fun r => 0 <= fst r) (upstream w).

(** A caller suspended on the token request holds the lock, and is the only
    one. *)
Definition lock_inv (s : Async.state) : Prop :=
  forall i,
    nth_error (Async.tasks s) i = Some Async.Authenticating ->
    Async.locked s = true
    /\ forall j, nth_error (Async.tasks s) j = Some Async.Authenticating -> j = i.

(** The stored token stays valid up to the instant [H]. *)
Definition valid_until (H : Z) (c : client) : Prop :=
  truthy (access_token c) = true
  /\ exists expiry, token_expiry c = Some expiry /\ H < expiry - 60 * second.


(** *** Measures and invariants of the queue of the lock *)

(** The steps a caller has before it: the call, the wait for the lock, the
    wait for the token reply. *)
Definition rank (t : Async.task) : nat :=
  match t with
  | Async.Start => 3
  | Async.Waiting => 2
  | Async.Authenticating => 1
  | _ => 0
  end.

(** A caller that got the lock, whatever it did with it. *)
Definition entered (t : Async.task) : nat :=
  match t with
  | Async.Start | Async.Waiting => 0
  | _ => 1
  end.

(** A caller whose token request is on its way. *)
Definition in_flight (t : Async.task) : nat :=
  match t with
  | Async.Authenticating => 1
  | _ => 0
  end.

Definition weigh (f : Async.task -> nat) (s : Async.state) : nat :=
  list_sum (map f (Async.tasks s)).

Definition is_move (ev : Async.event) : bool :=
  match ev with
  | Async.Tick _ => false
  | _ => true
  end.

(** The steps of the callers in a schedule, the passing of time left out. *)
Definition moves (evs : list Async.event) : nat :=
  List.length (filter is_move evs).

(** The queue of the lock holds the callers suspended in [acquire], each
    once, and a held lock has its holder suspended on the token request. *)
Definition queue_inv (s : Async.state) : Prop :=
  NoDup (Async.waiters s)
  /\ (forall i, In i (Async.waiters s)
                <-> nth_error (Async.tasks s) i = Some Async.Waiting)
  /\ (Async.locked s = true ->
      exists i, nth_error (Async.tasks s) i = Some Async.Authenticating).

(** The token requests issued and the ones the log of the world shows. *)
Definition requests_inv (w0 : world) (s : Async.state) : Prop :=
  (List.length (sent (Async.env s)) + weigh in_flight s
   = List.length (sent w0) + Async.auth_calls s)%nat
  /\ (Async.auth_calls s <= weigh entered s)%nat.

(** Nobody waits and nobody refreshes: the state of a run whose token has
    been valid all along. *)
Definition quiet (w0 : world) (s : Async.state) : Prop :=
  Async.auth_calls s = 0%nat
  /\ Async.locked s = false
  /\ Async.waiters s = []
  /\ (forall j t, nth_error (Async.tasks s) j = Some t ->
                  t = Async.Start \/ t = Async.Done)
  /\ self (Async.env s) = self w0
  /\ upstream (Async.env s) = upstream w0
  /\ sent (Async.env s) = sent w0.

(* ====================================================================== *)
(** * Properties *)

(** ** Token manager *)

Ltac unfold_monad :=
  unfold bind, ret, raise, lift, get_self, set_self, now, raise_for_status,
    response_json, send in *; cbn [fst snd self clock upstream sent] in *.

(** What a token exchange does when the upstream answers with a success
    status and a token object. *)
Lemma authenticate_ok (lib : http_lib) (w : world) dt st reason data rest tok d :
  upstream w = (dt, Response st reason (Ok data)) :: rest ->
  is_error_status lib st = false ->
  py_item data "access_token" = Ok tok ->
  rbind (py_get data "expires_in" (JNum 3600)) timedelta_seconds = Ok d ->
  authenticate lib w =
    (Ok data,
     {| self := set_token_expiry (set_access_token (self w) tok)
                                 (Some (clock w + dt + d));
        clock := clock w + dt; upstream := rest;
        sent := sent w ++ [token_request (self w)] |}).
Proof.
  intros Hup Hst Htok Hexp.
  unfold authenticate. unfold_monad. rewrite Hup.
  cbn. rewrite Hst. cbn. rewrite Htok. cbn.
  destruct (py_get data "expires_in" (JNum 3600)) as [e|e]; cbn in Hexp; [|discriminate].
  cbn. rewrite Hexp. reflexivity.
Qed.

(** A token exchange refused by [raise_for_status] leaves the client as it
    was. *)
Lemma authenticate_refused (lib : http_lib) (w : world) dt st reason body rest :
  upstream w = (dt, Response st reason body) :: rest ->
  is_error_status lib st = true ->
  authenticate lib w =
    (Raise (HTTPStatusError st reason (api_base_url (self w) ++ "/as/token.oauth2")%string),
     {| self := self w; clock := clock w + dt; upstream := rest;
        sent := sent w ++ [token_request (self w)] |}).
Proof.
  intros Hup Hst.
  unfold authenticate. unfold_monad. rewrite Hup. cbn. rewrite Hst. reflexivity.
Qed.

(** Whatever the outcome, [authenticate] sends exactly one request and never
    touches the credentials. *)
Lemma authenticate_inv (lib : http_lib) (w : world) :
  forall r w', authenticate lib w = (r, w') ->
    sent w' = sent w ++ [token_request (self w)]
    /\ upstream w' = tl (upstream w)
    /\ api_base_url (self w') = api_base_url (self w)
    /\ (match r with
        | Ok data =>
            exists tok d,
              py_item data "access_token" = Ok tok
              /\ rbind (py_get data "expires_in" (JNum 3600)) timedelta_seconds = Ok d
              /\ access_token (self w') = tok
              /\ token_expiry (self w') = Some (clock w' + d)
        | Raise _ => True
        end).
Proof.
  intros r w'. unfold authenticate. unfold_monad.
  destruct (upstream w) as [|[dt [msg|st reason body]] rest] eqn:Hup; cbn.
  - intros H; inversion H; subst; cbn. auto.
  - intros H; inversion H; subst; cbn. auto.
  - destruct (is_error_status lib st); cbn.
    + intros H; inversion H; subst; cbn. auto.
    + destruct body as [data|e]; cbn.
      2:{ intros H; inversion H; subst; cbn. auto. }
      destruct (py_item data "access_token") as [tok|e] eqn:Htok; cbn.
      2:{ intros H; inversion H; subst; cbn. auto. }
      destruct (py_get data "expires_in" (JNum 3600)) as [ex|e] eqn:Hex; cbn.
      2:{ intros H; inversion H; subst; cbn. auto. }
      destruct (timedelta_seconds ex) as [d|e] eqn:Hd; cbn.
      2:{ intros H; inversion H; subst; cbn. auto. }
      intros H; inversion H; subst; cbn.
      repeat split; auto. exists tok, d. rewrite Hex. cbn. auto.
Qed.

(** C7. Every successful authentication answers one token request: the
    upstream replied with a success status and a token object, which
    [authenticate] returns; the client then holds the [access_token] of that
    object, and its expiry is the instant [datetime.now()] gave after the
    reply plus [expires_in] seconds, 3600 seconds when the object has no
    [expires_in]. And such a reply, with an [expires_in] that is absent or a
    number of seconds up to a billion, makes the authentication succeed. *)
Theorem authenticate_sets_expiry :
  forall (lib : http_lib) (w : world),
    (forall (token_data : json) (w' : world),
        authenticate lib w = (Ok token_data, w') ->
        exists dt st reason rest,
          upstream w = (dt, Response st reason (Ok token_data)) :: rest
          /\ is_error_status lib st = false
          /\ sent w' = sent w ++ [token_request (self w)]
          /\ upstream w' = rest
          /\ clock w' = clock w + dt
          /\ py_item token_data "access_token" = Ok (access_token (self w'))
          /\ (forall E, py_item token_data "expires_in" = Ok (JNum E) ->
                        token_expiry (self w') = Some (clock w + dt + E * second))
          /\ (py_item token_data "expires_in" = Raise (KeyError "expires_in") ->
              token_expiry (self w') = Some (clock w + dt + 3600 * second)))
    /\ (forall dt st reason (token_data : json) rest tok,
           upstream w = (dt, Response st reason (Ok token_data)) :: rest ->
           is_error_status lib st = false ->
           py_item token_data "access_token" = Ok tok ->
           (exists E, py_item token_data "expires_in" = Ok (JNum E)
                      /\ Z.abs E <= 1000000000)
           \/ py_item token_data "expires_in" = Raise (KeyError "expires_in") ->
           exists w',
             authenticate lib w = (Ok token_data, w')
             /\ access_token (self w') = tok).
Proof.
  intros lib w. split.
  - intros token_data w'. unfold authenticate. unfold_monad.
    destruct (upstream w) as [|[dt [msg|st reason body]] rest] eqn:Hup; cbn;
      try discriminate.
    destruct (is_error_status lib st) eqn:Hst; cbn; [discriminate|].
    destruct body as [data|e]; cbn; [|discriminate].
    destruct (py_item data "access_token") as [tok|e] eqn:Htok; cbn; [|discriminate].
    destruct (py_get data "expires_in" (JNum 3600)) as [ex|e] eqn:Hex; cbn;
      [|discriminate].
    destruct (timedelta_seconds ex) as [d|e] eqn:Hd; cbn; [|discriminate].
    intros H; inversion H; subst; clear H. cbn.
    exists dt, st, reason, rest.
    split; [reflexivity|]. split; [exact Hst|]. split; [reflexivity|].
    split; [reflexivity|]. split; [reflexivity|]. split; [exact Htok|].
    destruct token_data as [| | | | |kv]; try discriminate. cbn in Hex |- *.
    split.
    + intros E HE. destruct (assoc "expires_in" kv); [|discriminate].
      inversion HE; subst. inversion Hex; subst. cbn in Hd. congruence.
    + intros HE. destruct (assoc "expires_in" kv); [discriminate|].
      inversion Hex; subst. cbn in Hd. congruence.
  - intros dt st reason token_data rest tok Hup Hst Htok Hexp.
    assert (exists d, rbind (py_get token_data "expires_in" (JNum 3600)) timedelta_seconds
                      = Ok d) as (d & Hd).
    { destruct token_data as [| | | | |kv]; try discriminate. cbn in Hexp |- *.
      destruct Hexp as [(E & HE & _)|HE];
        (destruct (assoc "expires_in" kv); [|try discriminate]).
      - inversion HE; subst. eexists. reflexivity.
      - discriminate.
      - eexists. reflexivity. }
    eexists. split.
    + exact (authenticate_ok lib w dt st reason token_data rest tok d Hup Hst Htok Hd).
    + reflexivity.
Qed.

Lemma authenticate_sets_expiry_witness :
  let bare := JObj [("access_token", JStr "tok")] in
  let w := world_at 1000 [ok_reply 7 bare] in
  exists w',
    authenticate Httpx w = (Ok bare, w')
    /\ access_token (self w') = JStr "tok"
    /\ token_expiry (self w') = Some (1007 + 3600 * second)
    /\ sent w' = [token_request fresh_client].
Proof.
  intros bare w.
  destruct (proj2 (authenticate_sets_expiry Httpx w) 7 200 "OK" bare [] (JStr "tok")
              eq_refl eq_refl eq_refl (or_intror eq_refl)) as (w' & Hauth & Htok).
  exists w'. split; [exact Hauth|]. split; [exact Htok|].
  destruct (proj1 (authenticate_sets_expiry Httpx w) bare w' Hauth)
    as (dt & st & reason & rest & Hup & _ & Hsent & _ & _ & _ & _ & Hdefault).
  injection Hup as <- _ _ _.
  split; [exact (Hdefault eq_refl)|exact Hsent].
Defined.

(** C9. A token exchange that fails because [raise_for_status] raises leaves
    the stored [access_token] and [token_expiry] as they were. *)
Theorem failed_authentication_keeps_token :
  forall (lib : http_lib) (w : world) dt st reason body rest,
    upstream w = (dt, Response st reason body) :: rest ->
    is_error_status lib st = true ->
    exists e,
      fst (authenticate lib w) = Raise e
      /\ class_of e = CHTTPStatusError
      /\ access_token (self (snd (authenticate lib w))) = access_token (self w)
      /\ token_expiry (self (snd (authenticate lib w))) = token_expiry (self w).
Proof.
  intros lib w dt st reason body rest Hup Hst.
  rewrite (authenticate_refused lib w dt st reason body rest Hup Hst).
  eexists. cbn. repeat split; reflexivity.
Qed.

Lemma failed_authentication_keeps_token_witness :
  let w := world_with_token 0 (30 * second)
             [(2, Response 401 "Unauthorized" (Ok (JObj [("error", JStr "invalid_client")])))] in
  exists e,
    fst (authenticate Requests w) = Raise e
    /\ class_of e = CHTTPStatusError
    /\ access_token (self (snd (authenticate Requests w))) = access_token (self w)
    /\ token_expiry (self (snd (authenticate Requests w))) = token_expiry (self w).
Proof.
  intro w.
  apply (failed_authentication_keeps_token Requests w 2 401 "Unauthorized"
           (Ok (JObj [("error", JStr "invalid_client")])) []); reflexivity.
Defined.

(** C1, as the code has it. [is_token_valid] is true exactly when the stored
    access token is a true value (not [None], not the empty string), an
    expiry is stored and the instant is strictly before the expiry less 60
    seconds. After an authentication with [expires_in = E] that stored such a
    token, it is true at the instant of issue when [E > 60], and false at and
    after the instant of issue plus [E - 60] seconds. *)
Theorem token_validity_boundary :
  (forall (c : client) (t : Z),
      is_token_valid c t = true <->
      truthy (access_token c) = true
      /\ exists expiry, token_expiry c = Some expiry /\ t < expiry - 60 * second)
  /\ (forall (lib : http_lib) (w : world) (token_data : json) (w' : world) (E : Z),
         authenticate lib w = (Ok token_data, w') ->
         py_item token_data "expires_in" = Ok (JNum E) ->
         truthy (access_token (self w')) = true ->
         (60 < E -> is_token_valid (self w') (clock w') = true)
         /\ (forall t, clock w' + (E - 60) * second <= t ->
                       is_token_valid (self w') t = false)).
Proof.
  split.
  - intros c t. unfold is_token_valid.
    destruct (token_expiry c) as [expiry|].
    + destruct (truthy (access_token c)); cbn.
      * rewrite Z.ltb_lt. split.
        -- intros H. split; [reflexivity|]. exists expiry. auto.
        -- intros (_ & e & He & Hlt). inversion He; subst. exact Hlt.
      * split; [discriminate|]. intros (H & _). discriminate.
    + split; [discriminate|]. intros (_ & e & He & _). discriminate.
  - intros lib w token_data w' E H HE Htruthy.
    destruct (authenticate_inv lib w _ _ H) as (_ & _ & _ & tok & d & Htok & Hd & Hacc & Hexp).
    assert (d = E * second) as ->.
    { destruct token_data as [| | | | |kv]; try discriminate.
      cbn in *. destruct (assoc "expires_in" kv); [|discriminate].
      inversion HE; subst. cbn in Hd. congruence. }
    unfold is_token_valid. rewrite Hexp, Htruthy. cbn. unfold second.
    split.
    + intros HE60. apply Z.ltb_lt. lia.
    + intros t Ht. apply Z.ltb_ge. unfold second in Ht. lia.
Qed.

Lemma token_validity_boundary_witness :
  let w' := snd (authenticate Httpx (world_at 1000 [ok_reply 7 (token_body 3600)])) in
  (is_token_valid (self w') (clock w') = true)
  /\ is_token_valid (self w') (clock w' + 3540 * second - 1) = true
  /\ is_token_valid (self w') (clock w' + 3540 * second) = false.
Proof.
  intro w'.
  destruct (proj2 token_validity_boundary Httpx
              (world_at 1000 [ok_reply 7 (token_body 3600)])
              (token_body 3600) w' 3600 eq_refl eq_refl eq_refl) as [Hnow Hlate].
  split; [apply Hnow; lia|].
  split; [reflexivity|].
  apply Hlate. lia.
Defined.

(** C1 as stated fails twice. A token object whose [access_token] is the
    empty string is stored as it is: token and expiry both exist and the
    instant is before the margin, yet [is_token_valid] is false. And a token
    issued with [expires_in = 60] is not valid at the instant of issue. *)
Lemma token_validity_counterexample :
  (let w' := snd (authenticate Httpx
                    (world_at 1000 [ok_reply 7 (JObj [("access_token", JStr "");
                                                      ("expires_in", JNum 3600)])])) in
   access_token (self w') = JStr ""
   /\ token_expiry (self w') = Some (1007 + 3600 * second)
   /\ (clock w' <? 1007 + 3600 * second - 60 * second) = true
   /\ is_token_valid (self w') (clock w') = false)
  /\ (let w' := snd (authenticate Httpx (world_at 1000 [ok_reply 7 (token_body 60)])) in
      fst (authenticate Httpx (world_at 1000 [ok_reply 7 (token_body 60)]))
        = Ok (token_body 60)
      /\ access_token (self w') = JStr "tok"
      /\ token_expiry (self w') = Some (clock w' + 60 * second)
      /\ is_token_valid (self w') (clock w') = false).
Proof. vm_compute. repeat split; reflexivity. Qed.

(** ** Paginated resource fetcher *)

Lemma is_token_valid_earlier (c : client) (t t' : Z) :
  is_token_valid c t = true -> t' <= t -> is_token_valid c t' = true.
Proof.
  unfold is_token_valid. destruct (token_expiry c); [|discriminate].
  destruct (negb (truthy (access_token c))); [discriminate|].
  rewrite !Z.ltb_lt. lia.
Qed.

Lemma success_200 (lib : http_lib) : is_error_status lib 200 = false.
Proof. destruct lib; reflexivity. Qed.

(** With a valid token, a page request is one exchange: no token request
    goes first, and the stored token is the bearer. *)
Lemma get_page_valid (lib : http_lib) (path : string) (anchor : json) (limit : Z)
    (w : world) dt st reason body rest :
  is_token_valid (self w) (clock w) = true ->
  upstream w = (dt, Response st reason body) :: rest ->
  get_page lib path anchor limit w =
    (if is_error_status lib st
     then Raise (HTTPStatusError st reason (api_base_url (self w) ++ path)%string)
     else body,
     {| self := self w; clock := clock w + dt; upstream := rest;
        sent := sent w ++ [page_request (self w) path
                             (Bearer (access_token (self w))) anchor limit] |}).
Proof.
  intros Hvalid Hup.
  unfold get_page, get_headers, ensure_authenticated. unfold_monad.
  rewrite Hvalid. cbn. rewrite Hup. cbn.
  destruct (is_error_status lib st); cbn; [reflexivity|].
  destruct body; reflexivity.
Qed.

Lemma page_ok_views (body : json) :
  page_ok body = true ->
  py_get body "items" (JArr []) = Ok (JArr (items_of body))
  /\ py_get body "nextAnchor" JNull = Ok (next_of body).
Proof.
  unfold page_ok, items_of, next_of.
  destruct body as [| | | | |kv]; cbn; try discriminate.
  destruct (assoc "items" kv) as [[| | | | |]|]; try discriminate; auto.
Qed.

Lemma total_delay_app (ps qs : list (Z * json)) :
  total_delay (ps ++ qs) = total_delay ps + total_delay qs.
Proof. unfold total_delay. induction ps as [|p ps IH]; cbn; [reflexivity|]. rewrite IH. lia. Qed.

Lemma total_delay_nonneg (ps : list (Z * json)) :
  Forall page_well_formed ps -> 0 <= total_delay ps.
Proof.
  unfold total_delay. induction 1 as [|p ps [Hp _] _ IH]; cbn; lia.
Qed.

(** The drain over a scripted upstream: every page before the last carries a
    true [nextAnchor], the last one a false one. *)
Lemma drain_pages (lib : http_lib) (path : string) :
  forall (pre : list (Z * json)) (last : Z * json) (rest : list (Z * reply))
         (w : world) (all : list json) (anchor : json) (fuel : nat),
    Forall page_well_formed pre ->
    Forall (fun p => truthy (next_of (snd p)) = true) pre ->
    page_ok (snd last) = true ->
    truthy (next_of (snd last)) = false ->
    upstream w = map page_reply (pre ++ [last]) ++ rest ->
    is_token_valid (self w) (clock w + total_delay pre) = true ->
    (List.length pre < fuel)%nat ->
    drain (fun a => get_page lib path a 100) fuel all anchor w =
      Some (Ok (all ++ List.concat (map (fun p => items_of (snd p)) (pre ++ [last]))),
            {| self := self w;
               clock := clock w + total_delay (pre ++ [last]);
               upstream := rest;
               sent := sent w ++ map (bearer_page_request (self w) path)
                                     (anchor :: map (fun p => next_of (snd p)) pre) |}).
Proof.
  induction pre as [|p pre IH]; intros last rest w all anchor fuel Hwf Hnext Hok Hlast Hup Hvalid Hfuel.
  - destruct fuel as [|fuel]; [cbn in Hfuel; lia|].
    cbn in Hup, Hvalid. rewrite Z.add_0_r in Hvalid.
    destruct (page_ok_views _ Hok) as [Hitems Hnx].
    cbn [drain]. unfold drain_step. unfold_monad.
    unfold page_reply in Hup.
    rewrite (get_page_valid lib path anchor 100 w _ _ _ _ _ Hvalid Hup).
    rewrite success_200. rewrite Hitems. cbn. rewrite Hnx. cbn. rewrite Hlast. cbn.
    rewrite app_nil_r, Z.add_0_r. reflexivity.
  - destruct fuel as [|fuel]; [cbn in Hfuel; lia|].
    inversion Hwf as [|? ? [Hdt Hpok] Hwf']; subst.
    inversion Hnext as [|? ? Hpn Hnext']; subst.
    destruct (page_ok_views _ Hpok) as [Hitems Hnx].
    pose proof (total_delay_nonneg _ Hwf') as Hnn.
    cbn [total_delay fold_right] in Hvalid. fold (total_delay pre) in Hvalid.
    assert (is_token_valid (self w) (clock w) = true) as Hnow.
    { apply (is_token_valid_earlier _ _ _ Hvalid). lia. }
    cbn [drain]. unfold drain_step. unfold_monad.
    cbn [app map] in Hup. unfold page_reply at 1 in Hup.
    rewrite (get_page_valid lib path anchor 100 w _ _ _ _ _ Hnow Hup).
    rewrite success_200. rewrite Hitems. cbn. rewrite Hnx. cbn. rewrite Hpn. cbn.
    rewrite (IH last rest); cbn [self clock upstream sent]; auto.
    + f_equal. f_equal.
      * rewrite <- app_assoc. reflexivity.
      * f_equal.
        -- cbn [total_delay fold_right app]. fold (total_delay (pre ++ [last])). lia.
        -- rewrite <- app_assoc. reflexivity.
    + rewrite <- Hvalid. f_equal. lia.
    + cbn in Hfuel. lia.
Qed.

Lemma ensure_authenticated_valid (lib : http_lib) (w : world) :
  is_token_valid (self w) (clock w) = true -> ensure_authenticated lib w = (Ok tt, w).
Proof.
  intros Hvalid. unfold ensure_authenticated. unfold_monad. rewrite Hvalid. reflexivity.
Qed.

Lemma ensure_authenticated_base (lib : http_lib) (w w1 : world) (r : result unit) :
  ensure_authenticated lib w = (r, w1) ->
  api_base_url (self w1) = api_base_url (self w).
Proof.
  unfold ensure_authenticated. unfold_monad.
  destruct (is_token_valid (self w) (clock w)).
  - intros H; inversion H; subst. reflexivity.
  - destruct (authenticate lib w) as [ra wa] eqn:Hauth.
    destruct (authenticate_inv lib w _ _ Hauth) as (_ & _ & Hbase & _).
    destruct ra; intros H; inversion H; subst; exact Hbase.
Qed.

(** Once the token exchange a page getter starts with has succeeded and left
    a valid token, the getter goes on as from the world after the exchange. *)
Lemma get_page_ensure (lib : http_lib) (path : string) (anchor : json) (limit : Z)
    (w w1 : world) :
  ensure_authenticated lib w = (Ok tt, w1) ->
  is_token_valid (self w1) (clock w1) = true ->
  get_page lib path anchor limit w = get_page lib path anchor limit w1.
Proof.
  intros Hens Hvalid.
  pose proof (ensure_authenticated_base lib w w1 _ Hens) as Hbase.
  unfold get_page, get_headers, bind, get_self, ret, page_request. cbv beta iota.
  rewrite Hens, (ensure_authenticated_valid lib w1 Hvalid). cbv beta iota.
  rewrite Hbase. reflexivity.
Qed.

Lemma drain_ensure (lib : http_lib) (path : string) (w w1 : world) :
  ensure_authenticated lib w = (Ok tt, w1) ->
  is_token_valid (self w1) (clock w1) = true ->
  forall fuel all anchor,
    drain (fun a => get_page lib path a 100) fuel all anchor w
    = drain (fun a => get_page lib path a 100) fuel all anchor w1.
Proof.
  intros Hens Hvalid [|fuel] all anchor; [reflexivity|].
  cbn [drain]. unfold drain_step, bind.
  rewrite (get_page_ensure lib path anchor 100 w w1 Hens Hvalid). reflexivity.
Qed.

(** C2, as the code has it. Let the token exchange the drain starts with, if
    one is needed, succeed and the token stay valid during the drain. Then
    for every sequence of pages the upstream returns, [get_all_devices] and
    [get_all_software_updates] issue one request per page, the first without
    cursor and each next one with the previous page's [nextAnchor], put the
    pages' items together in received order, and stop after the first page
    whose [nextAnchor] is a false value: absent, [null], or the empty
    string. *)
Theorem drain_returns_all_pages :
  forall (lib : http_lib) (pre : list (Z * json)) (last : Z * json)
         (rest : list (Z * reply)) (w w1 : world) (fuel : nat),
    ensure_authenticated lib w = (Ok tt, w1) ->
    Forall page_well_formed pre ->
    Forall (fun p => truthy (next_of (snd p)) = true) pre ->
    page_ok (snd last) = true ->
    truthy (next_of (snd last)) = false ->
    upstream w1 = map page_reply (pre ++ [last]) ++ rest ->
    is_token_valid (self w1) (clock w1 + total_delay pre) = true ->
    (List.length pre < fuel)%nat ->
    let items := List.concat (map (fun p => items_of (snd p)) (pre ++ [last])) in
    let cursors := JNull :: map (fun p => next_of (snd p)) pre in
    let after path :=
      {| self := self w1; clock := clock w1 + total_delay (pre ++ [last]);
         upstream := rest;
         sent := sent w1 ++ map (bearer_page_request (self w1) path) cursors |} in
    get_all_devices lib fuel w = Some (Ok items, after "/devices/v1")
    /\ get_all_software_updates lib fuel w = Some (Ok items, after "/software-updates/v1").
Proof.
  intros lib pre last rest w w1 fuel Hens Hwf Hnext Hok Hlast Hup Hvalid Hfuel.
  assert (is_token_valid (self w1) (clock w1) = true) as Hnow.
  { apply (is_token_valid_earlier _ _ _ Hvalid).
    pose proof (total_delay_nonneg _ Hwf). lia. }
  cbv zeta. unfold get_all_devices, get_all_software_updates,
    get_devices, get_software_updates.
  rewrite !(drain_ensure lib _ w w1 Hens Hnow).
  split.
  - rewrite (drain_pages lib "/devices/v1" pre last rest w1 [] JNull fuel); auto.
  - rewrite (drain_pages lib "/software-updates/v1" pre last rest w1 [] JNull fuel); auto.
Qed.

(** The stub of the specification, in front of a new client: after the token
    exchange, pages [a, b] then [c] then [d], the last without cursor, give
    [a, b, c, d] in three page requests carrying no cursor, [cursor1],
    [cursor2]. *)
Lemma drain_returns_all_pages_witness :
  let w := world_at 0 (ok_reply 2 (token_body 3600)
                       :: map page_reply (stub_pages ++ [stub_last])) in
  option_map (fun r => (fst r, page_anchors_sent (snd r), upstream (snd r)))
             (get_all_devices Httpx 3 w)
    = Some (Ok [JStr "a"; JStr "b"; JStr "c"; JStr "d"],
            [None; Some (JStr "cursor1"); Some (JStr "cursor2")], [])
  /\ option_map (fun r => (fst r, page_anchors_sent (snd r), upstream (snd r)))
                (get_all_software_updates Httpx 3 w)
       = Some (Ok [JStr "a"; JStr "b"; JStr "c"; JStr "d"],
               [None; Some (JStr "cursor1"); Some (JStr "cursor2")], []).
Proof.
  intro w.
  destruct (drain_returns_all_pages Httpx stub_pages stub_last [] w
              (snd (ensure_authenticated Httpx w)) 3) as [Hd Hu].
  - reflexivity.
  - repeat constructor; cbn; lia.
  - repeat constructor.
  - reflexivity.
  - reflexivity.
  - reflexivity.
  - reflexivity.
  - cbn. lia.
  - rewrite Hd, Hu. split; reflexivity.
Defined.

(** C2 as stated fails on a page whose [nextAnchor] is the empty string: the
    drain stops there, after one request, although this [nextAnchor] is
    neither absent nor [null] and the upstream has a further page. *)
Lemma drain_stops_at_empty_cursor :
  let first := page [JStr "a"] (JStr "") in
  let w := world_with_token 0 (3600 * second)
             [ok_reply 1 first; ok_reply 1 (page [JStr "b"] JNull)] in
  next_absent_or_null first = false
  /\ option_map (fun r => (fst r, anchors_sent (snd r), upstream (snd r)))
                (get_all_devices Httpx 5 w)
       = Some (Ok [JStr "a"], [None], [ok_reply 1 (page [JStr "b"] JNull)]).
Proof. vm_compute. split; reflexivity. Qed.

(** C8. When the first page has no items ([items] empty or absent) and no
    cursor ([nextAnchor] [null] or absent), both drains return the empty
    list; nothing is raised. *)
Theorem empty_first_page_gives_empty_list :
  forall (lib : http_lib) (w : world) (fuel : nat),
    (forall body w',
        get_devices lib JNull 100 w = (Ok body, w') ->
        empty_page body = true ->
        get_all_devices lib (S fuel) w = Some (Ok [], w'))
    /\ (forall body w',
           get_software_updates lib JNull 100 w = (Ok body, w') ->
           empty_page body = true ->
           get_all_software_updates lib (S fuel) w = Some (Ok [], w')).
Proof.
  intros lib w fuel.
  assert (forall body, empty_page body = true ->
            py_get body "items" (JArr []) = Ok (JArr [])
            /\ py_get body "nextAnchor" JNull = Ok JNull) as Hviews.
  { intros body. unfold empty_page. destruct body as [| | | | |kv]; try discriminate. cbn.
    destruct (assoc "items" kv) as [[| | | |[|]|]|]; cbn; try discriminate;
      destruct (assoc "nextAnchor" kv) as [[| | | | |]|]; cbn; try discriminate; auto. }
  split; intros body w' Hget Hempty; destruct (Hviews body Hempty) as [Hi Hn];
    unfold get_all_devices, get_all_software_updates; cbn [drain];
    unfold drain_step; unfold_monad; rewrite Hget, Hi; cbn; rewrite Hn; reflexivity.
Qed.

Lemma empty_first_page_gives_empty_list_witness :
  let w := world_at 0 [ok_reply 3 (token_body 3600); ok_reply 2 (JObj [("items", JArr [])])] in
  option_map fst (get_all_devices Requests 1 w) = Some (Ok [])
  /\ option_map fst (get_all_software_updates Requests 1 w) = Some (Ok []).
Proof.
  intro w.
  destruct (empty_first_page_gives_empty_list Requests w 0) as [Hd Hu].
  rewrite (Hd (JObj [("items", JArr [])]) (snd (get_devices Requests JNull 100 w)) eq_refl eq_refl).
  rewrite (Hu (JObj [("items", JArr [])]) (snd (get_software_updates Requests JNull 100 w))
              eq_refl eq_refl).
  split; reflexivity.
Defined.

(** The requests a page getter sends: the token request when the token is
    not valid, then (unless that failed) the page request built from the
    anchor it was given. *)
Lemma get_page_sent (lib : http_lib) (path : string) (anchor : json) (limit : Z) (w : world) :
  exists new,
    sent (snd (get_page lib path anchor limit w)) = sent w ++ new
    /\ Forall (fun rq => req_params rq = [] \/ req_params rq = page_params anchor limit) new.
Proof.
  assert (forall c auth,
             (fun rq => req_params rq = [] \/ req_params rq = page_params anchor limit)
               (page_request c path auth anchor limit)) as Hpage
    by (intros; right; reflexivity).
  assert (forall c,
             (fun rq => req_params rq = [] \/ req_params rq = page_params anchor limit)
               (token_request c)) as Htoken
    by (intros; left; reflexivity).
  unfold get_page, get_headers, ensure_authenticated. unfold_monad.
  destruct (is_token_valid (self w) (clock w)).
  - cbn.
    destruct (upstream w) as [|[dt [msg|st reason body]] rest]; cbn;
      [| |destruct (is_error_status lib st); cbn; [|destruct body; cbn]];
      (eexists; split; [reflexivity|]; apply Forall_cons; [apply Hpage|apply Forall_nil]).
  - destruct (authenticate lib w) as [r w1] eqn:Hauth.
    destruct (authenticate_inv lib w _ _ Hauth) as (Hsent & _).
    destruct r as [data|e]; cbn.
    + destruct (upstream w1) as [|[dt [msg|st reason body]] rest]; cbn;
        [| |destruct (is_error_status lib st); cbn; [|destruct body; cbn]];
        rewrite Hsent, <- app_assoc;
        (eexists; split; [reflexivity|];
         apply Forall_cons; [apply Htoken|apply Forall_cons; [apply Hpage|apply Forall_nil]]).
    + rewrite Hsent. eexists; split; [reflexivity|].
      apply Forall_cons; [apply Htoken|apply Forall_nil].
Qed.

(** C10. The drain stops at a page whose [nextAnchor] is any false value,
    the empty string as well as [null] or absent; and a page getter given a
    false anchor, the empty string in particular, sends no request with an
    [anchor] parameter. *)
Theorem falsy_cursor_is_terminal :
  (forall (fetch_page : json -> M json) (w : world) (body : json) (w' : world)
          (all : list json) (anchor : json) (fuel : nat),
      fetch_page anchor w = (Ok body, w') ->
      page_ok body = true ->
      truthy (next_of body) = false ->
      drain fetch_page (S fuel) all anchor w = Some (Ok (all ++ items_of body), w'))
  /\ truthy (JStr "") = false
  /\ (forall (lib : http_lib) (path : string) (anchor : json) (limit : Z) (w : world),
         truthy anchor = false ->
         exists new,
           sent (snd (get_page lib path anchor limit w)) = sent w ++ new
           /\ Forall no_anchor_param new).
Proof.
  split; [|split].
  - intros fetch_page w body w' all anchor fuel Hfetch Hok Hfalse.
    destruct (page_ok_views _ Hok) as [Hitems Hnx].
    cbn [drain]. unfold drain_step. unfold_monad.
    rewrite Hfetch, Hitems. cbn. rewrite Hnx. cbn. rewrite Hfalse. reflexivity.
  - reflexivity.
  - intros lib path anchor limit w Hfalse.
    destruct (get_page_sent lib path anchor limit w) as (new & Hsent & Hnew).
    exists new. split; [exact Hsent|].
    eapply Forall_impl; [|exact Hnew].
    intros rq [H|H]; unfold no_anchor_param; rewrite H; [reflexivity|].
    unfold page_params. rewrite Hfalse. reflexivity.
Qed.

Lemma falsy_cursor_is_terminal_witness :
  let w := world_at 0 [ok_reply 3 (token_body 3600);
                       ok_reply 2 (page [JStr "a"] (JStr ""));
                       ok_reply 2 (page [JStr "b"] JNull)] in
  get_all_devices Httpx 1 w
    = Some (Ok [JStr "a"], snd (get_devices Httpx JNull 100 w))
  /\ exists new,
       sent (snd (get_devices Httpx (JStr "") 100 w)) = sent w ++ new
       /\ Forall no_anchor_param new.
Proof.
  intro w.
  destruct falsy_cursor_is_terminal as (Hstop & _ & Hsend).
  split.
  - apply (Hstop (fun a => get_devices Httpx a 100) w
                 (page [JStr "a"] (JStr "")) _ [] JNull 0%nat); reflexivity.
  - apply (Hsend Httpx "/devices/v1" (JStr "") 100 w). reflexivity.
Defined.

(** ** Single-device lookup *)

(** After the token exchange, if one is needed, the lookup is one exchange. *)
Lemma get_by_id_after (lib : http_lib) (path device_id : string)
    (w w1 : world) dt st reason body rest :
  ensure_authenticated lib w = (Ok tt, w1) ->
  upstream w1 = (dt, Response st reason body) :: rest ->
  fst (get_by_id lib path device_id w) =
    if is_error_status lib st
    then Raise (HTTPStatusError st reason (api_base_url (self w) ++ path ++ device_id)%string)
    else body.
Proof.
  intros Hens Hup.
  unfold get_by_id, get_headers, bind, get_self, ret. cbv beta iota.
  rewrite Hens. cbv beta iota.
  unfold send, raise_for_status, response_json, lift, raise, ret.
  rewrite Hup. cbn.
  destruct (is_error_status lib st); cbn; [reflexivity|].
  destruct body; reflexivity.
Qed.

Lemma message_of_404 (reason url : string) :
  contains "404" (status_message 404 reason url) = true.
Proof. vm_compute. reflexivity. Qed.

(** C3, as the code has it. On a single-device lookup (after the token
    exchange, if one is needed) every upstream status outside 2xx makes the
    client raise the same kind of error, the HTTP library's status error
    carrying that status. The local endpoint turns it into a 404 error when
    the upstream status is 404, and into a 500 error when the text of the
    client's error does not contain ["404"]: the two are told apart on the
    text of the error. *)
Theorem device_lookup_error_mapping :
  forall (device_id : string) (w w1 : world) dt st reason body rest,
    ensure_authenticated Httpx w = (Ok tt, w1) ->
    upstream w1 = (dt, Response st reason body) :: rest ->
    is_error_status Httpx st = true ->
    let e := HTTPStatusError st reason (device_url (self w) device_id) in
    fst (get_device_by_id device_id w) = Raise e
    /\ class_of e = CHTTPStatusError
    /\ (st = 404 ->
        fst (get_device device_id w)
          = Raise (HTTPException 404 ("Device " ++ device_id ++ " not found")%string))
    /\ (contains "404" (str_exn e) = false ->
        fst (get_device device_id w)
          = Raise (HTTPException 500 ("Failed to fetch device: " ++ str_exn e)%string)).
Proof.
  intros device_id w w1 dt st reason body rest Hens Hup Hst e.
  assert (fst (get_device_by_id device_id w) = Raise e) as Hraise.
  { unfold get_device_by_id.
    rewrite (get_by_id_after Httpx _ device_id w w1 dt st reason body rest Hens Hup), Hst.
    reflexivity. }
  split; [exact Hraise|]. split; [reflexivity|].
  unfold get_device.
  destruct (get_device_by_id device_id w) as [r w']. cbn in Hraise. subst r.
  split.
  - intros ->. subst e. cbn [str_exn]. rewrite message_of_404. reflexivity.
  - intros Hno. rewrite Hno. reflexivity.
Qed.

Lemma device_lookup_error_mapping_witness :
  let w404 := world_with_token 0 (3600 * second)
                [(1, Response 404 "Not Found" (Ok (JObj [("message", JStr "no such device")])))] in
  let w500 := world_with_token 0 (3600 * second)
                [(1, Response 500 "Internal Server Error" (Ok (JObj [])))] in
  fst (get_device "d1" w404) = Raise (HTTPException 404 "Device d1 not found")
  /\ raised_class (fst (get_device_by_id "d1" w500)) = Some CHTTPStatusError
  /\ exists detail, fst (get_device "d1" w500) = Raise (HTTPException 500 detail).
Proof.
  intros w404 w500.
  destruct (device_lookup_error_mapping "d1" w404 w404 1 404 "Not Found"
              (Ok (JObj [("message", JStr "no such device")])) []
              eq_refl eq_refl eq_refl) as (_ & _ & H404 & _).
  destruct (device_lookup_error_mapping "d1" w500 w500 1 500 "Internal Server Error"
              (Ok (JObj [])) [] eq_refl eq_refl eq_refl) as (Hraise & _ & _ & H500).
  split; [exact (H404 eq_refl)|].
  split; [rewrite Hraise; reflexivity|].
  eexists. apply H500. vm_compute. reflexivity.
Defined.

(** C3 as stated fails. The client raises the same kind of error for an
    upstream 404 and an upstream 500, and so does the endpoint (only the
    status code inside differs); and an upstream 500 on a device whose id
    contains "404" is answered with the 404 error, the text of the error
    deciding. *)
Lemma device_lookup_counterexample :
  let w404 := world_with_token 0 (3600 * second)
                [(1, Response 404 "Not Found" (Ok (JObj [])))] in
  let w500 := world_with_token 0 (3600 * second)
                [(1, Response 500 "Internal Server Error" (Ok (JObj [])))] in
  raised_class (fst (get_device_by_id "d1" w404)) = Some CHTTPStatusError
  /\ raised_class (fst (get_device_by_id "d1" w500)) = Some CHTTPStatusError
  /\ raised_class (fst (get_device "d1" w404)) = Some CHTTPException
  /\ raised_class (fst (get_device "d1" w500)) = Some CHTTPException
  /\ fst (get_device "pc-404" w500) = Raise (HTTPException 404 "Device pc-404 not found").
Proof. vm_compute. repeat split; reflexivity. Qed.

(** ** Join of devices and update records *)

Lemma key_eqb_sym (a b : json) : key_eqb a b = key_eqb b a.
Proof.
  destruct a, b; cbn; try reflexivity;
    try apply Z.eqb_sym; try apply String.eqb_sym.
Qed.

Lemma key_eqb_trans (a b c : json) :
  key_eqb a b = true -> key_eqb b c = true -> key_eqb a c = true.
Proof.
  destruct a, b, c; cbn; try discriminate; try reflexivity;
    rewrite ?Z.eqb_eq, ?String.eqb_eq; congruence.
Qed.

Lemma key_eqb_congr (a b c : json) :
  key_eqb a b = true -> key_eqb c a = key_eqb c b.
Proof.
  intros Hab.
  destruct (key_eqb c a) eqn:Hca.
  - symmetry. apply (key_eqb_trans c a b); assumption.
  - destruct (key_eqb c b) eqn:Hcb; [|reflexivity].
    rewrite key_eqb_sym in Hab.
    rewrite (key_eqb_trans c b a Hcb Hab) in Hca. discriminate.
Qed.

(** Reading a dict after an assignment. *)
Lemma dict_lookup_set {V} (k k2 : json) (v : V) (d : pydict V) :
  dict_lookup k2 (dict_set k v d) = if key_eqb k2 k then Some v else dict_lookup k2 d.
Proof.
  induction d as [|[k' v'] d IH]; cbn.
  - reflexivity.
  - destruct (key_eqb k k') eqn:Hkk'; cbn.
    + rewrite (key_eqb_congr k k' k2 Hkk').
      destruct (key_eqb k2 k'); reflexivity.
    + rewrite IH.
      destruct (key_eqb k2 k') eqn:H2k'; [|reflexivity].
      destruct (key_eqb k2 k) eqn:H2k; [|reflexivity].
      rewrite key_eqb_sym in H2k.
      rewrite (key_eqb_trans k k2 k' H2k H2k') in Hkk'. discriminate.
Qed.

Lemma find_app {A} (f : A -> bool) (l1 l2 : list A) :
  find f (l1 ++ l2) = match find f l1 with Some x => Some x | None => find f l2 end.
Proof.
  induction l1 as [|a l1 IH]; cbn; [reflexivity|].
  destruct (f a); [reflexivity|exact IH].
Qed.

Lemma update_ok_key (item : json) :
  update_ok item = true ->
  exists k, py_item item "deviceId" = Ok k /\ hashable k = true.
Proof.
  unfold update_ok. destruct item as [| | | | |kv]; try discriminate. cbn.
  destruct (assoc "deviceId" kv) as [k|]; [|discriminate].
  intros H. apply andb_prop in H. exists k. tauto.
Qed.

(** The dict comprehension builds a mapping that holds, for every id, the
    last record of the list with that id. *)
Lemma updates_by_device_from_lookup (updates : list json) :
  forallb update_ok updates = true ->
  forall d, exists d',
    updates_by_device_from updates d = Ok d'
    /\ forall id, dict_lookup id d' =
                  match record_for updates id with
                  | Some r => Some r
                  | None => dict_lookup id d
                  end.
Proof.
  unfold record_for.
  induction updates as [|u rest IH]; intros Hok d; cbn.
  - exists d. auto.
  - cbn in Hok. apply andb_prop in Hok. destruct Hok as [Hu Hrest].
    destruct (update_ok_key u Hu) as (k & Hk & Hh).
    rewrite Hk, Hh.
    destruct (IH Hrest (dict_set k u d)) as (d' & Hd' & Hlook).
    exists d'. split; [exact Hd'|].
    intros id. rewrite Hlook, find_app. cbn.
    destruct (find _ (rev rest)); [reflexivity|].
    rewrite dict_lookup_set, Hk.
    destruct (key_eqb id k); reflexivity.
Qed.

Lemma record_for_ok (updates : list json) (id r : json) :
  forallb update_ok updates = true ->
  record_for updates id = Some r ->
  update_ok r = true.
Proof.
  intros Hok Hfind. unfold record_for in Hfind.
  apply find_some in Hfind. destruct Hfind as [Hin _].
  apply in_rev in Hin.
  rewrite forallb_forall in Hok. auto.
Qed.

Lemma update_ok_pending (r : json) :
  update_ok r = true ->
  py_get r "pendingSoftwareUpdates" (JArr []) = Ok (JArr (pending_list r))
  /\ forallb is_object (pending_list r) = true.
Proof.
  unfold update_ok, pending_list. destruct r as [| | | | |kv]; try discriminate. cbn.
  intros H. apply andb_prop in H. destruct H as [_ H].
  destruct (assoc "pendingSoftwareUpdates" kv) as [[| | | | |]|]; try discriminate; auto.
Qed.

Lemma pending_titles_ok (l : list json) :
  forallb is_object l = true -> exists titles, pending_titles (JArr l) = Ok titles.
Proof.
  unfold pending_titles. cbn.
  induction l as [|u l IH]; cbn; intros H.
  - eexists; reflexivity.
  - apply andb_prop in H. destruct H as [Hu Hl].
    destruct u; try discriminate. cbn.
    destruct (IH Hl) as (ts & Hts). rewrite Hts. cbn. eexists; reflexivity.
Qed.

Lemma device_ok_views (device : json) :
  device_ok device = true ->
  py_get device "id" JNull = Ok (device_key device)
  /\ hashable (device_key device) = true
  /\ (forall k default, exists v, py_get device k default = Ok v)
  /\ exists p, py_get device "platform" (JStr "Unknown") = Ok p /\ hashable p = true.
Proof.
  unfold device_ok, device_key. destruct device as [| | | | |kv]; try discriminate. cbn.
  intros H. apply andb_prop in H. destruct H as [Hid Hp].
  repeat split; auto.
  - intros; eexists; reflexivity.
  - eexists; split; [reflexivity|exact Hp].
Qed.

Lemma map_result_length {A B} (f : A -> result B) :
  forall l bs, map_result f l = Ok bs -> List.length bs = List.length l.
Proof.
  induction l as [|a l IH]; cbn; intros bs.
  - intros H; inversion H; reflexivity.
  - destruct (f a); cbn; [|discriminate].
    destruct (map_result f l) as [bs'|]; cbn; [|discriminate].
    intros H; inversion H; subst. cbn. rewrite (IH bs' eq_refl). reflexivity.
Qed.

Lemma map_result_Forall2 {A B} (f : A -> result B) :
  forall l bs, map_result f l = Ok bs -> Forall2 (fun a b => f a = Ok b) l bs.
Proof.
  induction l as [|a l IH]; cbn; intros bs.
  - intros H; inversion H. constructor.
  - destruct (f a) as [b|] eqn:Hf; cbn; [|discriminate].
    destruct (map_result f l) as [bs'|]; cbn; [|discriminate].
    intros H; inversion H; subst. constructor; auto.
Qed.

(** Whenever the dict comprehension returns, the mapping it built holds,
    for every id, the last record of the list with that id. *)
Lemma updates_by_device_from_sound (updates : list json) :
  forall d d',
    updates_by_device_from updates d = Ok d' ->
    forall id, dict_lookup id d' =
               match record_for updates id with
               | Some r => Some r
               | None => dict_lookup id d
               end.
Proof.
  unfold record_for.
  induction updates as [|u rest IH]; intros d d'; cbn.
  - intros H; inversion H; subst. reflexivity.
  - destruct (py_item u "deviceId") as [k|e] eqn:Hk; [|discriminate].
    destruct (hashable k); [|discriminate].
    intros Hrest id. rewrite (IH _ _ Hrest id), find_app. cbn.
    destruct (find _ (rev rest)); [reflexivity|].
    rewrite dict_lookup_set, Hk.
    destruct (key_eqb id k); reflexivity.
Qed.

Lemma updates_by_device_sound (updates : list json) (by_device : pydict json) :
  updates_by_device updates = Ok by_device ->
  forall id, dict_lookup id by_device = record_for updates id.
Proof.
  intros H id. rewrite (updates_by_device_from_sound updates [] by_device H id).
  destruct (record_for updates id); reflexivity.
Qed.

(** A pending list that passed [if pending], [len] and the comprehension
    over its titles is a non-empty list; one that did not pass [if pending]
    counts as the empty list. *)
Lemma truthy_pending_list (r pending_ : json) (n : Z) (titles : list json) :
  py_get r "pendingSoftwareUpdates" (JArr []) = Ok pending_ ->
  truthy pending_ = true ->
  py_len pending_ = Ok n ->
  pending_titles pending_ = Ok titles ->
  exists u l, pending_list r = u :: l.
Proof.
  unfold pending_list, pending_titles. intros ->.
  destruct pending_ as [|b|z|s0|l|kv]; cbn; try discriminate.
  - destruct s0 as [|c s0]; cbn; discriminate.
  - destruct l as [|u l]; [discriminate|]. intros _ _ _. eauto.
  - destruct kv as [|[k v] kv]; cbn; discriminate.
Qed.

Lemma falsy_pending_list (r pending_ : json) :
  py_get r "pendingSoftwareUpdates" (JArr []) = Ok pending_ ->
  truthy pending_ = false ->
  pending_list r = [].
Proof.
  unfold pending_list. intros ->.
  destruct pending_ as [|b|z|s0|l|kv]; cbn; try reflexivity.
  destruct l; [reflexivity|discriminate].
Qed.

(** One turn of the status loop, when it goes through, files the device
    under the status the specification gives it. *)
Lemma visit_device_sound (text : string -> list (string * json) -> string)
    (updates : list json) (by_device : pydict json) (device : json)
    (counts : status_counts) (details : list DeviceWithPendingUpdates)
    (acc' : status_counts * list DeviceWithPendingUpdates) :
  (forall id, dict_lookup id by_device = record_for updates id) ->
  visit_device text by_device (counts, details) device = Ok acc' ->
  fst acc' = bump (spec_classify updates device) counts.
Proof.
  intros Hlook. unfold visit_device, spec_classify, device_key, dict_find.
  destruct (py_get device "id" JNull) as [id|e]; cbn [rbind]; [|discriminate].
  destruct (hashable id); cbn [rbind]; [|discriminate].
  rewrite Hlook.
  destruct (record_for updates id) as [r|].
  - destruct (py_get r "pendingSoftwareUpdates" (JArr [])) as [p|e] eqn:Hp;
      cbn [rbind]; [|discriminate].
    destruct (truthy p) eqn:Ht.
    + destruct (py_get device "name" JNull) as [name|e]; cbn [rbind]; [|discriminate].
      destruct (py_get device "platform" JNull) as [pf|e]; cbn [rbind]; [|discriminate].
      destruct (py_len p) as [n|e] eqn:Hn; cbn [rbind]; [|discriminate].
      destruct (pending_titles p) as [titles|e] eqn:Htitles; cbn [rbind]; [|discriminate].
      destruct (new_DeviceWithPendingUpdates text id name pf n titles) as [detail|e];
        cbn [rbind]; [|discriminate].
      intros H; inversion H; subst; clear H. cbn [fst].
      destruct (truthy_pending_list r p n titles Hp Ht Hn Htitles) as (u & l & ->).
      reflexivity.
    + intros H; inversion H; subst; clear H. cbn [fst].
      rewrite (falsy_pending_list r p Hp Ht). reflexivity.
  - intros H; inversion H; subst. reflexivity.
Qed.

Lemma fold_visit_device_sound (text : string -> list (string * json) -> string)
    (updates : list json) (by_device : pydict json) :
  (forall id, dict_lookup id by_device = record_for updates id) ->
  forall devices counts details acc',
    fold_result (visit_device text by_device) devices (counts, details) = Ok acc' ->
    fst acc' = tally updates devices counts.
Proof.
  intros Hlook.
  induction devices as [|d devices IH]; intros counts details acc'; cbn [fold_result].
  - intros H; inversion H; subst. reflexivity.
  - destruct (visit_device text by_device (counts, details) d) as [[c1 ds1]|e] eqn:Hvisit;
      cbn [rbind]; [|discriminate].
    intros Hfold.
    pose proof (visit_device_sound text updates by_device d counts details _ Hlook Hvisit)
      as Hc1.
    cbn [fst] in Hc1. subst c1.
    rewrite (IH _ _ _ Hfold). reflexivity.
Qed.

(** Inputs the response models take are inputs the dict operations take. *)
Lemma update_valid_ok (item : json) : update_valid item = true -> update_ok item = true.
Proof.
  unfold update_valid, update_ok. destruct item as [| | | | |kv]; try discriminate.
  destruct (assoc "deviceId" kv) as [[| | |i| |]|]; try discriminate. cbn.
  destruct (assoc "pendingSoftwareUpdates" kv) as [[| | | |l|]|]; try discriminate; auto.
  intros H. apply forallb_forall. intros u Hu.
  rewrite forallb_forall in H. specialize (H u Hu).
  destruct u; try discriminate. reflexivity.
Qed.

Lemma updates_valid_ok (updates : list json) :
  forallb update_valid updates = true -> forallb update_ok updates = true.
Proof.
  rewrite !forallb_forall. intros H u Hu. apply update_valid_ok. auto.
Qed.

Lemma device_valid_ok (device : json) : device_valid device = true -> device_ok device = true.
Proof.
  unfold device_valid, device_ok. destruct device as [| | | | |kv]; try discriminate.
  destruct (assoc "id" kv) as [[| | |i| |]|]; try discriminate. cbn.
  intros H. apply andb_prop in H. destruct H as [_ H].
  destruct (assoc "platform" kv) as [[| | | | |]|]; try discriminate; reflexivity.
Qed.

Lemma devices_valid_ok (devices : list json) :
  forallb device_valid devices = true -> forallb device_ok devices = true.
Proof.
  rewrite !forallb_forall. intros H d Hd. apply device_valid_ok. auto.
Qed.

Lemma record_for_valid (updates : list json) (id r : json) :
  forallb update_valid updates = true ->
  record_for updates id = Some r ->
  update_valid r = true.
Proof.
  intros Hok Hfind. unfold record_for in Hfind.
  apply find_some in Hfind. destruct Hfind as [Hin _].
  apply in_rev in Hin.
  rewrite forallb_forall in Hok. auto.
Qed.

Lemma pending_titles_valid (l : list json) :
  forallb title_valid l = true ->
  exists titles ts,
    pending_titles (JArr l) = Ok titles /\ as_list as_str titles = Some ts.
Proof.
  unfold pending_titles. cbn [py_iter rbind].
  induction l as [|u l IH]; cbn [forallb map_result]; intros H.
  - exists [], []. split; reflexivity.
  - apply andb_prop in H. destruct H as [Hu Hl].
    destruct (IH Hl) as (titles & ts & Htitles & Hts).
    rewrite Htitles.
    destruct u as [| | | | |kv]; try discriminate. cbn in Hu |- *.
    destruct (assoc "title" kv) as [[| | |t| |]|]; try discriminate;
      eexists; eexists; (split; [reflexivity|]); cbn; rewrite Hts; reflexivity.
Qed.

Lemma optional_text_get (k : string) (kv : list (string * json)) :
  optional_text k kv = true ->
  exists o, as_optional_str (match assoc k kv with
                             | Some v => v
                             | None => JNull
                             end) = Some o.
Proof.
  unfold optional_text.
  destruct (assoc k kv) as [[| | |t| |]|]; try discriminate; intros _;
    eexists; reflexivity.
Qed.

(** On inputs the response models take, one turn of the status loop goes
    through. *)
Lemma visit_device_valid (text : string -> list (string * json) -> string)
    (updates : list json) (by_device : pydict json) (device : json)
    (counts : status_counts) (details : list DeviceWithPendingUpdates) :
  forallb update_valid updates = true ->
  device_valid device = true ->
  (forall id, dict_lookup id by_device = record_for updates id) ->
  exists acc', visit_device text by_device (counts, details) device = Ok acc'.
Proof.
  intros Hups Hdev Hlook.
  unfold device_valid in Hdev. destruct device as [| | | | |kv]; try discriminate.
  destruct (assoc "id" kv) as [[| | |i| |]|] eqn:Hid; try discriminate.
  cbn [andb] in Hdev. apply andb_prop in Hdev. destruct Hdev as [Hname Hpf].
  unfold visit_device, dict_find. cbn [py_get]. rewrite Hid. cbn [rbind hashable].
  rewrite Hlook.
  destruct (record_for updates (JStr i)) as [r|] eqn:Hrec; [|eexists; reflexivity].
  pose proof (record_for_valid _ _ _ Hups Hrec) as Hr.
  destruct (update_ok_pending r (update_valid_ok r Hr)) as [Hpend _].
  rewrite Hpend. cbn [rbind].
  destruct (pending_list r) as [|u l] eqn:Hl; [eexists; reflexivity|].
  cbn [truthy].
  destruct (optional_text_get "name" kv Hname) as (oname & Hasname).
  cbn [py_get rbind].
  assert (exists opf, as_optional_str (match assoc "platform" kv with
                                       | Some v => v
                                       | None => JNull
                                       end) = Some opf) as (opf & Haspf).
  { destruct (assoc "platform" kv) as [[| | |t| |]|]; try discriminate;
      eexists; reflexivity. }
  assert (forallb title_valid (u :: l) = true) as Htitles.
  { unfold update_valid in Hr. destruct r as [| | | | |kv']; try discriminate.
    apply andb_prop in Hr. destruct Hr as [_ Hr].
    unfold pending_list in Hl. cbn in Hl.
    destruct (assoc "pendingSoftwareUpdates" kv') as [[| | | |l'|]|];
      try discriminate. subst l'. exact Hr. }
  destruct (pending_titles_valid (u :: l) Htitles) as (titles & ts & Hts & Hasts).
  cbn [py_len rbind]. rewrite Hts. cbn [rbind].
  unfold new_DeviceWithPendingUpdates. cbn [as_str]. rewrite Hasname, Haspf, Hasts.
  eexists; reflexivity.
Qed.

Lemma fold_visit_device_valid (text : string -> list (string * json) -> string)
    (updates : list json) (by_device : pydict json) :
  forallb update_valid updates = true ->
  (forall id, dict_lookup id by_device = record_for updates id) ->
  forall devices acc,
    forallb device_valid devices = true ->
    exists acc', fold_result (visit_device text by_device) devices acc = Ok acc'.
Proof.
  intros Hups Hlook.
  induction devices as [|d devices IH]; intros [counts details] Hdevs; cbn [fold_result].
  - eexists; reflexivity.
  - cbn in Hdevs. apply andb_prop in Hdevs. destruct Hdevs as [Hd Hrest].
    destruct (visit_device_valid text updates by_device d counts details Hups Hd Hlook)
      as (acc1 & ->).
    cbn [rbind]. apply IH. exact Hrest.
Qed.

Lemma dict_set_text_keys {V} (k : string) (v : V) (d : pydict V) :
  Forall (fun kv => exists t, fst kv = JStr t) d ->
  Forall (fun kv => exists t, fst kv = JStr t) (dict_set (JStr k) v d).
Proof.
  induction d as [|[k' v'] d IH]; cbn [dict_set]; intros Hd.
  - repeat constructor. exists k. reflexivity.
  - inversion Hd as [|? ? Hk' Hd']; subst.
    destruct (key_eqb (JStr k) k'); constructor; auto.
Qed.

(** The platforms counted for devices the models take are strings. *)
Lemma platform_counts_text_keys (devices : list json) :
  forallb device_valid devices = true ->
  forall acc counts,
    Forall (fun kv => exists t, fst kv = JStr t) acc ->
    fold_result (fun counts device =>
                   platform_ <~ py_get device "platform" (JStr "Unknown") ;;
                   count_platform counts platform_)
                devices acc = Ok counts ->
    Forall (fun kv : json * Z => exists t, fst kv = JStr t) counts.
Proof.
  induction devices as [|d devices IH]; intros Hdevs acc counts Hacc; cbn [fold_result].
  - intros H; inversion H; subst. exact Hacc.
  - cbn in Hdevs. apply andb_prop in Hdevs. destruct Hdevs as [Hd Hrest].
    unfold device_valid in Hd. destruct d as [| | | | |kv]; try discriminate.
    apply andb_prop in Hd. destruct Hd as [_ Hpf].
    cbn [py_get rbind].
    assert (exists t, match assoc "platform" kv with
                      | Some v => v
                      | None => JStr "Unknown"
                      end = JStr t) as (t & ->).
    { destruct (assoc "platform" kv) as [[| | |t| |]|]; try discriminate;
        eexists; reflexivity. }
    unfold count_platform, dict_find. cbn [hashable rbind].
    apply (IH Hrest). apply dict_set_text_keys. exact Hacc.
Qed.

Lemma platform_stats_valid (text : string -> list (string * json) -> string)
    (total : Z) (pcs : pydict Z) :
  Forall (fun kv : json * Z => exists t, fst kv = JStr t) pcs ->
  exists stats,
    map_result (fun pc => new_PlatformStats text (fst pc) (snd pc)
                            (percentage (snd pc) total)) pcs = Ok stats.
Proof.
  induction pcs as [|[k v] pcs IH]; intros Hpcs; cbn [map_result].
  - eexists; reflexivity.
  - inversion Hpcs as [|? ? (t & Hk) Hrest]; subst. cbn [fst snd] in *. subst k.
    destruct (IH Hrest) as (stats & ->).
    eexists; reflexivity.
Qed.

Lemma tally_bucket (updates : list json) (s : UpdateStatus) :
  forall devices c,
    bucket s (tally updates devices c) = bucket s c + count_status s updates devices.
Proof.
  unfold tally, count_status.
  induction devices as [|d devices IH]; intros c; cbn [fold_left filter].
  - cbn. lia.
  - rewrite IH.
    destruct (spec_classify updates d), s; cbn [status_eqb bump bucket up_to_date pending no_info];
      cbn [List.length]; lia.
Qed.

(** Every device falls in exactly one of the three buckets. *)
Lemma count_status_total (updates devices : list json) :
  count_status UP_TO_DATE updates devices + count_status PENDING updates devices
  + count_status NO_INFO updates devices = Z.of_nat (List.length devices).
Proof.
  unfold count_status.
  induction devices as [|d devices IH]; cbn [filter List.length]; [reflexivity|].
  destruct (spec_classify updates d); cbn [status_eqb List.length]; lia.
Qed.

Lemma count_online_ok (devices : list json) :
  forallb device_ok devices = true -> exists n, count_online devices = Ok n.
Proof.
  unfold count_online. generalize 0.
  induction devices as [|d devices IH]; intros n Hdevs; cbn.
  - eexists; reflexivity.
  - cbn in Hdevs. apply andb_prop in Hdevs. destruct Hdevs as [Hd Hrest].
    destruct (device_ok_views d Hd) as (_ & _ & Hget & _).
    destruct (Hget "online" (JBool false)) as (v & ->). cbn.
    apply IH. exact Hrest.
Qed.

Lemma platform_counts_ok (devices : list json) :
  forallb device_ok devices = true -> exists counts, platform_counts devices = Ok counts.
Proof.
  unfold platform_counts. generalize (@nil (json * Z)).
  induction devices as [|d devices IH]; intros counts Hdevs; cbn.
  - eexists; reflexivity.
  - cbn in Hdevs. apply andb_prop in Hdevs. destruct Hdevs as [Hd Hrest].
    destruct (device_ok_views d Hd) as (_ & _ & _ & p & Hp & Hhash).
    rewrite Hp. cbn. unfold count_platform, dict_find. rewrite Hhash. cbn.
    apply IH. exact Hrest.
Qed.

Lemma incr_key_label (label : string) (d : pydict Z) :
  incr_key (JStr label) d =
    Ok (dict_set (JStr label)
                 (match dict_lookup (JStr label) d with Some n => n | None => 0 end + 1) d).
Proof. reflexivity. Qed.

Lemma label_of_eqb (s s' : UpdateStatus) :
  key_eqb (JStr (label_of s')) (JStr (label_of s)) = status_eqb s s'.
Proof. destruct s, s'; vm_compute; reflexivity. Qed.

(** One turn of the loop of [analyze_update_status] files the device under
    the status the specification gives it. *)
Lemma analyze_device_classifies (updates : list json) (by_device : pydict json)
    (device : json) (stats : analysis) :
  forallb update_ok updates = true ->
  device_ok device = true ->
  (forall id, dict_lookup id by_device = record_for updates id) ->
  let s := spec_classify updates device in
  exists stats',
    analyze_device by_device stats device = Ok stats'
    /\ a_total_devices stats' = a_total_devices stats
    /\ a_devices_up_to_date stats'
       = a_devices_up_to_date stats + one_if (status_eqb s UP_TO_DATE)
    /\ a_devices_with_pending_updates stats'
       = a_devices_with_pending_updates stats + one_if (status_eqb s PENDING)
    /\ forall s', by_status_count (label_of s') stats'
                  = by_status_count (label_of s') stats + one_if (status_eqb s s').
Proof.
  intros Hups Hdev Hlook s. subst s.
  destruct (device_ok_views device Hdev) as (Hid & Hhash & Hget & p & Hp & Hph).
  unfold analyze_device, spec_classify, dict_find. rewrite Hid. cbn [rbind].
  destruct (Hget "name" (JStr "Unknown")) as (name & ->). cbn [rbind].
  rewrite Hp. cbn [rbind].
  unfold incr_key at 1. unfold count_platform, dict_find. rewrite Hph. cbn [rbind].
  rewrite Hhash. cbn [rbind]. rewrite Hlook.
  assert (forall label (d : pydict Z) s',
             match dict_lookup (JStr (label_of s'))
                     (dict_set (JStr label)
                        (match dict_lookup (JStr label) d with Some n => n | None => 0 end + 1) d)
             with Some n => n | None => 0 end
             = match dict_lookup (JStr (label_of s')) d with Some n => n | None => 0 end
               + one_if (key_eqb (JStr (label_of s')) (JStr label))) as Hcount.
  { intros label d s'. rewrite dict_lookup_set.
    destruct (key_eqb (JStr (label_of s')) (JStr label)) eqn:Heq; cbn [one_if]; [|lia].
    cbn [key_eqb] in Heq. apply String.eqb_eq in Heq. rewrite Heq. reflexivity. }
  destruct (record_for updates (device_key device)) as [r|] eqn:Hrec.
  - pose proof (record_for_ok _ _ _ Hups Hrec) as Hr.
    destruct (update_ok_pending r Hr) as [Hpend Hobjs].
    rewrite Hpend. cbn [rbind].
    destruct (pending_titles_ok _ Hobjs) as (ts & Hts).
    destruct (pending_list r) as [|u l] eqn:Hl.
    + cbn [truthy]. rewrite (incr_key_label label_up_to_date). cbn [rbind py_len].
      rewrite Hts. cbn [rbind].
      eexists. split; [reflexivity|]. cbn -[label_of dict_set dict_lookup].
      repeat split; try (cbn; lia).
      intros s'. unfold by_status_count. cbn [a_devices_by_status].
      rewrite (Hcount label_up_to_date).
      change label_up_to_date with (label_of UP_TO_DATE).
      rewrite (label_of_eqb UP_TO_DATE s'). reflexivity.
    + cbn [truthy]. rewrite (incr_key_label label_pending). cbn [rbind py_len].
      rewrite Hts. cbn [rbind].
      eexists. split; [reflexivity|]. cbn -[label_of dict_set dict_lookup].
      repeat split; try (cbn; lia).
      intros s'. unfold by_status_count. cbn [a_devices_by_status].
      rewrite (Hcount label_pending).
      change label_pending with (label_of PENDING).
      rewrite (label_of_eqb PENDING s'). reflexivity.
  - rewrite (incr_key_label label_no_info). cbn [rbind].
    eexists. split; [reflexivity|]. cbn -[label_of dict_set dict_lookup].
    repeat split; try (cbn; lia).
    intros s'. unfold by_status_count. cbn [a_devices_by_status].
    rewrite (Hcount label_no_info).
      change label_no_info with (label_of NO_INFO).
    rewrite (label_of_eqb NO_INFO s'). reflexivity.
Qed.

Lemma count_status_cons (s : UpdateStatus) (updates : list json) (d : json) (devices : list json) :
  count_status s updates (d :: devices)
  = one_if (status_eqb (spec_classify updates d) s) + count_status s updates devices.
Proof.
  unfold count_status. cbn [filter].
  destruct (status_eqb (spec_classify updates d) s); cbn [List.length one_if]; lia.
Qed.

Lemma fold_analyze_device (updates : list json) (by_device : pydict json) :
  forallb update_ok updates = true ->
  (forall id, dict_lookup id by_device = record_for updates id) ->
  forall devices stats,
    forallb device_ok devices = true ->
    exists stats',
      fold_result (analyze_device by_device) devices stats = Ok stats'
      /\ a_total_devices stats' = a_total_devices stats
      /\ a_devices_up_to_date stats'
         = a_devices_up_to_date stats + count_status UP_TO_DATE updates devices
      /\ a_devices_with_pending_updates stats'
         = a_devices_with_pending_updates stats + count_status PENDING updates devices
      /\ forall s, by_status_count (label_of s) stats'
                   = by_status_count (label_of s) stats + count_status s updates devices.
Proof.
  intros Hups Hlook.
  induction devices as [|d devices IH]; intros stats Hdevs; cbn [fold_result].
  - exists stats. split; [reflexivity|].
    unfold count_status. cbn. repeat split; intros; lia.
  - cbn in Hdevs. apply andb_prop in Hdevs. destruct Hdevs as [Hd Hrest].
    destruct (analyze_device_classifies updates by_device d stats Hups Hd Hlook)
      as (stats1 & Hstep & Htot1 & Hup1 & Hpend1 & Hby1).
    rewrite Hstep. cbn [rbind].
    destruct (IH stats1 Hrest) as (stats' & Hfold & Htot & Hup & Hpend & Hby).
    exists stats'. split; [exact Hfold|].
    split; [congruence|].
    split; [rewrite Hup, Hup1, count_status_cons; lia|].
    split; [rewrite Hpend, Hpend1, count_status_cons; lia|].
    intros s. rewrite Hby, Hby1, count_status_cons. lia.
Qed.

Lemma compute_statistics_sound (text : string -> list (string * json) -> string)
    (devices updates : list json) (st : StatisticsResponse) :
  compute_statistics text devices updates = Ok st ->
  devices_up_to_date st = count_status UP_TO_DATE updates devices
  /\ devices_with_pending_updates st = count_status PENDING updates devices
  /\ status_buckets st
     = [(UP_TO_DATE, count_status UP_TO_DATE updates devices);
        (PENDING, count_status PENDING updates devices);
        (NO_INFO, count_status NO_INFO updates devices)].
Proof.
  unfold compute_statistics.
  destruct (updates_by_device updates) as [bd|e] eqn:Hbd; cbn [rbind]; [|discriminate].
  destruct (count_online devices) as [online|e]; cbn [rbind]; [|discriminate].
  destruct (platform_counts devices) as [pcs|e]; cbn [rbind]; [|discriminate].
  destruct (map_result _ pcs) as [pstats|e]; cbn [rbind]; [|discriminate].
  destruct (fold_result (visit_device text bd) devices _) as [[counts details]|e] eqn:Hfold;
    cbn [rbind]; [|discriminate].
  intros H; inversion H; subst; clear H.
  pose proof (fold_visit_device_sound text updates bd (updates_by_device_sound _ _ Hbd)
                devices _ _ _ Hfold) as Hcounts.
  cbn [fst] in Hcounts. subst counts.
  unfold status_buckets, new_UpdateStatusStats.
  cbn [devices_up_to_date devices_with_pending_updates devices_by_status map
       us_status us_count fst snd].
  pose proof (tally_bucket updates UP_TO_DATE devices
                {| up_to_date := 0; pending := 0; no_info := 0 |}) as Hu.
  pose proof (tally_bucket updates PENDING devices
                {| up_to_date := 0; pending := 0; no_info := 0 |}) as Hp.
  pose proof (tally_bucket updates NO_INFO devices
                {| up_to_date := 0; pending := 0; no_info := 0 |}) as Hn.
  cbn [bucket up_to_date pending no_info] in Hu, Hp, Hn.
  rewrite Hu, Hp, Hn. rewrite !Z.add_0_l. repeat split; reflexivity.
Qed.

Lemma compute_statistics_valid (text : string -> list (string * json) -> string)
    (devices updates : list json) :
  forallb device_valid devices = true ->
  forallb update_valid updates = true ->
  exists st, compute_statistics text devices updates = Ok st.
Proof.
  intros Hdevs Hups.
  destruct (updates_by_device_from_lookup updates (updates_valid_ok _ Hups) [])
    as (bd & Hbd & _).
  unfold compute_statistics. unfold updates_by_device at 1. rewrite Hbd. cbn [rbind].
  destruct (count_online_ok devices (devices_valid_ok _ Hdevs)) as (online & ->).
  cbn [rbind].
  destruct (platform_counts_ok devices (devices_valid_ok _ Hdevs)) as (pcs & Hpcs).
  rewrite Hpcs. cbn [rbind].
  destruct (platform_stats_valid text (Z.of_nat (List.length devices)) pcs
              (platform_counts_text_keys devices Hdevs [] pcs (Forall_nil _) Hpcs))
    as (pstats & ->).
  cbn [rbind].
  destruct (fold_visit_device_valid text updates bd Hups
              (updates_by_device_sound updates bd Hbd) devices
              ({| up_to_date := 0; pending := 0; no_info := 0 |}, []) Hdevs)
    as ([counts details] & ->).
  cbn [rbind]. eexists; reflexivity.
Qed.

(** C4. With the mapping built from the update list (the last record of an
    id winning), each device is counted in exactly one bucket: up to date
    when the mapping has a record for its id with an empty pending list,
    pending when it has a record with a non-empty pending list, no
    information when it has no record. Whenever [get_statistics] computes
    its response it has counted that way, and it does compute one for
    devices and update records its response models take; for devices and
    update records the dict operations take, [analyze_update_status]
    returns and has counted that way. *)
Theorem join_classification :
  forall (text : string -> list (string * json) -> string)
         (devices updates : list json),
    let n := fun s => count_status s updates devices in
    n UP_TO_DATE + n PENDING + n NO_INFO = Z.of_nat (List.length devices)
    /\ (forall st,
           compute_statistics text devices updates = Ok st ->
           devices_up_to_date st = n UP_TO_DATE
           /\ devices_with_pending_updates st = n PENDING
           /\ status_buckets st
              = [(UP_TO_DATE, n UP_TO_DATE); (PENDING, n PENDING); (NO_INFO, n NO_INFO)])
    /\ (forallb device_valid devices = true ->
        forallb update_valid updates = true ->
        exists st, compute_statistics text devices updates = Ok st)
    /\ (forallb device_ok devices = true ->
        forallb update_ok updates = true ->
        exists stats,
          analyze_update_status devices updates = Ok stats
          /\ a_devices_up_to_date stats = n UP_TO_DATE
          /\ a_devices_with_pending_updates stats = n PENDING
          /\ forall s, by_status_count (label_of s) stats = n s).
Proof.
  intros text devices updates n. subst n. cbv beta.
  split; [apply count_status_total|].
  split; [intros st; apply compute_statistics_sound|].
  split; [apply compute_statistics_valid|].
  intros Hdevs Hups.
  destruct (updates_by_device_from_lookup updates Hups []) as (bd & Hbd & Hlook0).
  assert (forall id, dict_lookup id bd = record_for updates id) as Hlook.
  { intros id. rewrite Hlook0. destruct (record_for updates id); reflexivity. }
  unfold analyze_update_status, updates_by_device. rewrite Hbd. cbn [rbind].
  destruct (fold_analyze_device updates bd Hups Hlook devices
              {| a_total_devices := Z.of_nat (List.length devices);
                 a_devices_with_updates := 0;
                 a_devices_up_to_date := 0;
                 a_devices_with_pending_updates := 0;
                 a_devices_by_status := [];
                 a_devices_by_platform := [];
                 a_update_details := [] |} Hdevs)
    as (stats & Hfold & _ & Hup & Hpend & Hby).
  exists stats. split; [exact Hfold|].
  cbn in Hup, Hpend.
  split; [exact Hup|]. split; [exact Hpend|].
  intros s. rewrite Hby. reflexivity.
Qed.

Lemma join_classification_witness :
  (exists st,
      compute_statistics model_name_only example_devices example_updates = Ok st
      /\ status_buckets st = [(UP_TO_DATE, 1); (PENDING, 1); (NO_INFO, 1)])
  /\ map (spec_classify example_updates) example_devices = [UP_TO_DATE; PENDING; NO_INFO]
  /\ (exists stats,
         analyze_update_status example_devices example_updates = Ok stats
         /\ by_status_count label_up_to_date stats = 1
         /\ by_status_count label_pending stats = 1
         /\ by_status_count label_no_info stats = 1).
Proof.
  destruct (join_classification model_name_only example_devices example_updates)
    as (_ & Hsound & Hvalid & Hanalyze).
  destruct (Hvalid eq_refl eq_refl) as (st & Hst).
  destruct (Hsound st Hst) as (_ & _ & Hbuckets).
  destruct (Hanalyze eq_refl eq_refl) as (stats & Hstats & _ & _ & Hby).
  split; [|split].
  - exists st. split; [exact Hst|exact Hbuckets].
  - reflexivity.
  - exists stats. split; [exact Hstats|].
    split; [exact (Hby UP_TO_DATE)|]. split; [exact (Hby PENDING)|exact (Hby NO_INFO)].
Defined.

(** ** Percentages *)

Lemma percentage_positive (count total : Z) :
  0 < total -> percentage count total = PFloat (round_float2 (ratio_percent count total)).
Proof.
  intros H. unfold percentage. apply Z.ltb_lt in H. rewrite H. reflexivity.
Qed.

Lemma percentage_zero (count total : Z) :
  total <= 0 -> percentage count total = PInt 0.
Proof.
  intros H. unfold percentage. apply Z.ltb_ge in H. rewrite H. reflexivity.
Qed.

(** The quotient [round_half_even] picks is the nearest integer, the even
    one on a tie. *)
Lemma round_half_even_nearest (num den : Z) :
  0 < den ->
  2 * Z.abs (num - round_half_even num den * den) <= den
  /\ (2 * Z.abs (num - round_half_even num den * den) = den ->
      Z.even (round_half_even num den) = true).
Proof.
  intros Hden. unfold round_half_even.
  pose proof (Z.div_mod num den ltac:(lia)) as Hdiv.
  pose proof (Z.mod_pos_bound num den Hden) as Hmod.
  set (q := num / den) in *. set (r := num mod den) in *.
  destruct (Z.compare_spec (2 * r) den) as [Heq|Hlt|Hgt].
  - destruct (Z.even q) eqn:Heven.
    + replace (num - q * den) with r by lia. split; [lia|auto].
    + replace (num - (q + 1) * den) with (r - den) by lia. split; [lia|].
      intros _. rewrite Z.add_1_r, Z.even_succ, <- Z.negb_even, Heven. reflexivity.
  - replace (num - q * den) with r by lia. split; lia.
  - replace (num - (q + 1) * den) with (r - den) by lia. split; lia.
Qed.

(** [round(x, 2)] rounds to two decimals. *)
Lemma round_float2_rounded (x : float) : rounded_to_2_decimals x (round_float2 x).
Proof.
  unfold rounded_to_2_decimals, round_float2.
  destruct (Prim2SF x) as [s0|s0| |s0 m e]; try reflexivity.
  destruct (0 <=? e) eqn:He.
  - apply Z.leb_le in He. exists (Z.pos m * 2 ^ e * 100). split.
    + unfold nearest_hundredth. rewrite (Z.max_l e 0), (Z.max_r (- e) 0) by lia.
      change (2 ^ 0) with 1.
      replace (100 * Z.pos m * 2 ^ e - Z.pos m * 2 ^ e * 100 * 1) with 0 by lia.
      cbn. split; [lia|discriminate].
    + destruct s0; reflexivity.
  - apply Z.leb_gt in He. exists (round_half_even (Z.pos m * 100) (2 ^ (- e))). split.
    + unfold nearest_hundredth. rewrite (Z.max_r e 0), (Z.max_l (- e) 0) by lia.
      change (2 ^ 0) with 1.
      replace (100 * Z.pos m * 1) with (Z.pos m * 100) by lia.
      apply round_half_even_nearest. apply Z.pow_pos_nonneg; lia.
    + destruct s0; reflexivity.
Qed.

(** What [compute_statistics] returns when it returns: the buckets carry,
    as a float, the percentage of their own count. *)
Lemma compute_statistics_percentages (text : string -> list (string * json) -> string)
    (devices updates : list json) (st : StatisticsResponse) :
  compute_statistics text devices updates = Ok st ->
  total_devices st = Z.of_nat (List.length devices)
  /\ Forall (fun b => us_percentage b
                      = as_float (percentage (us_count b) (total_devices st)))
            (devices_by_status st)
  /\ Forall (fun b => ps_percentage b
                      = as_float (percentage (ps_count b) (total_devices st)))
            (devices_by_platform st).
Proof.
  unfold compute_statistics.
  destruct (updates_by_device updates) as [bd|e]; cbn [rbind]; [|discriminate].
  destruct (count_online devices) as [online|e]; cbn [rbind]; [|discriminate].
  destruct (platform_counts devices) as [pcs|e]; cbn [rbind]; [|discriminate].
  destruct (map_result _ pcs) as [pstats|e] eqn:Hpstats; cbn [rbind]; [|discriminate].
  destruct (fold_result (visit_device text bd) devices _) as [[counts details]|e];
    cbn [rbind]; [|discriminate].
  intros H; inversion H; subst; clear H.
  cbn [total_devices devices_by_status devices_by_platform].
  split; [reflexivity|]. split.
  - cbn [map]. repeat constructor.
  - apply map_result_Forall2 in Hpstats.
    induction Hpstats as [|pc b pcs pstats Hb _ IH]; constructor; [|exact IH].
    unfold new_PlatformStats in Hb. destruct (as_str (fst pc)); [|discriminate].
    inversion Hb; subst. reflexivity.
Qed.

(** C5. In the statistics every bucket, by status or by platform, holds the
    float [count / total_devices * 100] rounded to two decimals (to the
    nearest hundredth, the even one on a tie) when there are devices, and 0
    when there are none; with no device the statistics are computed without
    exception and give 0 for every bucket. *)
Theorem percentage_guard :
  (forall (text : string -> list (string * json) -> string)
          (devices updates : list json) (st : StatisticsResponse),
      compute_statistics text devices updates = Ok st ->
      let total := Z.of_nat (List.length devices) in
      let ratio := fun count : Z =>
        PrimFloat.mul (PrimFloat.div (float_of_Z count) (float_of_Z total))
                      (float_of_Z 100) in
      (0 < total ->
       Forall (fun b => rounded_to_2_decimals (ratio (us_count b)) (us_percentage b))
              (devices_by_status st)
       /\ Forall (fun b => rounded_to_2_decimals (ratio (ps_count b)) (ps_percentage b))
                 (devices_by_platform st))
      /\ (total = 0 ->
          Forall (fun b => us_percentage b = 0%float) (devices_by_status st)
          /\ Forall (fun b => ps_percentage b = 0%float) (devices_by_platform st)))
  /\ (forall (text : string -> list (string * json) -> string) (updates : list json),
         forallb update_ok updates = true ->
         exists st,
           compute_statistics text [] updates = Ok st
           /\ map (fun b => (us_status b, us_count b, us_percentage b)) (devices_by_status st)
              = [(UP_TO_DATE, 0, 0%float); (PENDING, 0, 0%float); (NO_INFO, 0, 0%float)]
           /\ devices_by_platform st = []).
Proof.
  split.
  - intros text devices updates st Hst total ratio.
    destruct (compute_statistics_percentages text devices updates st Hst) as (Htot & Hs & Hp).
    fold total in Htot. rewrite Htot in Hs, Hp.
    split.
    + intros Hpos. split.
      * eapply Forall_impl; [|exact Hs]. intros b ->.
        rewrite (percentage_positive _ _ Hpos). apply round_float2_rounded.
      * eapply Forall_impl; [|exact Hp]. intros b ->.
        rewrite (percentage_positive _ _ Hpos). apply round_float2_rounded.
    + intros Hzero. split.
      * eapply Forall_impl; [|exact Hs]. intros b ->.
        rewrite percentage_zero by lia. reflexivity.
      * eapply Forall_impl; [|exact Hp]. intros b ->.
        rewrite percentage_zero by lia. reflexivity.
  - intros text updates Hups.
    destruct (updates_by_device_from_lookup updates Hups []) as (bd & Hbd & _).
    unfold compute_statistics, updates_by_device. rewrite Hbd.
    eexists. split; [reflexivity|]. split; reflexivity.
Qed.

Lemma percentage_guard_witness :
  (exists st,
      compute_statistics model_name_only example_devices example_updates = Ok st
      /\ Forall (fun b => rounded_to_2_decimals
                            (PrimFloat.mul (PrimFloat.div (float_of_Z (us_count b))
                                                          (float_of_Z 3))
                                           (float_of_Z 100))
                            (us_percentage b))
                (devices_by_status st)
      /\ map us_percentage (devices_by_status st)
         = [0x1.0aa3d70a3d70ap+5; 0x1.0aa3d70a3d70ap+5; 0x1.0aa3d70a3d70ap+5]%float
      /\ map ps_percentage (devices_by_platform st) = [0x1.9p+6%float])
  /\ (exists st,
         compute_statistics model_name_only [] example_updates = Ok st
         /\ map us_percentage (devices_by_status st) = [0; 0; 0]%float)
  /\ as_float (percentage 2 3) = 0x1.0aae147ae147bp+6%float
  /\ as_float (percentage 1 32) = 0x1.8f5c28f5c28f6p+1%float
  /\ as_float (percentage 3 32) = 0x1.2c28f5c28f5c3p+3%float
  /\ as_float (percentage 23 160) = 0x1.cbd70a3d70a3dp+3%float.
Proof.
  destruct percentage_guard as [Hbuckets Hempty].
  split; [|split].
  - destruct (compute_statistics model_name_only example_devices example_updates)
      as [st|e] eqn:Hst; [|vm_compute in Hst; discriminate].
    destruct (Hbuckets model_name_only example_devices example_updates st Hst) as [Hpos _].
    destruct (Hpos ltac:(reflexivity)) as [Hs Hp].
    exists st. split; [reflexivity|]. split; [exact Hs|].
    vm_compute in Hst. inversion Hst; subst. split; reflexivity.
  - destruct (Hempty model_name_only example_updates eq_refl) as (st & Hst & Hrows & _).
    exists st. split; [exact Hst|].
    vm_compute in Hst. inversion Hst; subst. reflexivity.
  - vm_compute. repeat split; reflexivity.
Defined.

(** ** Concurrent callers of [ensure_authenticated] *)

Import Async.

Lemma nth_error_update_eq {A} (a : A) :
  forall (l : list A) (i : nat) (x : A),
    nth_error l i = Some x -> nth_error (update i a l) i = Some a.
Proof.
  induction l as [|y l IH]; intros [|i] x H; cbn in *; try discriminate; eauto.
Qed.

Lemma nth_error_update_neq {A} (a : A) :
  forall (l : list A) (i j : nat),
    i <> j -> nth_error (update i a l) j = nth_error l j.
Proof.
  induction l as [|y l IH]; intros [|i] [|j] H; cbn; try reflexivity; try congruence.
  apply IH. congruence.
Qed.

Lemma nth_error_update {A} (a : A) (l : list A) (i j : nat) (t : A) :
  nth_error (update i a l) j = Some t ->
  (i = j /\ t = a) \/ (i <> j /\ nth_error l j = Some t).
Proof.
  intros H. destruct (Nat.eq_dec i j) as [->|Hne].
  - left. split; [reflexivity|].
    destruct (nth_error l j) as [x|] eqn:Hx.
    + rewrite (nth_error_update_eq a l j x Hx) in H. congruence.
    + exfalso. revert j H Hx. clear.
      induction l as [|y l IH]; intros [|j] H Hx; cbn in *; try discriminate; eauto.
  - right. split; [exact Hne|]. rewrite nth_error_update_neq in H; assumption.
Qed.

Lemma is_task_nth (t : task) (i : nat) (s : state) :
  is_task t i s = true -> nth_error (tasks s) i = Some t.
Proof.
  unfold is_task. destruct (nth_error (tasks s) i) as [[| | | |e]|]; destruct t;
    try discriminate; reflexivity.
Qed.


Lemma authenticate_clock (lib : http_lib) (w : world) :
  clock (snd (authenticate lib w))
  = clock w + match upstream w with [] => 0 | r :: _ => fst r end.
Proof.
  unfold authenticate. unfold_monad.
  destruct (upstream w) as [|[dt [msg|st reason body]] rest]; cbn; try lia.
  destruct (is_error_status lib st); cbn; [reflexivity|].
  destruct body as [data|e]; cbn; [|reflexivity].
  destruct (py_item data "access_token"); cbn; [|reflexivity].
  destruct (py_get data "expires_in" (JNum 3600)); cbn; [|reflexivity].
  destruct (timedelta_seconds _); reflexivity.
Qed.

(** Time does not run backwards. *)
Lemma step_clock (ev : event) (s s' : state) :
  durations_ok (env s) ->
  step ev s = Some s' ->
  clock (env s) <= clock (env s') /\ durations_ok (env s').
Proof.
  intros Hdur. unfold step, enter_critical.
  destruct ev as [i|i|i|dt].
  - destruct (is_task Start i s); [|discriminate].
    destruct (locked s), (waiters s);
      try destruct (is_token_valid _ _);
      intros H; inversion H; subst; cbn; split; try lia; assumption.
  - destruct (locked s); [discriminate|].
    destruct (waiters s) as [|j rest]; [discriminate|].
    destruct (Nat.eqb i j && is_task Waiting i s); [|discriminate].
    destruct (is_token_valid _ _);
      intros H; inversion H; subst; cbn; split; try lia; assumption.
  - destruct (is_task Authenticating i s); [|discriminate].
    destruct (authenticate Httpx (env s)) as [r w'] eqn:Hauth.
    intros H; inversion H; subst; cbn.
    pose proof (authenticate_clock Httpx (env s)) as Hclock.
    destruct (authenticate_inv Httpx (env s) _ _ Hauth) as (_ & Hup & _).
    rewrite Hauth in Hclock. cbn in Hclock.
    unfold durations_ok in *. rewrite Hup, Hclock.
    destruct (upstream (env s)) as [|r0 rest]; cbn.
    + split; [lia|constructor].
    + inversion Hdur; subst. split; [lia|assumption].
  - destruct (0 <=? dt) eqn:Hdt; [|discriminate].
    apply Z.leb_le in Hdt.
    intros H; inversion H; subst; cbn. split; [lia|assumption].
Qed.

Lemma run_clock (evs : list event) :
  forall s s',
    durations_ok (env s) ->
    run evs s = Some s' ->
    clock (env s) <= clock (env s').
Proof.
  induction evs as [|ev evs IH]; intros s s' Hdur; cbn.
  - intros H; inversion H; subst. lia.
  - destruct (step ev s) as [s1|] eqn:Hstep; [|discriminate].
    destruct (step_clock ev s s1 Hdur Hstep) as [Hle Hdur1].
    intros Hrun. specialize (IH s1 s' Hdur1 Hrun). lia.
Qed.

Lemma lock_inv_init (n : nat) (w : world) : lock_inv (init n w).
Proof.
  intros i Hi. cbn in Hi. apply nth_error_In in Hi.
  apply repeat_spec in Hi. discriminate.
Qed.

Lemma lock_inv_enter (i : nat) (s : state) (ws : list nat) :
  lock_inv s -> locked s = false -> lock_inv (enter_critical i s ws).
Proof.
  intros Hinv Hfree. unfold enter_critical.
  assert (forall j, nth_error (tasks s) j <> Some Authenticating) as Hnone.
  { intros j Hj. destruct (Hinv j Hj) as [Hl _]. congruence. }
  destruct (is_token_valid _ _); intros k Hk; cbn in *.
  - apply nth_error_update in Hk. destruct Hk as [[_ Hk]|[_ Hk]]; [discriminate|].
    exfalso. exact (Hnone k Hk).
  - split; [reflexivity|].
    assert (forall j, nth_error (update i Authenticating (tasks s)) j = Some Authenticating ->
                      j = i) as Honly.
    { intros j Hj. apply nth_error_update in Hj.
      destruct Hj as [[Hj _]|[_ Hj]]; [congruence|]. exfalso. exact (Hnone j Hj). }
    intros j Hj. rewrite (Honly j Hj), (Honly k Hk). reflexivity.
Qed.

Lemma lock_inv_step (ev : event) (s s' : state) :
  lock_inv s -> step ev s = Some s' -> lock_inv s'.
Proof.
  intros Hinv. unfold step.
  destruct ev as [i|i|i|dt].
  - destruct (is_task Start i s) eqn:Hstart; [|discriminate].
    assert (lock_inv {| env := env s; tasks := update i Waiting (tasks s);
                        locked := locked s; waiters := waiters s ++ [i];
                        auth_calls := auth_calls s |}) as Hwait.
    { intros k Hk. cbn in *.
      apply nth_error_update in Hk. destruct Hk as [[_ Hk]|[_ Hk]]; [discriminate|].
      destruct (Hinv k Hk) as [Hl Huniq]. split; [exact Hl|].
      intros j Hj. apply nth_error_update in Hj.
      destruct Hj as [[_ Hj]|[_ Hj]]; [discriminate|]. auto. }
    destruct (locked s) eqn:Hl; [|destruct (waiters s)];
      intros H; inversion H; subst; try exact Hwait.
    apply lock_inv_enter; assumption.
  - destruct (locked s) eqn:Hl; [discriminate|].
    destruct (waiters s) as [|j rest]; [discriminate|].
    destruct (Nat.eqb i j && is_task Waiting i s); [|discriminate].
    intros H; inversion H; subst. apply lock_inv_enter; assumption.
  - destruct (is_task Authenticating i s) eqn:Hi; [|discriminate].
    apply is_task_nth in Hi.
    destruct (authenticate Httpx (env s)) as [r w'].
    intros H; inversion H; subst. intros k Hk. cbn in *.
    apply nth_error_update in Hk. destruct Hk as [[_ Hk]|[Hne Hk]].
    + destruct r; discriminate.
    + destruct (Hinv i Hi) as [_ Huniq]. specialize (Huniq k Hk). congruence.
  - destruct (0 <=? dt); [|discriminate].
    intros H; inversion H; subst. exact Hinv.
Qed.

Lemma lock_inv_run (evs : list event) :
  forall s s', lock_inv s -> run evs s = Some s' -> lock_inv s'.
Proof.
  induction evs as [|ev evs IH]; intros s s' Hinv; cbn.
  - intros H; inversion H; subst. exact Hinv.
  - destruct (step ev s) as [s1|] eqn:Hstep; [|discriminate].
    apply IH. exact (lock_inv_step ev s s1 Hinv Hstep).
Qed.



Lemma valid_until_now (H : Z) (c : client) (t : Z) :
  valid_until H c -> t <= H -> is_token_valid c t = true.
Proof.
  intros (Htok & expiry & Hexp & Hlt) Ht.
  unfold is_token_valid. rewrite Hexp, Htok. cbn [negb]. apply Z.ltb_lt. lia.
Qed.



Lemma update_length {A} (a : A) :
  forall (l : list A) (i : nat), List.length (update i a l) = List.length l.
Proof.
  induction l as [|x l IH]; intros [|i]; cbn; auto.
Qed.

Lemma step_tasks_length (ev : event) (s s' : state) :
  step ev s = Some s' -> List.length (tasks s') = List.length (tasks s).
Proof.
  unfold step, enter_critical. destruct ev as [i|i|i|dt].
  - destruct (is_task Start i s); [|discriminate].
    destruct (locked s), (waiters s); try destruct (is_token_valid _ _);
      intros H; inversion H; subst; cbn; apply update_length.
  - destruct (locked s); [discriminate|].
    destruct (waiters s) as [|j rest]; [discriminate|].
    destruct (Nat.eqb i j && is_task Waiting i s); [|discriminate].
    destruct (is_token_valid _ _); intros H; inversion H; subst; cbn; apply update_length.
  - destruct (is_task Authenticating i s); [|discriminate].
    destruct (authenticate Httpx (env s)) as [r w'].
    intros H; inversion H; subst; cbn. apply update_length.
  - destruct (0 <=? dt); [|discriminate].
    intros H; inversion H; subst; reflexivity.
Qed.

Lemma run_tasks_length (evs : list event) :
  forall s s', run evs s = Some s' -> List.length (tasks s') = List.length (tasks s).
Proof.
  induction evs as [|ev evs IH]; intros s s'; cbn.
  - intros H; inversion H; subst. reflexivity.
  - destruct (step ev s) as [s1|] eqn:Hstep; [|discriminate].
    intros Hrun. rewrite (IH s1 s' Hrun). exact (step_tasks_length ev s s1 Hstep).
Qed.





(* ====================================================================== *)
(** * Further properties of the code *)

(** ** Token manager: failures *)

(** X1. A failure of [authenticate] that is a transport error, a status
    error, a JSON decoding error or a [KeyError] (a token object without
    [access_token]) comes before anything is stored: the client object is
    left as it was, and the token request is the one request sent. *)
Theorem early_failure_keeps_client :
  forall (lib : http_lib) (w : world) (e : exn) (w' : world),
    authenticate lib w = (Raise e, w') ->
    class_of e = CTransportError \/ class_of e = CHTTPStatusError
    \/ class_of e = CJSONDecodeError \/ class_of e = CKeyError ->
    self w' = self w
    /\ sent w' = sent w ++ [token_request (self w)].
Proof.
  intros lib w e w'. unfold authenticate. unfold_monad.
  destruct (upstream w) as [|[dt [msg|st reason body]] rest] eqn:Hup; cbn.
  - intros H; inversion H; subst. auto.
  - intros H; inversion H; subst. auto.
  - destruct (is_error_status lib st); cbn.
    + intros H; inversion H; subst. auto.
    + destruct body as [data|e0]; cbn.
      2:{ intros H; inversion H; subst. auto. }
      destruct (py_item data "access_token") as [tok|e0] eqn:Htok; cbn.
      2:{ intros H; inversion H; subst. auto. }
      destruct (py_get data "expires_in" (JNum 3600)) as [ex|e0] eqn:Hex; cbn.
      2:{ destruct data; cbn in Htok, Hex; discriminate. }
      destruct ex; cbn; try discriminate;
        intros H; inversion H; subst; cbn; intros [Hc|[Hc|[Hc|Hc]]]; discriminate.
Qed.

Lemma early_failure_keeps_client_witness :
  let w := world_with_token 0 (3600 * second)
             [(2, Response 200 "OK" (Ok (JObj [("token_type", JStr "Bearer")])))] in
  authenticate Requests w
  = (Raise (KeyError "access_token"),
     {| self := self w; clock := 2; upstream := [];
        sent := [token_request (self w)] |})
  /\ self (snd (authenticate Requests w)) = self w
  /\ sent (snd (authenticate Requests w)) = sent w ++ [token_request (self w)].
Proof.
  intros w. split; [reflexivity|].
  apply (early_failure_keeps_client Requests w (KeyError "access_token")
           (snd (authenticate Requests w))).
  - reflexivity.
  - right. right. right. reflexivity.
Defined.

(** X2. When [authenticate] is called while the stored expiry is still more
    than 60 seconds ahead and the upstream answers with a true [access_token]
    and an [expires_in] that is not a number, the call raises, yet the new
    token is stored and [is_token_valid] holds for it: the next requests go
    out with a token whose lifetime was never recorded. *)
Theorem failed_refresh_keeps_new_token :
  forall (lib : http_lib) (w : world) dt st reason kv rest tok ex e expiry,
    upstream w = (dt, Response st reason (Ok (JObj kv))) :: rest ->
    is_error_status lib st = false ->
    assoc "access_token" kv = Some tok ->
    truthy tok = true ->
    assoc "expires_in" kv = Some ex ->
    timedelta_seconds ex = Raise e ->
    token_expiry (self w) = Some expiry ->
    clock w + dt < expiry - 60 * second ->
    let w' := snd (authenticate lib w) in
    fst (authenticate lib w) = Raise e
    /\ access_token (self w') = tok
    /\ token_expiry (self w') = Some expiry
    /\ is_token_valid (self w') (clock w') = true.
Proof.
  intros lib w dt st reason kv rest tok ex e expiry Hup Hst Htok Htruthy Hex Hd Hexp Hlt.
  unfold authenticate. unfold_monad. rewrite Hup. cbn. rewrite Hst. cbn.
  rewrite Htok. cbn. rewrite Hex. cbn. rewrite Hd. cbn.
  repeat split; auto.
  unfold is_token_valid. cbn. rewrite Hexp, Htruthy. cbn [negb]. apply Z.ltb_lt. exact Hlt.
Qed.

Lemma failed_refresh_keeps_new_token_witness :
  let w := world_with_token 0 (3600 * second)
             [ok_reply 1 (JObj [("access_token", JStr "new"); ("expires_in", JNull)])] in
  let w' := snd (authenticate Requests w) in
  fst (authenticate Requests w)
    = Raise (TypeError "unsupported type for timedelta seconds component: NoneType")
  /\ access_token (self w') = JStr "new"
  /\ token_expiry (self w') = Some (3600 * second)
  /\ is_token_valid (self w') (clock w') = true.
Proof.
  intros w w'.
  apply (failed_refresh_keeps_new_token Requests w 1 200 "OK"
           [("access_token", JStr "new"); ("expires_in", JNull)] [] (JStr "new") JNull
           (TypeError "unsupported type for timedelta seconds component: NoneType")
           (3600 * second)); try reflexivity.
Defined.

(** ** Page getters: the requests they send *)

(** X3. A page getter sends at most two requests. With a valid token it sends
    the page request alone, carrying the stored token as bearer. Otherwise
    it sends the token request first; when that exchange fails, the failure
    is the outcome and no page request is sent; when it succeeds, the page
    request follows with the fresh token as bearer. *)
Theorem page_getter_requests :
  forall (lib : http_lib) (path : string) (anchor : json) (limit : Z) (w : world),
    let out := get_page lib path anchor limit w in
    (is_token_valid (self w) (clock w) = true
     /\ sent (snd out)
        = sent w ++ [page_request (self w) path (Bearer (access_token (self w))) anchor limit])
    \/ (is_token_valid (self w) (clock w) = false
        /\ exists e w1,
             authenticate lib w = (Raise e, w1)
             /\ out = (Raise e, w1)
             /\ sent w1 = sent w ++ [token_request (self w)])
    \/ (is_token_valid (self w) (clock w) = false
        /\ exists data w1,
             authenticate lib w = (Ok data, w1)
             /\ sent (snd out)
                = sent w ++ [token_request (self w);
                             page_request (self w) path (Bearer (access_token (self w1)))
                                          anchor limit]).
Proof.
  intros lib path anchor limit w. cbv zeta.
  unfold get_page, get_headers, ensure_authenticated. unfold_monad.
  destruct (is_token_valid (self w) (clock w)).
  - left. split; [reflexivity|]. cbn.
    destruct (upstream w) as [|[dt [msg|st reason body]] rest]; cbn;
      [| |destruct (is_error_status lib st); cbn; [|destruct body; cbn]]; reflexivity.
  - right.
    destruct (authenticate lib w) as [r w1] eqn:Hauth.
    destruct (authenticate_inv lib w _ _ Hauth) as (Hsent & _).
    destruct r as [data|e]; cbn.
    + right. split; [reflexivity|]. exists data, w1. split; [reflexivity|].
      destruct (upstream w1) as [|[dt [msg|st reason body]] rest]; cbn;
        [| |destruct (is_error_status lib st); cbn; [|destruct body; cbn]];
        rewrite Hsent, <- app_assoc; reflexivity.
    + left. split; [reflexivity|]. exists e, w1. auto.
Qed.

Lemma authorized_get_sent (lib : http_lib) (url : string) (params : list (string * json))
    (w : world) :
  exists new,
    sent (snd (authorized_get lib url params w)) = sent w ++ new
    /\ Forall (credentials_confined (self w)) new.
Proof.
  assert (forall tok, credentials_confined (self w)
                        {| req_method := GET; req_url := url; req_auth := Bearer tok;
                           req_params := params; req_data := [] |}) as Hget
    by (intros; reflexivity).
  assert (credentials_confined (self w) (token_request (self w))) as Htoken
    by reflexivity.
  unfold authorized_get, get_headers, ensure_authenticated. unfold_monad.
  destruct (is_token_valid (self w) (clock w)).
  - cbn.
    destruct (upstream w) as [|[dt [msg|st reason body]] rest]; cbn;
      [| |destruct (is_error_status lib st); cbn; [|destruct body; cbn]];
      (eexists; split; [reflexivity|]; apply Forall_cons; [apply Hget|apply Forall_nil]).
  - destruct (authenticate lib w) as [r w1] eqn:Hauth.
    destruct (authenticate_inv lib w _ _ Hauth) as (Hsent & _).
    destruct r as [data|e]; cbn.
    + destruct (upstream w1) as [|[dt [msg|st reason body]] rest]; cbn;
        [| |destruct (is_error_status lib st); cbn; [|destruct body; cbn]];
        rewrite Hsent, <- app_assoc;
        (eexists; split; [reflexivity|];
         apply Forall_cons; [apply Htoken|apply Forall_cons; [apply Hget|apply Forall_nil]]).
    + rewrite Hsent. eexists; split; [reflexivity|].
      apply Forall_cons; [apply Htoken|apply Forall_nil].
Qed.

(** X4. Whatever the upstream answers, the page getters, the lookups by id
    and [get_latest_database_versions] send the client id and secret in the
    token request only (a [POST] to the token endpoint); every other request
    they send is a [GET] carrying a bearer. *)
Theorem credentials_stay_in_token_request :
  forall (lib : http_lib) (w : world),
    let confined (m : M json) :=
      exists new,
        sent (snd (m w)) = sent w ++ new /\ Forall (credentials_confined (self w)) new in
    (forall path anchor limit, confined (get_page lib path anchor limit))
    /\ (forall path device_id, confined (get_by_id lib path device_id))
    /\ (forall database_ids, confined (get_latest_database_versions lib database_ids)).
Proof.
  intros lib w. cbv zeta. split; [|split].
  - intros path anchor limit.
    exact (authorized_get_sent lib (api_base_url (self w) ++ path)%string
             (page_params anchor limit) w).
  - intros path device_id.
    exact (authorized_get_sent lib (api_base_url (self w) ++ path ++ device_id)%string [] w).
  - intros database_ids.
    exact (authorized_get_sent lib
             (api_base_url (self w) ++ "/databases/v1/latest-versions")%string
             [("id", database_ids)] w).
Qed.

(** ** Drain: failures and the missing bound *)

Lemma drain_fetched (fetch_page : json -> M json) :
  forall a w ps a' w',
    fetched fetch_page a w ps a' w' ->
    forall fuel all,
      drain fetch_page (List.length ps + fuel) all a w
      = drain fetch_page fuel (all ++ List.concat (map items_of ps)) a' w'.
Proof.
  induction 1 as [a w|a w p w1 ps a' w' Hfetch Hok Hnext _ IH]; intros fuel all.
  - cbn. rewrite app_nil_r. reflexivity.
  - destruct (page_ok_views _ Hok) as [Hitems Hnx].
    cbn [List.length Nat.add drain]. unfold drain_step. unfold_monad.
    rewrite Hfetch, Hitems. cbn. rewrite Hnx. cbn. rewrite Hnext. cbn.
    rewrite IH. cbn [map List.concat]. rewrite app_assoc. reflexivity.
Qed.

(** X5. A drain has no partial result: when, after any number of pages that
    each carried a cursor, a page fetch raises, the drain raises the same
    exception and the items of the pages already fetched are lost. *)
Theorem drain_failure_loses_pages :
  forall (fetch_page : json -> M json) (a : json) (w : world) (ps : list json)
         (a' : json) (w' : world) (e : exn) (w'' : world) (fuel : nat) (all : list json),
    fetched fetch_page a w ps a' w' ->
    fetch_page a' w' = (Raise e, w'') ->
    (List.length ps < fuel)%nat ->
    drain fetch_page fuel all a w = Some (Raise e, w'').
Proof.
  intros fetch_page a w ps a' w' e w'' fuel all Hps Hfail Hfuel.
  replace fuel with (List.length ps + S (fuel - S (List.length ps)))%nat by lia.
  rewrite (drain_fetched fetch_page a w ps a' w' Hps).
  cbn [drain]. unfold drain_step. unfold_monad. rewrite Hfail. reflexivity.
Qed.

Lemma drain_failure_loses_pages_witness :
  let w := world_with_token 0 (3600 * second)
             [ok_reply 1 (page [JStr "a"] (JStr "cursor1"));
              (1, Response 503 "Service Unavailable" (Ok (JObj [])))] in
  option_map fst (get_all_devices Httpx 4 w)
  = Some (Raise (HTTPStatusError 503 "Service Unavailable"
                   "https://api.connect.withsecure.com/devices/v1")).
Proof.
  intro w. unfold get_all_devices.
  rewrite (drain_failure_loses_pages (fun anchor => get_devices Httpx anchor 100)
             JNull w [page [JStr "a"] (JStr "cursor1")] (JStr "cursor1")
             (snd (get_devices Httpx JNull 100 w))
             (HTTPStatusError 503 "Service Unavailable"
                "https://api.connect.withsecure.com/devices/v1")
             (snd (get_devices Httpx (JStr "cursor1") 100
                     (snd (get_devices Httpx JNull 100 w))))
             4 []).
  - reflexivity.
  - apply (fetched_more (fun anchor => get_devices Httpx anchor 100) JNull w
             (page [JStr "a"] (JStr "cursor1")) (snd (get_devices Httpx JNull 100 w))
             [] (JStr "cursor1") (snd (get_devices Httpx JNull 100 w)));
      [vm_compute; reflexivity|reflexivity|reflexivity|apply fetched_none].
  - reflexivity.
  - cbn. lia.
Defined.

(** X6. The drain has no bound of its own: in front of a page getter that
    answers every request with a page carrying a cursor, the loop is still
    running after any number of turns. *)
Theorem drain_never_ends_on_endless_cursor :
  forall (fetch_page : json -> M json),
    (forall a w, exists p w',
        fetch_page a w = (Ok p, w') /\ page_ok p = true /\ truthy (next_of p) = true) ->
    forall (fuel : nat) (all : list json) (a : json) (w : world),
      drain fetch_page fuel all a w = None.
Proof.
  intros fetch_page Hendless.
  induction fuel as [|fuel IH]; intros all a w; [reflexivity|].
  destruct (Hendless a w) as (p & w' & Hfetch & Hok & Hnext).
  destruct (page_ok_views _ Hok) as [Hitems Hnx].
  cbn [drain]. unfold drain_step. unfold_monad.
  rewrite Hfetch, Hitems. cbn. rewrite Hnx. cbn. rewrite Hnext. cbn. apply IH.
Qed.

Lemma drain_never_ends_on_endless_cursor_witness :
  drain (fun _ w => (Ok (page [JStr "a"] (JStr "again")), w)) 1000 [] JNull (world_at 0 [])
  = None.
Proof.
  apply (drain_never_ends_on_endless_cursor
           (fun _ w => (Ok (page [JStr "a"] (JStr "again")), w))).
  intros a w. exists (page [JStr "a"] (JStr "again")), w. repeat split; reflexivity.
Defined.

(** X7. The drain accepts a page without [items] but not a page whose
    [items] is [null], a boolean or a number: [list.extend] raises
    [TypeError] and the drain with it, whatever it has gathered before. A
    page body that is not an object makes it raise [AttributeError]. *)
Theorem drain_rejects_malformed_page :
  forall (fetch_page : json -> M json) (a : json) (w : world) (body : json) (w' : world)
         (fuel : nat) (all : list json),
    fetch_page a w = (Ok body, w') ->
    (forall kv v,
        body = JObj kv -> assoc "items" kv = Some v -> not_iterable v = true ->
        drain fetch_page (S fuel) all a w
        = Some (Raise (TypeError ("'" ++ type_name v ++ "' object is not iterable")%string), w'))
    /\ (is_object body = false ->
        drain fetch_page (S fuel) all a w
        = Some (Raise (AttributeError
                         ("'" ++ type_name body ++ "' object has no attribute 'get'")%string),
                w')).
Proof.
  intros fetch_page a w body w' fuel all Hfetch. split.
  - intros kv v -> Hitems Hbad.
    cbn [drain]. unfold drain_step. unfold_monad. rewrite Hfetch. cbn. rewrite Hitems.
    destruct v; try discriminate; reflexivity.
  - intros Hobj.
    cbn [drain]. unfold drain_step. unfold_monad. rewrite Hfetch.
    destruct body; try discriminate; reflexivity.
Qed.

Lemma drain_rejects_malformed_page_witness :
  let w := world_with_token 0 (3600 * second)
             [ok_reply 1 (JObj [("items", JNull)])] in
  option_map fst (get_all_devices Requests 1 w)
  = Some (Raise (TypeError "'NoneType' object is not iterable")).
Proof.
  intro w. unfold get_all_devices.
  destruct (drain_rejects_malformed_page (fun anchor => get_devices Requests anchor 100)
              JNull w (JObj [("items", JNull)])
              (snd (get_devices Requests JNull 100 w)) 0 [] eq_refl) as [Hnull _].
  rewrite (Hnull [("items", JNull)] JNull eq_refl eq_refl eq_refl). reflexivity.
Defined.

(** ** Statistics: what the counts always add up to *)

Lemma fold_result_inv {A St} (f : St -> A -> result St) (P : St -> nat -> Prop) :
  (forall s a s' n, P s n -> f s a = Ok s' -> P s' (S n)) ->
  forall l s s' n, P s n -> fold_result f l s = Ok s' -> P s' (List.length l + n)%nat.
Proof.
  intros Hstep. induction l as [|a l IH]; intros s s' n Hs; cbn.
  - intros H; inversion H; subst. exact Hs.
  - destruct (f s a) as [s1|e] eqn:Hf; cbn; [|discriminate].
    intros Hfold. replace (S (List.length l + n)) with (List.length l + S n)%nat by lia.
    apply (IH s1 s' (S n)); [|exact Hfold]. exact (Hstep s a s1 n Hs Hf).
Qed.

Lemma dict_set_total (k : json) (d : pydict Z) :
  dict_total (dict_set k (match dict_lookup k d with Some n => n | None => 0 end + 1) d)
  = dict_total d + 1.
Proof.
  unfold dict_total.
  induction d as [|[k' v'] d IH]; cbn.
  - lia.
  - destruct (key_eqb k k'); cbn; lia.
Qed.

Lemma dict_set_distinct {V} (k : json) (v : V) (d : pydict V) :
  dict_distinct d -> dict_distinct (dict_set k v d).
Proof.
  induction d as [|[k' v'] d IH]; cbn.
  - auto.
  - intros [Hk' Hd]. destruct (key_eqb k k') eqn:Hkk'; cbn.
    + auto.
    + split; [|auto]. rewrite dict_lookup_set, key_eqb_sym, Hkk'. exact Hk'.
Qed.

Lemma dict_set_positive (k : json) (d : pydict Z) :
  Forall (fun kv => 1 <= snd kv) d ->
  Forall (fun kv => 1 <= snd kv)
         (dict_set k (match dict_lookup k d with Some n => n | None => 0 end + 1) d).
Proof.
  induction d as [|[k' v'] d IH]; cbn; intros Hd.
  - repeat constructor. cbn. lia.
  - inversion Hd as [|? ? Hv' Hd']; subst. cbn in Hv'.
    destruct (key_eqb k k'); constructor; cbn; auto. lia.
Qed.

Lemma count_platform_counted (d : pydict Z) (k : json) (d' : pydict Z) (n : nat) :
  counted d n -> count_platform d k = Ok d' -> counted d' (S n).
Proof.
  intros (Htot & Hdist & Hpos). unfold count_platform, dict_find.
  destruct (hashable k); cbn; [|discriminate].
  intros H; inversion H; subst.
  split; [|split].
  - rewrite dict_set_total, Htot. lia.
  - apply dict_set_distinct. exact Hdist.
  - apply dict_set_positive. exact Hpos.
Qed.

Lemma platform_counts_counted (devices : list json) (counts : pydict Z) :
  platform_counts devices = Ok counts -> counted counts (List.length devices).
Proof.
  unfold platform_counts. intros H.
  replace (List.length devices) with (List.length devices + 0)%nat by lia.
  refine (fold_result_inv _ counted _ devices [] counts 0%nat _ H).
  - intros s a s' n Hs Hf. cbn beta in Hf.
    destruct (py_get a "platform" (JStr "Unknown")) as [pf|e]; cbn in Hf; [|discriminate].
    exact (count_platform_counted s pf s' n Hs Hf).
  - repeat split; constructor.
Qed.

Lemma count_online_bounds (devices : list json) (n : Z) :
  count_online devices = Ok n -> 0 <= n <= Z.of_nat (List.length devices).
Proof.
  unfold count_online. intros H.
  assert (0 <= n <= 0 + Z.of_nat (List.length devices + 0)); [|lia].
  refine (fold_result_inv _ (fun m k => 0 <= m <= 0 + Z.of_nat k) _ devices 0 n 0%nat _ H);
    [|lia].
  intros s a s' k Hs Hf. cbn beta in Hf.
  destruct (py_get a "online" (JBool false)) as [v|e]; cbn in Hf; [|discriminate].
  inversion Hf; subst. destruct (truthy v); lia.
Qed.

Lemma chars_length (s : string) : List.length (chars s) = String.length s.
Proof. induction s as [|c s IH]; cbn; congruence. Qed.

(** [len(x)] is the number of elements the iteration of [x] gives, and a
    true container has at least one. *)
Lemma len_of_titles (x : json) (n : Z) (titles : list json) :
  py_len x = Ok n ->
  pending_titles x = Ok titles ->
  n = Z.of_nat (List.length titles) /\ (truthy x = true -> 1 <= n) /\ (truthy x = false -> n = 0).
Proof.
  unfold pending_titles.
  destruct x as [| | |s|l|kv]; cbn; try discriminate; intros Hn; inversion Hn; subst;
    intros Ht; apply map_result_length in Ht; rewrite Ht.
  - rewrite chars_length. split; [reflexivity|].
    destruct s; cbn; split; try discriminate; intros; lia.
  - split; [reflexivity|]. destruct l; cbn; split; try discriminate; intros; lia.
  - rewrite length_map. split; [reflexivity|].
    destruct kv; cbn; split; try discriminate; intros; lia.
Qed.

Lemma as_list_length {A} (f : json -> option A) :
  forall l r, as_list f l = Some r -> List.length r = List.length l.
Proof.
  induction l as [|v l IH]; cbn; intros r.
  - intros H; inversion H; reflexivity.
  - destruct (f v); [|discriminate].
    destruct (as_list f l) as [r'|]; [|discriminate].
    intros H; inversion H; subst. cbn. rewrite (IH r' eq_refl). reflexivity.
Qed.

(** A detail record that was built counts the titles it was given. *)
Lemma new_detail_consistent (text : string -> list (string * json) -> string)
    (id name pf : json) (n : Z) (titles : list json) (detail : DeviceWithPendingUpdates) :
  new_DeviceWithPendingUpdates text id name pf n titles = Ok detail ->
  pending_updates_count detail = n
  /\ List.length (pending_updates detail) = List.length titles.
Proof.
  unfold new_DeviceWithPendingUpdates.
  destruct (as_str id); [|discriminate].
  destruct (as_optional_str name); [|discriminate].
  destruct (as_optional_str pf); [|discriminate].
  destruct (as_list as_str titles) as [ts|] eqn:Hts; [|discriminate].
  intros H; inversion H; subst; clear H. cbn.
  split; [reflexivity|]. exact (as_list_length as_str titles ts Hts).
Qed.

Lemma visit_device_visited (text : string -> list (string * json) -> string)
    (by_device : pydict json) acc device acc' n :
  visited acc n -> visit_device text by_device acc device = Ok acc' -> visited acc' (S n).
Proof.
  destruct acc as [c details]. intros (Hsum & Hup & Hno & Hpend & Hdetails).
  unfold visit_device.
  destruct (py_get device "id" JNull) as [id|e]; cbn [rbind]; [|discriminate].
  destruct (dict_find id by_device) as [[info|]|e]; cbn [rbind]; [| |discriminate].
  - destruct (py_get info "pendingSoftwareUpdates" (JArr [])) as [pend|e];
      cbn [rbind]; [|discriminate].
    destruct (truthy pend) eqn:Htruthy.
    + destruct (py_get device "name" JNull) as [name|e]; cbn [rbind]; [|discriminate].
      destruct (py_get device "platform" JNull) as [pf|e]; cbn [rbind]; [|discriminate].
      destruct (py_len pend) as [k|e] eqn:Hlen; cbn [rbind]; [|discriminate].
      destruct (pending_titles pend) as [titles|e] eqn:Htitles; cbn [rbind]; [|discriminate].
      destruct (new_DeviceWithPendingUpdates text id name pf k titles) as [detail|e] eqn:Hnew;
        cbn [rbind]; [|discriminate].
      destruct (len_of_titles pend k titles Hlen Htitles) as (Hk & Hone & _).
      destruct (new_detail_consistent text _ _ _ _ _ _ Hnew) as [Hcount Hlist].
      intros H; inversion H; subst; clear H. cbn.
      repeat split; try lia.
      * rewrite length_app. cbn. lia.
      * apply Forall_app. split; [exact Hdetails|].
        constructor; [|constructor]. split.
        -- rewrite Hcount, Hlist. reflexivity.
        -- rewrite Hcount. auto.
    + intros H; inversion H; subst; clear H. cbn. repeat split; auto; lia.
  - intros H; inversion H; subst; clear H. cbn. repeat split; auto; lia.
Qed.

(** The platform buckets that were built are the platform counts. *)
Lemma platform_stats_buckets (text : string -> list (string * json) -> string)
    (total : Z) :
  forall (pcs : pydict Z) (pstats : list PlatformStats),
    map_result (fun pc => new_PlatformStats text (fst pc) (snd pc)
                            (percentage (snd pc) total)) pcs = Ok pstats ->
    map (fun b => (JStr (ps_platform b), ps_count b)) pstats = pcs.
Proof.
  intros pcs pstats H. apply map_result_Forall2 in H.
  induction H as [|[k v] b pcs pstats Hb _ IH]; cbn [map]; [reflexivity|].
  rewrite IH. unfold new_PlatformStats in Hb. cbn [fst snd] in Hb.
  destruct k; try discriminate. cbn in Hb. inversion Hb; subst. reflexivity.
Qed.

Lemma compute_statistics_parts (text : string -> list (string * json) -> string)
    (devices updates : list json) (st : StatisticsResponse) :
  compute_statistics text devices updates = Ok st ->
  exists online pcs counts,
    count_online devices = Ok online
    /\ platform_counts devices = Ok pcs
    /\ platform_buckets st = pcs
    /\ visited (counts, devices_with_pending_details st) (List.length devices)
    /\ total_devices st = Z.of_nat (List.length devices)
    /\ devices_online st = online
    /\ devices_offline st = Z.of_nat (List.length devices) - online
    /\ devices_up_to_date st = up_to_date counts
    /\ devices_with_pending_updates st = pending counts
    /\ map us_count (devices_by_status st)
       = [up_to_date counts; pending counts; no_info counts].
Proof.
  unfold compute_statistics.
  destruct (updates_by_device updates) as [bd|e]; cbn [rbind]; [|discriminate].
  destruct (count_online devices) as [online|e]; cbn [rbind]; [|discriminate].
  destruct (platform_counts devices) as [pcs|e]; cbn [rbind]; [|discriminate].
  destruct (map_result _ pcs) as [pstats|e] eqn:Hpstats; cbn [rbind]; [|discriminate].
  destruct (fold_result (visit_device text bd) devices _) as [[counts details]|e] eqn:Hfold;
    cbn [rbind]; [|discriminate].
  intros H; inversion H; subst; clear H.
  exists online, pcs, counts.
  split; [reflexivity|]. split; [reflexivity|].
  split; [exact (platform_stats_buckets text _ pcs pstats Hpstats)|].
  split; [|repeat split; reflexivity].
  cbn [devices_with_pending_details].
  replace (List.length devices) with (List.length devices + 0)%nat by lia.
  refine (fold_result_inv _ visited _ devices _ _ 0%nat _ Hfold).
  - intros s a s' n. apply visit_device_visited.
  - cbn. repeat split; try lia. constructor.
Qed.

(** X9. Whenever the statistics are computed, their counts add up: online
    plus offline devices is the number of devices, the platform buckets have
    pairwise different platforms, each at least one device and together all
    devices, and the three status buckets together hold all devices too, also
    for malformed records that do not make the computation fail. *)
Theorem statistics_counts_add_up :
  forall (text : string -> list (string * json) -> string)
         (devices updates : list json) (st : StatisticsResponse),
    compute_statistics text devices updates = Ok st ->
    total_devices st = Z.of_nat (List.length devices)
    /\ devices_online st + devices_offline st = total_devices st
    /\ 0 <= devices_online st <= total_devices st
    /\ dict_total (platform_buckets st) = total_devices st
    /\ dict_distinct (platform_buckets st)
    /\ Forall (fun b => 1 <= ps_count b) (devices_by_platform st)
    /\ sum_counts (map us_count (devices_by_status st)) = total_devices st
    /\ Forall (fun b => 0 <= us_count b) (devices_by_status st).
Proof.
  intros text devices updates st Hst.
  destruct (compute_statistics_parts text devices updates st Hst)
    as (online & pcs & counts & Honline & Hpcs & Hbuckets & Hvisited
        & Htotal & Hon & Hoff & _ & _ & Hstatus).
  pose proof (count_online_bounds devices online Honline) as Hbounds.
  destruct (platform_counts_counted devices pcs Hpcs) as (Htot & Hdist & Hpos).
  destruct Hvisited as (Hsum & Hup & Hno & Hpend & _).
  rewrite Hbuckets, Htotal, Hon, Hoff, Hstatus.
  split; [reflexivity|]. split; [lia|]. split; [lia|].
  split; [exact Htot|]. split; [exact Hdist|].
  split; [|split].
  - rewrite <- Hbuckets in Hpos. rewrite Forall_forall in Hpos.
    apply Forall_forall. intros b Hb.
    apply (Hpos (JStr (ps_platform b), ps_count b)).
    unfold platform_buckets. apply in_map_iff. exists b. auto.
  - cbn. lia.
  - assert (Forall (fun n => 0 <= n) (map us_count (devices_by_status st))) as Hnn.
    { rewrite Hstatus. repeat constructor; lia. }
    rewrite Forall_forall in Hnn.
    apply Forall_forall. intros b Hb. apply Hnn. apply in_map. exact Hb.
Qed.

Lemma statistics_counts_add_up_witness :
  exists st,
    compute_statistics model_name_only example_devices example_updates = Ok st
    /\ devices_online st + devices_offline st = 3
    /\ dict_total (platform_buckets st) = 3
    /\ sum_counts (map us_count (devices_by_status st)) = 3.
Proof.
  destruct (compute_statistics model_name_only example_devices example_updates)
    as [st|e] eqn:Hst; [|vm_compute in Hst; discriminate].
  exists st. split; [reflexivity|].
  destruct (statistics_counts_add_up model_name_only example_devices example_updates st Hst)
    as (Htot & Hon & _ & Hpl & _ & _ & Hstat & _).
  rewrite Hon, Hpl, Hstat, Htot. repeat split; reflexivity.
Defined.

(** X10. In the statistics there are as many detail records as devices
    counted pending, and each record counts exactly the titles it lists, at
    least one. *)
Theorem pending_details_match_counts :
  forall (text : string -> list (string * json) -> string)
         (devices updates : list json) (st : StatisticsResponse),
    compute_statistics text devices updates = Ok st ->
    Z.of_nat (List.length (devices_with_pending_details st)) = devices_with_pending_updates st
    /\ Forall detail_consistent (devices_with_pending_details st).
Proof.
  intros text devices updates st Hst.
  destruct (compute_statistics_parts text devices updates st Hst)
    as (online & pcs & counts & _ & _ & _ & Hvisited & _ & _ & _ & _ & Hp & _).
  destruct Hvisited as (_ & _ & _ & Hpend & Hdetails).
  rewrite Hp. split; [symmetry; exact Hpend|exact Hdetails].
Qed.

Lemma pending_details_match_counts_witness :
  exists st,
    compute_statistics model_name_only example_devices example_updates = Ok st
    /\ Z.of_nat (List.length (devices_with_pending_details st)) = 1
    /\ Forall detail_consistent (devices_with_pending_details st).
Proof.
  destruct (compute_statistics model_name_only example_devices example_updates)
    as [st|e] eqn:Hst; [|vm_compute in Hst; discriminate].
  exists st. split; [reflexivity|].
  destruct (pending_details_match_counts model_name_only example_devices example_updates
              st Hst) as [Hn Hd].
  split; [|exact Hd]. rewrite Hn.
  vm_compute in Hst. inversion Hst; subst. reflexivity.
Defined.

Lemma analyze_device_analysed (by_device : pydict json) (stats : analysis) (device : json)
    (stats' : analysis) (n : nat) :
  analysed stats n ->
  analyze_device by_device stats device = Ok stats' ->
  analysed stats' (S n) /\ a_total_devices stats' = a_total_devices stats.
Proof.
  intros (Hwith & Hup & Hpend & Hle & Hlen & Hdetails & Hplat & Hstat).
  unfold analyze_device.
  destruct (py_get device "id" JNull) as [id|e]; cbn [rbind]; [|discriminate].
  destruct (py_get device "name" (JStr "Unknown")) as [name|e]; cbn [rbind]; [|discriminate].
  destruct (py_get device "platform" (JStr "Unknown")) as [pf|e]; cbn [rbind]; [|discriminate].
  destruct (incr_key pf (a_devices_by_platform stats)) as [by_platform|e] eqn:Hpf;
    cbn [rbind]; [|discriminate].
  pose proof (count_platform_counted _ _ _ _ Hplat Hpf) as Hplat'.
  destruct (dict_find id by_device) as [[info|]|e]; cbn [rbind]; [| |discriminate].
  - destruct (py_get info "pendingSoftwareUpdates" (JArr [])) as [pend|e];
      cbn [rbind]; [|discriminate].
    destruct (incr_key _ (a_devices_by_status stats)) as [by_status|e] eqn:Hst;
      cbn [rbind]; [|discriminate].
    pose proof (count_platform_counted _ _ _ _ Hstat Hst) as Hstat'.
    destruct (py_len pend) as [k|e] eqn:Hk; cbn [rbind]; [|discriminate].
    destruct (pending_titles pend) as [names|e] eqn:Hnames; cbn [rbind]; [|discriminate].
    destruct (len_of_titles pend k names Hk Hnames) as (Hkn & Hone & Hzero).
    intros H; inversion H; subst; clear H.
    split; [|reflexivity].
    unfold analysed.
    cbn [a_devices_with_updates a_devices_up_to_date a_devices_with_pending_updates
         a_devices_by_status a_devices_by_platform a_update_details].
    split; [destruct (truthy pend); lia|].
    split; [destruct (truthy pend); lia|].
    split; [destruct (truthy pend); lia|].
    split; [lia|].
    split; [rewrite length_app; cbn; lia|].
    split; [|split; assumption].
    apply Forall_app. split; [exact Hdetails|].
    constructor; [|constructor]. split; cbn; [reflexivity|].
    destruct (truthy pend); [left|right]; auto.
  - destruct (incr_key _ (a_devices_by_status stats)) as [by_status|e] eqn:Hst;
      cbn [rbind]; [|discriminate].
    pose proof (count_platform_counted _ _ _ _ Hstat Hst) as Hstat'.
    intros H; inversion H; subst; clear H.
    split; [|reflexivity].
    unfold analysed.
    cbn [a_devices_with_updates a_devices_up_to_date a_devices_with_pending_updates
         a_devices_by_status a_devices_by_platform a_update_details].
    split; [lia|]. split; [lia|]. split; [lia|]. split; [lia|].
    split; [lia|]. split; [exact Hdetails|]. split; assumption.
Qed.

(** X11. Whenever [analyze_update_status] returns, its counts add up: the
    devices with update information are those up to date plus those
    pending, there is one detail record per such device, each detail counts
    the titles it lists and is labelled pending exactly when it lists one or
    more, and both the platform counts and the status counts add up to the
    number of devices. *)
Theorem analysis_counts_add_up :
  forall (devices updates : list json) (stats : analysis),
    analyze_update_status devices updates = Ok stats ->
    a_total_devices stats = Z.of_nat (List.length devices)
    /\ a_devices_with_updates stats
       = a_devices_up_to_date stats + a_devices_with_pending_updates stats
    /\ a_devices_with_updates stats <= a_total_devices stats
    /\ Z.of_nat (List.length (a_update_details stats)) = a_devices_with_updates stats
    /\ Forall update_detail_consistent (a_update_details stats)
    /\ dict_total (a_devices_by_platform stats) = a_total_devices stats
    /\ dict_total (a_devices_by_status stats) = a_total_devices stats.
Proof.
  intros devices updates stats. unfold analyze_update_status.
  destruct (updates_by_device updates) as [bd|e]; cbn [rbind]; [|discriminate].
  intros Hfold.
  pose (P := fun (s : analysis) (n : nat) =>
               analysed s n /\ a_total_devices s = Z.of_nat (List.length devices)).
  assert (P stats (List.length devices + 0)%nat) as [Han Htot].
  { refine (fold_result_inv _ P _ devices _ stats 0%nat _ Hfold).
    - intros s a s' n [Hs Ht] Hstep.
      destruct (analyze_device_analysed bd s a s' n Hs Hstep) as [Hs' Ht'].
      split; [exact Hs'|congruence].
    - split; [|reflexivity]. unfold analysed, counted. cbn.
      repeat split; try lia; try constructor. }
  rewrite Nat.add_0_r in Han.
  destruct Han as (Hwith & _ & _ & Hle & Hlen & Hdetails & (Hplat & _) & (Hstat & _)).
  rewrite Htot. repeat split; auto.
Qed.

Lemma analysis_counts_add_up_witness :
  exists stats,
    analyze_update_status example_devices example_updates = Ok stats
    /\ a_devices_with_updates stats = 2
    /\ Z.of_nat (List.length (a_update_details stats)) = 2
    /\ dict_total (a_devices_by_status stats) = 3.
Proof.
  destruct (analyze_update_status example_devices example_updates) as [stats|e] eqn:Hst;
    [|vm_compute in Hst; discriminate].
  exists stats. split; [reflexivity|].
  destruct (analysis_counts_add_up example_devices example_updates stats Hst)
    as (Htot & _ & _ & Hlen & _ & _ & Hstat).
  rewrite Hlen, Hstat, Htot.
  vm_compute in Hst. inversion Hst; subst. repeat split; reflexivity.
Defined.

(** ** Drain over any page getter *)

(** X8. The drain only relies on what its page getter returns: after pages
    that each carried a cursor, fetched one after the other with the cursor
    of the page before, a page without cursor ends it with all the items in
    order. So a token that lapses between two pages is renewed by the getter
    and the drain goes on. *)
Theorem drain_over_any_getter :
  forall (fetch_page : json -> M json) (a : json) (w : world) (ps : list json)
         (a' : json) (w' : world) (last : json) (w'' : world) (fuel : nat) (all : list json),
    fetched fetch_page a w ps a' w' ->
    fetch_page a' w' = (Ok last, w'') ->
    page_ok last = true ->
    truthy (next_of last) = false ->
    (List.length ps < fuel)%nat ->
    drain fetch_page fuel all a w
    = Some (Ok (all ++ List.concat (map items_of ps) ++ items_of last), w'').
Proof.
  intros fetch_page a w ps a' w' last w'' fuel all Hps Hlast Hok Hend Hfuel.
  replace fuel with (List.length ps + S (fuel - S (List.length ps)))%nat by lia.
  rewrite (drain_fetched fetch_page a w ps a' w' Hps).
  destruct (page_ok_views _ Hok) as [Hitems Hnx].
  cbn [drain]. unfold drain_step. unfold_monad.
  rewrite Hlast, Hitems. cbn. rewrite Hnx. cbn. rewrite Hend. cbn.
  rewrite <- app_assoc. reflexivity.
Qed.

(** A token valid for two more seconds, a first page that takes five: the
    second page request is preceded by a token request. *)
Lemma drain_over_any_getter_witness :
  let w := world_with_token 0 (62 * second)
             [ok_reply (5 * second) (page [JStr "a"] (JStr "cursor1"));
              ok_reply 1 (token_body 3600);
              ok_reply 1 (page [JStr "b"] JNull)] in
  option_map (fun r => (fst r, map req_method (sent (snd r)), page_anchors_sent (snd r)))
             (get_all_devices Httpx 2 w)
  = Some (Ok [JStr "a"; JStr "b"], [GET; POST; GET], [None; Some (JStr "cursor1")]).
Proof.
  intro w. unfold get_all_devices.
  rewrite (drain_over_any_getter (fun anchor => get_devices Httpx anchor 100)
             JNull w [page [JStr "a"] (JStr "cursor1")] (JStr "cursor1")
             (snd (get_devices Httpx JNull 100 w))
             (page [JStr "b"] JNull)
             (snd (get_devices Httpx (JStr "cursor1") 100
                     (snd (get_devices Httpx JNull 100 w))))
             2 []).
  - reflexivity.
  - apply (fetched_more (fun anchor => get_devices Httpx anchor 100) JNull w
             (page [JStr "a"] (JStr "cursor1")) (snd (get_devices Httpx JNull 100 w))
             [] (JStr "cursor1") (snd (get_devices Httpx JNull 100 w)));
      [vm_compute; reflexivity|reflexivity|reflexivity|apply fetched_none].
  - vm_compute. reflexivity.
  - reflexivity.
  - reflexivity.
  - cbn. lia.
Defined.

(** ** Update records as the endpoints return them *)

Lemma assoc_obj_set (k k2 : string) (v : json) (kv : list (string * json)) :
  assoc k2 (obj_set k v kv) = if (k2 =? k)%string then Some v else assoc k2 kv.
Proof.
  induction kv as [|[k' v'] kv IH]; cbn.
  - reflexivity.
  - destruct (k =? k')%string eqn:Hkk'; cbn.
    + apply String.eqb_eq in Hkk'. subst k'.
      destruct (k2 =? k)%string; reflexivity.
    + rewrite IH.
      destruct (k2 =? k')%string eqn:H2k'; [|reflexivity].
      apply String.eqb_eq in H2k'. subst k'.
      rewrite String.eqb_sym, Hkk'. reflexivity.
Qed.

Lemma py_len_iter (x : json) (n : Z) (l : list json) :
  py_len x = Ok n -> py_iter x = Ok l -> n = Z.of_nat (List.length l).
Proof.
  destruct x; cbn; try discriminate; intros Hn Hl; inversion Hn; inversion Hl; subst.
  - rewrite chars_length. reflexivity.
  - reflexivity.
  - rewrite length_map. reflexivity.
Qed.

Lemma as_list_Forall2 {A} (f : json -> option A) :
  forall l r, as_list f l = Some r -> Forall2 (fun v a => f v = Some a) l r.
Proof.
  induction l as [|v l IH]; cbn; intros r.
  - intros H; inversion H. constructor.
  - destruct (f v) as [a|] eqn:Hf; [|discriminate].
    destruct (as_list f l) as [r'|]; [|discriminate].
    intros H; inversion H; subst. constructor; auto.
Qed.

Lemma optional_str_field_text (k : string) (kv : list (string * json)) (o : option string) :
  optional_str_field k kv = Some o -> o = text_field k (JObj kv).
Proof.
  unfold optional_str_field, text_field. cbn.
  destruct (assoc k kv) as [[| | |t| |]|]; cbn; try discriminate;
    intros H; inversion H; reflexivity.
Qed.

Lemma as_SoftwareUpdate_delivered (u : json) (su : SoftwareUpdate) :
  as_SoftwareUpdate u = Some su -> delivered_update u su.
Proof.
  unfold as_SoftwareUpdate, delivered_update.
  destruct u as [| | | | |kv]; try discriminate.
  destruct (optional_str_field "title" kv) as [t|] eqn:Ht; [|discriminate].
  destruct (optional_str_field "version" kv) as [v|] eqn:Hv; [|discriminate].
  destruct (optional_str_field "id" kv) as [i|] eqn:Hi; [|discriminate].
  intros H; inversion H; subst; clear H. cbn.
  repeat split; apply optional_str_field_text; assumption.
Qed.

Lemma as_status_value (pending_ : json) :
  as_status (status_value pending_) = Some (status_of_pending pending_).
Proof.
  unfold status_value, status_of_pending. destruct (truthy pending_); reflexivity.
Qed.

(** What the response model makes of an enriched record. *)
Lemma enrich_delivered (item e : json) (info : DeviceUpdateInfo) :
  enrich item = Ok e -> as_DeviceUpdateInfo e = Some info -> delivered_from item info.
Proof.
  unfold enrich. destruct item as [| | | | |kv]; cbn [py_get rbind]; try discriminate.
  intros H; inversion H; subst; clear H.
  unfold as_DeviceUpdateInfo, delivered_from, pending_list. cbn [py_get py_item].
  rewrite !assoc_obj_set. cbn [String.eqb Ascii.eqb Bool.eqb].
  destruct (assoc "deviceId" kv) as [id|]; [|discriminate].
  destruct (as_str id) as [i|] eqn:Hid; [|discriminate].
  destruct id; try discriminate. cbn in Hid. inversion Hid; subst; clear Hid.
  rewrite as_status_value. unfold status_of_pending.
  destruct (assoc "pendingSoftwareUpdates" kv) as [[| | | |l|]|]; try discriminate.
  - destruct (as_list as_SoftwareUpdate l) as [us|] eqn:Hus; [|discriminate].
    intros H; inversion H; subst; clear H. cbn.
    split; [reflexivity|]. split.
    + apply as_list_Forall2 in Hus.
      eapply Forall2_impl; [|exact Hus]. intros u su. apply as_SoftwareUpdate_delivered.
    + destruct l; reflexivity.
  - intros H; inversion H; subst; clear H. cbn.
    split; [reflexivity|]. split; [constructor|reflexivity].
Qed.

Lemma enriched_delivered :
  forall (records enriched : list json) (infos : list DeviceUpdateInfo),
    Forall2 (fun a b => enrich a = Ok b) records enriched ->
    Forall2 (fun v a => as_DeviceUpdateInfo v = Some a) enriched infos ->
    Forall2 delivered_from records infos.
Proof.
  intros records enriched infos H. revert infos.
  induction H as [|a b records enriched Hab _ IH]; intros infos Hinfos;
    inversion Hinfos; subst; constructor.
  - eapply enrich_delivered; eassumption.
  - apply IH. assumption.
Qed.

(** A record without a string for [deviceId] is refused by the model. *)
Lemma enriched_refused :
  forall (records enriched : list json),
    Forall2 (fun a b => enrich a = Ok b) records enriched ->
    existsb without_device_id records = true ->
    as_list as_DeviceUpdateInfo enriched = None.
Proof.
  intros records enriched H.
  induction H as [|a b records enriched Hab _ IH]; cbn [existsb as_list];
    [discriminate|].
  intros Hbad. apply orb_prop in Hbad. destruct Hbad as [Ha|Hrest].
  - replace (as_DeviceUpdateInfo b) with (@None DeviceUpdateInfo); [reflexivity|].
    unfold enrich in Hab. destruct a as [| | | | |kv]; cbn [py_get rbind] in Hab;
      try discriminate.
    inversion Hab; subst; clear Hab.
    unfold without_device_id in Ha. cbn [py_item] in Ha.
    unfold as_DeviceUpdateInfo. rewrite !assoc_obj_set. cbn [String.eqb Ascii.eqb Bool.eqb].
    destruct (assoc "deviceId" kv) as [[| | |i| |]|]; try discriminate; reflexivity.
  - rewrite (IH Hrest). destruct (as_DeviceUpdateInfo b); reflexivity.
Qed.

(** X12. When [list_updates] returns, it returns one item for each record
    of the upstream page, in the same order, and [total] is their number;
    an item holds the [deviceId] of its record, of each pending update the
    [title], the [version] and the [id], and a status set to pending when
    the record has a non-empty pending list and to up to date otherwise
    (whatever [status] the upstream sent); every other field of the record
    is dropped. A page with one record that has no string for [deviceId]
    makes it answer 500. *)
Theorem list_updates_delivers_each_record :
  forall (text : string -> list (string * json) -> string)
         (anchor : json) (limit : Z) (w : world),
    (forall (r : UpdatesListResponse) (w' : world),
        list_updates text anchor limit w = (Ok r, w') ->
        exists response items records,
          get_software_updates Httpx anchor limit w = (Ok response, w')
          /\ py_get response "items" (JArr []) = Ok items
          /\ py_iter items = Ok records
          /\ Forall2 delivered_from records (ul_items r)
          /\ ul_total r = Z.of_nat (List.length (ul_items r))
          /\ py_get response "nextAnchor" JNull = Ok (anchor_value (ul_nextAnchor r)))
    /\ (forall (response : json) (w' : world) (records : list json),
           get_software_updates Httpx anchor limit w = (Ok response, w') ->
           py_get response "items" (JArr []) = Ok (JArr records) ->
           existsb without_device_id records = true ->
           exists detail,
             list_updates text anchor limit w = (Raise (HTTPException 500 detail), w')).
Proof.
  intros text anchor limit w. split.
  - intros r w'. unfold list_updates.
    destruct (get_software_updates Httpx anchor limit w) as [[response|e] w1];
      [|discriminate].
    destruct (enrich_page text response) as [r1|e] eqn:Hpage; [|discriminate].
    intros H; inversion H; subst; clear H.
    revert Hpage. unfold enrich_page.
    destruct (py_get response "items" (JArr [])) as [items|] eqn:Hitems; cbn [rbind];
      [|discriminate].
    destruct (py_iter items) as [records|] eqn:Hrec; cbn [rbind]; [|discriminate].
    destruct (map_result enrich records) as [enriched|] eqn:Hen; cbn [rbind]; [|discriminate].
    destruct (py_get response "nextAnchor" JNull) as [next|] eqn:Hnext; cbn [rbind];
      [|discriminate].
    destruct (py_len items) as [n|] eqn:Hn; cbn [rbind]; [|discriminate].
    unfold new_UpdatesListResponse.
    destruct (as_list as_DeviceUpdateInfo enriched) as [infos|] eqn:Hinfos; [|discriminate].
    destruct (as_optional_str next) as [onext|] eqn:Hnextstr; [|discriminate].
    intros H; inversion H; subst; clear H. cbn.
    exists response, items, records.
    split; [reflexivity|]. split; [exact Hitems|]. split; [exact Hrec|].
    split; [|split].
    + exact (enriched_delivered records enriched infos
               (map_result_Forall2 enrich records enriched Hen)
               (as_list_Forall2 _ enriched infos Hinfos)).
    + rewrite (py_len_iter items n records Hn Hrec).
      rewrite (as_list_length _ enriched infos Hinfos).
      rewrite (map_result_length enrich records enriched Hen). reflexivity.
    + rewrite Hnext. destruct next; try discriminate; inversion Hnextstr; subst; reflexivity.
  - intros response w' records Hget Hitems Hbad. unfold list_updates. rewrite Hget.
    unfold enrich_page. rewrite Hitems. cbn [rbind py_iter].
    destruct (map_result enrich records) as [enriched|e] eqn:Hen; cbn [rbind].
    2:{ eexists. reflexivity. }
    destruct response as [| | | | |kv]; try discriminate. cbn [py_get rbind py_len].
    unfold new_UpdatesListResponse.
    rewrite (enriched_refused records enriched
               (map_result_Forall2 enrich records enriched Hen) Hbad).
    eexists. reflexivity.
Qed.

Lemma list_updates_delivers_each_record_witness :
  let record (id : json) :=
    JObj [("deviceId", id);
          ("status", JStr "from upstream");
          ("lastScan", JStr "2026-01-27");
          ("pendingSoftwareUpdates",
           JArr [JObj [("title", JStr "x"); ("severity", JStr "high")]])] in
  let w (id : json) :=
    world_with_token 0 (3600 * second) [ok_reply 1 (JObj [("items", JArr [record id])])] in
  (exists r w',
      list_updates model_name_only JNull 100 (w (JStr "1")) = (Ok r, w')
      /\ ul_items r
         = [{| dui_deviceId := "1";
               dui_pendingSoftwareUpdates :=
                 [{| su_title := Some "x"; su_version := None; su_id := None |}];
               dui_status := PENDING |}]
      /\ ul_total r = Z.of_nat (List.length (ul_items r)))
  /\ (exists detail w',
         list_updates model_name_only JNull 100 (w (JNum 1))
         = (Raise (HTTPException 500 detail), w')).
Proof.
  intros record w. split.
  - destruct (list_updates model_name_only JNull 100 (w (JStr "1"))) as [[r|e] w'] eqn:Hr;
      [|vm_compute in Hr; discriminate].
    exists r, w'. split; [reflexivity|].
    destruct (proj1 (list_updates_delivers_each_record model_name_only JNull 100
                       (w (JStr "1"))) r w' Hr)
      as (response & items & records & _ & _ & _ & _ & Htotal & _).
    split; [|exact Htotal]. clear Htotal.
    vm_compute in Hr. injection Hr as <- _. reflexivity.
  - destruct (get_software_updates Httpx JNull 100 (w (JNum 1))) as [[response|e] w']
      eqn:Hget; [|vm_compute in Hget; discriminate].
    destruct (proj2 (list_updates_delivers_each_record model_name_only JNull 100
                       (w (JNum 1))) response w' [record (JNum 1)] Hget)
      as (detail & Hdetail).
    + vm_compute in Hget. injection Hget as <- _. reflexivity.
    + reflexivity.
    + exists detail, w'. exact Hdetail.
Defined.

Lemma status_eqb_sym (a b : UpdateStatus) : status_eqb a b = status_eqb b a.
Proof. destruct a, b; reflexivity. Qed.

Lemma count_of_classified (s : UpdateStatus) (updates devices : list json) :
  count_of s (map (spec_classify updates) devices) = count_status s updates devices.
Proof.
  unfold count_of, count_status. f_equal.
  induction devices as [|d devices IH]; cbn [map filter]; [reflexivity|].
  rewrite (status_eqb_sym s).
  destruct (status_eqb (spec_classify updates d) s); cbn [List.length]; congruence.
Qed.

(** The status the update endpoints attach to a well-formed record is the
    status the specification gives a device with that record. *)
Lemma record_status_classified (updates : list json) (device r : json) :
  forallb update_ok updates = true ->
  record_for updates (device_key device) = Some r ->
  listed_status r = Some (spec_classify updates device)
  /\ detailed_status r
     = Some (spec_classify updates device, JNum (Z.of_nat (List.length (pending_list r)))).
Proof.
  intros Hups Hrec.
  pose proof (record_for_ok _ _ _ Hups Hrec) as Hok.
  destruct (update_ok_pending r Hok) as [Hpend _].
  unfold spec_classify. rewrite Hrec.
  remember (pending_list r) as l eqn:Hl. clear Hl.
  unfold listed_status, detailed_status, enrich, device_updates_body. rewrite Hpend.
  cbn [rbind].
  destruct r as [| | | | |kv]; try discriminate.
  cbn [py_len rbind py_get]. rewrite !assoc_obj_set. cbn [String.eqb Ascii.eqb Bool.eqb].
  rewrite as_status_value. unfold status_of_pending.
  destruct l; split; reflexivity.
Qed.

(** X13. [get_statistics] files each device under the status that
    [list_updates] and [get_device_updates] attach to the update record the
    mapping holds for it (no information when it holds none), for
    well-formed update records; and the [pending_count] of
    [get_device_updates] is the length of that record's pending list. *)
Theorem endpoints_agree_on_status :
  forall (text : string -> list (string * json) -> string)
         (devices updates : list json) (st : StatisticsResponse),
    compute_statistics text devices updates = Ok st ->
    forallb update_ok updates = true ->
    exists statuses : list UpdateStatus,
      Forall2 (fun device s =>
                 match record_for updates (device_key device) with
                 | None => s = NO_INFO
                 | Some update_info =>
                     listed_status update_info = Some s
                     /\ detailed_status update_info
                        = Some (s, JNum (Z.of_nat (List.length (pending_list update_info))))
                 end)
              devices statuses
      /\ status_buckets st
         = [(UP_TO_DATE, count_of UP_TO_DATE statuses);
            (PENDING, count_of PENDING statuses);
            (NO_INFO, count_of NO_INFO statuses)].
Proof.
  intros text devices updates st Hst Hups.
  exists (map (spec_classify updates) devices). split.
  - clear Hst. induction devices as [|d devices IH]; cbn [map]; constructor; [|exact IH].
    destruct (record_for updates (device_key d)) as [r|] eqn:Hrec.
    + exact (record_status_classified updates d r Hups Hrec).
    + unfold spec_classify. rewrite Hrec. reflexivity.
  - destruct (compute_statistics_sound text devices updates st Hst) as (_ & _ & ->).
    rewrite !count_of_classified. reflexivity.
Qed.

Lemma endpoints_agree_on_status_witness :
  exists st,
    compute_statistics model_name_only example_devices example_updates = Ok st
    /\ status_buckets st = [(UP_TO_DATE, 1); (PENDING, 1); (NO_INFO, 1)]
    /\ map listed_status example_updates = [Some UP_TO_DATE; Some PENDING]
    /\ map detailed_status example_updates
       = [Some (UP_TO_DATE, JNum 0); Some (PENDING, JNum 1)].
Proof.
  destruct (compute_statistics model_name_only example_devices example_updates)
    as [st|e] eqn:Hst; [|vm_compute in Hst; discriminate].
  exists st. split; [reflexivity|].
  destruct (endpoints_agree_on_status model_name_only example_devices example_updates
              st Hst eq_refl) as (statuses & Hall & Hbuckets).
  split; [|split; reflexivity].
  inversion Hall as [|d1 s1 ? ? H1 Hall1]; subst.
  inversion Hall1 as [|d2 s2 ? ? H2 Hall2]; subst.
  inversion Hall2 as [|d3 s3 ? ? H3 Hall3]; subst.
  inversion Hall3; subst.
  cbn in H1, H2, H3.
  destruct H1 as [H1 _]. destruct H2 as [H2 _].
  injection H1 as <-. injection H2 as <-. subst s3.
  exact Hbuckets.
Defined.

(** ** Pending updates and the platform filter *)

Lemma pending_device_consistent (text : string -> list (string * json) -> string)
    (found : list DeviceWithPendingUpdates) (update : json)
    (found' : list DeviceWithPendingUpdates) (n : nat) :
  Forall detail_consistent found /\ (List.length found <= n)%nat ->
  pending_device text found update = Ok found' ->
  Forall detail_consistent found' /\ (List.length found' <= S n)%nat.
Proof.
  intros [Hfound Hlen]. unfold pending_device.
  destruct (py_get update "pendingSoftwareUpdates" (JArr [])) as [pend|]; cbn [rbind];
    [|discriminate].
  destruct (truthy pend) eqn:Htruthy.
  - destruct (py_get update "deviceId" JNull) as [id|]; cbn [rbind]; [|discriminate].
    destruct (py_get update "deviceName" JNull) as [name|]; cbn [rbind]; [|discriminate].
    destruct (py_get update "platform" JNull) as [pf|]; cbn [rbind]; [|discriminate].
    destruct (py_len pend) as [k|] eqn:Hk; cbn [rbind]; [|discriminate].
    destruct (pending_titles pend) as [titles|] eqn:Ht; cbn [rbind]; [|discriminate].
    destruct (new_DeviceWithPendingUpdates text id name pf k titles) as [detail|] eqn:Hnew;
      cbn [rbind]; [|discriminate].
    destruct (len_of_titles pend k titles Hk Ht) as (Hkn & Hone & _).
    destruct (new_detail_consistent text _ _ _ _ _ _ Hnew) as [Hcount Hlist].
    intros H; inversion H; subst; clear H. split.
    + apply Forall_app. split; [exact Hfound|].
      constructor; [|constructor]. split.
      * rewrite Hcount, Hlist. reflexivity.
      * rewrite Hcount. auto.
    + rewrite length_app. cbn. lia.
  - intros H; inversion H; subst. split; [exact Hfound|lia].
Qed.

Lemma update_listable_valid (update : json) :
  update_listable update = true -> update_valid update = true.
Proof. unfold update_listable. intros H. apply andb_prop in H. tauto. Qed.

(** A record the model takes gives its detail, under its [deviceId]. *)
Lemma pending_device_listable (text : string -> list (string * json) -> string)
    (found : list DeviceWithPendingUpdates) (update : json) :
  update_listable update = true ->
  exists found',
    pending_device text found update = Ok found'
    /\ map (fun d => JStr (device_id d)) found'
       = map (fun d => JStr (device_id d)) found
         ++ (if has_pending update then [update_key update] else []).
Proof.
  intros Hok.
  pose proof (update_listable_valid update Hok) as Hvalid.
  destruct (update_ok_pending update (update_valid_ok update Hvalid)) as [Hpend _].
  unfold pending_device, has_pending, update_key. rewrite Hpend. cbn [rbind].
  destruct (pending_list update) as [|u l] eqn:Hl.
  - cbn. exists found. split; [reflexivity|]. rewrite app_nil_r. reflexivity.
  - assert (forallb title_valid (u :: l) = true) as Htitles.
    { unfold update_valid in Hvalid. destruct update as [| | | | |kv']; try discriminate.
      apply andb_prop in Hvalid. destruct Hvalid as [_ Hvalid].
      unfold pending_list in Hl. cbn in Hl.
      destruct (assoc "pendingSoftwareUpdates" kv') as [[| | | |l'|]|];
        try discriminate. subst l'. exact Hvalid. }
    unfold update_listable, update_valid in Hok.
    destruct update as [| | | | |kv]; try discriminate.
    apply andb_prop in Hok. destruct Hok as [Hid Htexts].
    apply andb_prop in Hid. destruct Hid as [Hid _].
    apply andb_prop in Htexts. destruct Htexts as [Hname Hpf].
    destruct (assoc "deviceId" kv) as [[| | |i| |]|] eqn:Hdev; try discriminate.
    destruct (optional_text_get "deviceName" kv Hname) as (oname & Hasname).
    destruct (optional_text_get "platform" kv Hpf) as (opf & Haspf).
    destruct (pending_titles_valid (u :: l) Htitles) as (titles & ts & Hts & Hasts).
    cbn [truthy py_get rbind py_len]. rewrite Hdev, Hts. cbn [rbind].
    unfold new_DeviceWithPendingUpdates. cbn [as_str]. rewrite Hasname, Haspf, Hasts.
    cbn [rbind].
    eexists. split; [reflexivity|]. rewrite map_app. reflexivity.
Qed.

(** A well-formed record either gives its detail or is refused by the
    model; it is refused when it has pending updates and no string for
    [deviceId]. *)
Lemma pending_device_refused (text : string -> list (string * json) -> string)
    (found : list DeviceWithPendingUpdates) (update : json) :
  update_ok update = true ->
  (exists found', pending_device text found update = Ok found'
                  /\ (has_pending update && without_device_id update = false))
  \/ (exists t, pending_device text found update = Raise (ValidationError t)).
Proof.
  intros Hok.
  destruct (update_ok_pending update Hok) as [Hpend Hobjs].
  unfold pending_device, has_pending, without_device_id. rewrite Hpend. cbn [rbind].
  destruct (pending_list update) as [|u l] eqn:Hl.
  - left. exists found. split; reflexivity.
  - destruct update as [| | | | |kv]; try discriminate.
    destruct (pending_titles_ok (u :: l) Hobjs) as (titles & Hts).
    cbn [truthy py_get py_item rbind py_len]. rewrite Hts. cbn [rbind].
    unfold new_DeviceWithPendingUpdates, refused.
    destruct (assoc "deviceId" kv) as [[| | |i| |]|]; cbn [as_str];
      try (right; eexists; reflexivity).
    destruct (as_optional_str _); [|right; eexists; reflexivity].
    destruct (as_optional_str _); [|right; eexists; reflexivity].
    destruct (as_list as_str titles); [|right; eexists; reflexivity].
    left. eexists. split; reflexivity.
Qed.

(** X14. [list_pending_updates] never returns more records than there are
    update records, and each record it returns counts exactly the titles it
    lists, at least one. For update records its response model takes it
    returns one record for each update record with a non-empty pending list,
    in the order of the update list, under that record's [deviceId]. For
    well-formed update records of which one has pending updates and no
    string for [deviceId], it raises the [ValidationError] of the model (a
    500 for the caller). *)
Theorem pending_devices_are_the_pending_records :
  forall (text : string -> list (string * json) -> string),
    (forall (updates : list json) (found : list DeviceWithPendingUpdates),
        pending_devices text updates = Ok found ->
        Forall detail_consistent found
        /\ (List.length found <= List.length updates)%nat)
    /\ (forall updates : list json,
           forallb update_listable updates = true ->
           exists found,
             pending_devices text updates = Ok found
             /\ map (fun d => JStr (device_id d)) found
                = map update_key (filter has_pending updates))
    /\ (forall updates : list json,
           forallb update_ok updates = true ->
           existsb (fun u => has_pending u && without_device_id u) updates = true ->
           exists t, pending_devices text updates = Raise (ValidationError t)).
Proof.
  intros text. split; [|split].
  - intros updates found Hfound. unfold pending_devices in Hfound.
    replace (List.length updates) with (List.length updates + 0)%nat by lia.
    refine (fold_result_inv _ (fun f n => Forall detail_consistent f
                                          /\ (List.length f <= n)%nat)
              _ updates [] found 0%nat _ Hfound).
    + intros s a s' n. apply pending_device_consistent.
    + split; [constructor|cbn; lia].
  - intros updates Hups. unfold pending_devices.
    assert (forall acc, exists found,
               fold_result (pending_device text) updates acc = Ok found
               /\ map (fun d => JStr (device_id d)) found
                  = map (fun d => JStr (device_id d)) acc
                    ++ map update_key (filter has_pending updates))
      as Hgen.
    { induction updates as [|u updates IH]; intros acc; cbn [fold_result filter map].
      - exists acc. rewrite app_nil_r. auto.
      - cbn in Hups. apply andb_prop in Hups. destruct Hups as [Hu Hrest].
        destruct (pending_device_listable text acc u Hu) as (acc1 & -> & Hacc1).
        cbn [rbind].
        destruct (IH Hrest acc1) as (found & Hfound & Hmap).
        exists found. split; [exact Hfound|].
        rewrite Hmap, Hacc1, <- app_assoc.
        destruct (has_pending u); reflexivity. }
    destruct (Hgen []) as (found & Hfound & Hmap). eauto.
  - intros updates Hups. unfold pending_devices. generalize (@nil DeviceWithPendingUpdates).
    induction updates as [|u updates IH]; intros acc; cbn [existsb fold_result];
      [discriminate|].
    cbn in Hups. apply andb_prop in Hups. destruct Hups as [Hu Hrest].
    intros Hbad.
    destruct (pending_device_refused text acc u Hu) as [(acc1 & -> & Hfine)|(t & ->)].
    + cbn [rbind]. rewrite Hfine in Hbad. cbn [orb] in Hbad. exact (IH Hrest acc1 Hbad).
    + cbn [rbind]. eexists. reflexivity.
Qed.

Lemma pending_devices_are_the_pending_records_witness :
  (exists found,
      pending_devices model_name_only example_updates = Ok found
      /\ map (fun d => JStr (device_id d)) found = [JStr "2"]
      /\ Forall detail_consistent found)
  /\ (exists t,
         pending_devices model_name_only
           [JObj [("deviceId", JNum 2);
                  ("pendingSoftwareUpdates", JArr [JObj [("title", JStr "x")]])]]
         = Raise (ValidationError t)).
Proof.
  destruct (pending_devices_are_the_pending_records model_name_only)
    as (Hany & Hwf & Hrefused).
  split.
  - destruct (Hwf example_updates eq_refl) as (found & Hfound & Hmap).
    exists found. split; [exact Hfound|]. split; [exact Hmap|].
    exact (proj1 (Hany example_updates found Hfound)).
  - exact (Hrefused [JObj [("deviceId", JNum 2);
                           ("pendingSoftwareUpdates", JArr [JObj [("title", JStr "x")]])]]
             eq_refl eq_refl).
Defined.

Lemma platform_matches_readable (lower : string -> string) (platform_ : string) (d : json) :
  platform_readable d = true ->
  platform_matches lower platform_ d
  = Ok (lower (platform_text d) =? lower platform_)%string.
Proof.
  unfold platform_readable, platform_matches, platform_text.
  destruct d as [| | | | |kv]; try discriminate. cbn.
  destruct (assoc "platform" kv) as [[| | |s| |]|]; try discriminate; reflexivity.
Qed.

Lemma platform_matches_unreadable (lower : string -> string) (platform_ : string) (d : json) :
  platform_readable d = false ->
  exists msg, platform_matches lower platform_ d = Raise (AttributeError msg).
Proof.
  unfold platform_readable, platform_matches.
  destruct d as [| | | | |kv]; cbn; try (intros _; eexists; reflexivity).
  destruct (assoc "platform" kv) as [[| | |s| |]|]; try discriminate;
    intros _; eexists; reflexivity.
Qed.

(** X15. The platform filter keeps, in order, exactly the devices whose
    platform lowers to the same text as the platform asked for, a device
    without platform counting as the empty text; so two spellings that lower
    alike give the same list. But one device that is not an object, or whose
    platform is present and not a string ([null] for one), makes the filter
    raise [AttributeError], whatever platform was asked for. *)
Theorem platform_filter :
  forall (lower : string -> string) (platform_ : string) (devices : list json),
    (forallb platform_readable devices = true ->
     filter_by_platform lower platform_ devices
     = Ok (filter (fun d => (lower (platform_text d) =? lower platform_)%string) devices))
    /\ (forall other,
           lower other = lower platform_ ->
           filter_by_platform lower other devices
           = filter_by_platform lower platform_ devices)
    /\ (forallb platform_readable devices = false ->
        exists msg,
          filter_by_platform lower platform_ devices = Raise (AttributeError msg)).
Proof.
  intros lower platform_ devices. unfold filter_by_platform. split; [|split].
  - induction devices as [|d devices IH]; cbn; [reflexivity|].
    intros H. apply andb_prop in H. destruct H as [Hd Hrest].
    rewrite (platform_matches_readable lower platform_ d Hd). cbn [rbind].
    rewrite (IH Hrest). reflexivity.
  - intros other Hother.
    induction devices as [|d devices IH]; cbn; [reflexivity|].
    unfold platform_matches at 1 3. rewrite Hother, IH. reflexivity.
  - induction devices as [|d devices IH]; cbn; [discriminate|].
    destruct (platform_readable d) eqn:Hd; cbn.
    + intros Hrest. destruct (IH Hrest) as (msg & ->).
      rewrite (platform_matches_readable lower platform_ d Hd). cbn. eauto.
    + intros _. destruct (platform_matches_unreadable lower platform_ d Hd) as (msg & ->).
      cbn. eauto.
Qed.

Lemma platform_filter_witness :
  let windows := JObj [("id", JStr "1"); ("platform", JStr "Windows")] in
  let linux := JObj [("id", JStr "2"); ("platform", JStr "Linux")] in
  let unknown := JObj [("id", JStr "3")] in
  let broken := JObj [("id", JStr "4"); ("platform", JNull)] in
  filter_by_platform lower_ascii "WINDOWS" [windows; linux; unknown] = Ok [windows]
  /\ exists msg,
       filter_by_platform lower_ascii "WINDOWS" [windows; linux; broken]
       = Raise (AttributeError msg).
Proof.
  intros windows linux unknown broken. split.
  - rewrite (proj1 (platform_filter lower_ascii "WINDOWS" [windows; linux; unknown]) eq_refl).
    reflexivity.
  - apply (proj2 (proj2 (platform_filter lower_ascii "WINDOWS" [windows; linux; broken]))).
    reflexivity.
Defined.

(** ** The 404 of the single-record endpoints *)

Lemma prefix_app (n h t : string) :
  String.prefix n h = true -> String.prefix n (h ++ t) = true.
Proof.
  revert n. induction h as [|c' h IH]; intros [|c n]; cbn [append].
  - intros _. destruct t; reflexivity.
  - cbn. discriminate.
  - reflexivity.
  - cbn. destruct (ascii_dec c c'); [apply IH|discriminate].
Qed.

Lemma contains_app_l (n h t : string) :
  contains n h = true -> contains n (h ++ t) = true.
Proof.
  induction h as [|c h IH].
  - cbn [contains]. rewrite orb_false_r. intros H. destruct n; [|discriminate].
    destruct t; reflexivity.
  - cbn [contains append]. intros H. apply orb_true_iff in H. apply orb_true_iff.
    destruct H as [H|H]; [left; exact (prefix_app n (String c h) t H)|right; auto].
Qed.

Lemma contains_app_r (n h t : string) :
  contains n t = true -> contains n (h ++ t) = true.
Proof.
  intros H. induction h as [|c h IH]; cbn [append contains]; [exact H|].
  rewrite IH. apply orb_true_r.
Qed.

(** The text of a status error contains what its url or its reason phrase
    contains. *)
Lemma status_message_contains (needle : string) (st : Z) (reason url : string) :
  contains needle reason = true \/ contains needle url = true ->
  contains needle (status_message st reason url) = true.
Proof.
  unfold status_message. intros [H|H].
  - do 4 apply contains_app_r. apply contains_app_l. exact H.
  - do 6 apply contains_app_r. apply contains_app_l. exact H.
Qed.

Lemma get_device_raises (device_id : string) (w : world) (e : exn) :
  fst (get_device_by_id device_id w) = Raise e ->
  contains "404" (str_exn e) = true ->
  fst (get_device device_id w)
  = Raise (HTTPException 404 ("Device " ++ device_id ++ " not found")%string).
Proof.
  unfold get_device. destruct (get_device_by_id device_id w) as [r w']. cbn.
  intros -> ->. reflexivity.
Qed.

Lemma get_device_updates_raises (device_id : string) (w : world) (e : exn) :
  fst (get_software_update_by_device device_id w) = Raise e ->
  contains "404" (str_exn e) = true ->
  fst (get_device_updates device_id w)
  = Raise (HTTPException 404 ("Update info for device " ++ device_id ++ " not found")%string).
Proof.
  unfold get_device_updates.
  destruct (get_software_update_by_device device_id w) as [r w']. cbn.
  intros -> ->. reflexivity.
Qed.

(** X16. [get_device] and [get_device_updates] answer 404, "not found",
    for any refused upstream request, whatever its status, as soon as the
    text ["404"] occurs in the base url, in the device id or in the reason
    phrase of the response. *)
Theorem not_found_for_any_status :
  forall (device_id : string) (w w1 : world) dt st reason body rest,
    ensure_authenticated Httpx w = (Ok tt, w1) ->
    upstream w1 = (dt, Response st reason body) :: rest ->
    is_error_status Httpx st = true ->
    contains "404" (api_base_url (self w)) = true
    \/ contains "404" device_id = true
    \/ contains "404" reason = true ->
    fst (get_device device_id w)
    = Raise (HTTPException 404 ("Device " ++ device_id ++ " not found")%string)
    /\ fst (get_device_updates device_id w)
       = Raise (HTTPException 404
                  ("Update info for device " ++ device_id ++ " not found")%string).
Proof.
  intros device_id w w1 dt st reason body rest Hens Hup Hst Htext.
  assert (forall path,
             contains "404" reason = true
             \/ contains "404" (api_base_url (self w) ++ path ++ device_id) = true) as Hurl.
  { intros path. destruct Htext as [H|[H|H]].
    - right. apply contains_app_l. exact H.
    - right. do 2 apply contains_app_r. exact H.
    - left. exact H. }
  split.
  - apply (get_device_raises device_id w
             (HTTPStatusError st reason
                (api_base_url (self w) ++ "/devices/v1/" ++ device_id))).
    + unfold get_device_by_id.
      rewrite (get_by_id_after Httpx _ device_id w w1 dt st reason body rest Hens Hup), Hst.
      reflexivity.
    + apply status_message_contains, Hurl.
  - apply (get_device_updates_raises device_id w
             (HTTPStatusError st reason
                (api_base_url (self w) ++ "/software-updates/v1/" ++ device_id))).
    + unfold get_software_update_by_device.
      rewrite (get_by_id_after Httpx _ device_id w w1 dt st reason body rest Hens Hup), Hst.
      reflexivity.
    + apply status_message_contains, Hurl.
Qed.

Lemma not_found_for_any_status_witness :
  let w := {| self := set_token_expiry
                        (set_access_token
                           (new_client "id" "secret" "http://localhost:4040" "scope")
                           (JStr "tok"))
                        (Some (3600 * second));
              clock := 0;
              upstream := [(1, Response 401 "Unauthorized" (Ok (JObj [])))];
              sent := [] |} in
  fst (get_device "d1" w) = Raise (HTTPException 404 "Device d1 not found")
  /\ fst (get_device_updates "d1" w)
     = Raise (HTTPException 404 "Update info for device d1 not found").
Proof.
  intro w.
  apply (not_found_for_any_status "d1" w w 1 401 "Unauthorized" (Ok (JObj [])) []);
    try reflexivity.
  left. reflexivity.
Defined.

(** X17. When the stored token is not valid and the token endpoint itself
    answers 404, [get_device] answers that the device was not found although
    the only request sent is the token request: the device was never asked
    for. *)
Theorem token_endpoint_404_reads_as_missing_device :
  forall (device_id : string) (w : world) dt reason body rest,
    is_token_valid (self w) (clock w) = false ->
    upstream w = (dt, Response 404 reason body) :: rest ->
    fst (get_device device_id w)
    = Raise (HTTPException 404 ("Device " ++ device_id ++ " not found")%string)
    /\ sent (snd (get_device device_id w)) = sent w ++ [token_request (self w)].
Proof.
  intros device_id w dt reason body rest Hinvalid Hup.
  assert (get_device_by_id device_id w
          = (Raise (HTTPStatusError 404 reason
                      (api_base_url (self w) ++ "/as/token.oauth2")),
             {| self := self w; clock := clock w + dt; upstream := rest;
                sent := sent w ++ [token_request (self w)] |})) as Hget.
  { unfold get_device_by_id, get_by_id, get_headers, ensure_authenticated,
      bind, get_self, now, ret. cbv beta iota.
    rewrite Hinvalid.
    rewrite (authenticate_refused Httpx w dt 404 reason body rest Hup eq_refl).
    reflexivity. }
  unfold get_device. rewrite Hget. cbn [str_exn]. rewrite message_of_404.
  split; reflexivity.
Qed.

Lemma token_endpoint_404_reads_as_missing_device_witness :
  let w := world_at 0 [(1, Response 404 "Not Found" (Ok (JObj [])))] in
  fst (get_device "d1" w) = Raise (HTTPException 404 "Device d1 not found")
  /\ sent (snd (get_device "d1" w)) = sent w ++ [token_request (self w)].
Proof.
  intro w.
  apply (token_endpoint_404_reads_as_missing_device "d1" w 1 "Not Found" (Ok (JObj [])) []);
    reflexivity.
Defined.

(** ** Startup of the service *)



(** ** Concurrent callers: the lock and its queue *)

Lemma nth_is_task (t : task) (i : nat) (s : state) :
  nth_error (tasks s) i = Some t ->
  rank t <> 0%nat ->
  is_task t i s = true.
Proof.
  unfold is_task. intros ->. destruct t; cbn; congruence.
Qed.

Lemma update_waiting (a : task) (l : list task) (i k : nat) :
  a <> Waiting ->
  nth_error (update i a l) k = Some Waiting
  <-> k <> i /\ nth_error l k = Some Waiting.
Proof.
  intros Ha. split.
  - intros H. apply nth_error_update in H.
    destruct H as [[_ H]|[Hne H]]; [congruence|]. split; congruence.
  - intros [Hne H]. rewrite nth_error_update_neq; congruence.
Qed.

Lemma list_sum_update (f : task -> nat) (a : task) :
  forall (l : list task) (i : nat) (x : task),
    nth_error l i = Some x ->
    (list_sum (map f (update i a l)) + f x = list_sum (map f l) + f a)%nat.
Proof.
  induction l as [|y l IH]; intros [|i] x H; cbn [nth_error update map] in *;
    try discriminate; change (list_sum (?u :: ?v)) with (u + list_sum v)%nat.
  - inversion H; subst. lia.
  - specialize (IH i x H). lia.
Qed.

Lemma queue_inv_init (n : nat) (w : world) : queue_inv (init n w).
Proof.
  split; [constructor|]. split.
  - intros i. cbn. split; [intros []|].
    intros H. apply nth_error_In in H. apply repeat_spec in H. discriminate.
  - discriminate.
Qed.

Lemma queue_inv_enter (i : nat) (s : state) (ws : list nat) (x : task) :
  nth_error (tasks s) i = Some x ->
  NoDup ws ->
  (forall k, In k ws <-> k <> i /\ nth_error (tasks s) k = Some Waiting) ->
  queue_inv (enter_critical i s ws).
Proof.
  intros Hx Hnd Hq. unfold enter_critical.
  destruct (is_token_valid _ _); (split; [exact Hnd|]); cbn; split.
  - intros k. rewrite update_waiting by discriminate. apply Hq.
  - discriminate.
  - intros k. rewrite update_waiting by discriminate. apply Hq.
  - intros _. exists i. eapply nth_error_update_eq; eassumption.
Qed.

Lemma queue_inv_step (ev : event) (s s' : state) :
  queue_inv s -> step ev s = Some s' -> queue_inv s'.
Proof.
  intros (Hnd & Hq & Hheld). unfold step.
  destruct ev as [i|i|i|dt].
  - destruct (is_task Start i s) eqn:Hstart; [|discriminate].
    apply is_task_nth in Hstart.
    assert (~ In i (waiters s)) as Hout.
    { intros Hin. apply Hq in Hin. congruence. }
    assert (queue_inv {| env := env s; tasks := update i Waiting (tasks s);
                         locked := locked s; waiters := waiters s ++ [i];
                         auth_calls := auth_calls s |}) as Hwait.
    { split; [|split]; cbn.
      - apply NoDup_app; [exact Hnd|repeat constructor; intros []|].
        intros a Ha [<-|[]]. exact (Hout Ha).
      - intros k. rewrite in_app_iff. split.
        + intros [Hk|[<-|[]]].
          * apply Hq in Hk. rewrite nth_error_update_neq; [exact Hk|congruence].
          * eapply nth_error_update_eq; eassumption.
        + intros Hk. apply nth_error_update in Hk.
          destruct Hk as [[-> _]|[_ Hk]]; [right; left; reflexivity|].
          left. apply Hq. exact Hk.
      - intros Hl. destruct (Hheld Hl) as [k Hk]. exists k.
        rewrite nth_error_update_neq; [exact Hk|congruence]. }
    destruct (locked s) eqn:Hl; [|destruct (waiters s) as [|j rest] eqn:Hw];
      intros H; inversion H; subst; try exact Hwait.
    apply (queue_inv_enter i s [] Start Hstart); [constructor|].
    intros k. split; [intros []|]. intros [_ Hk]. apply Hq in Hk. exact Hk.
  - destruct (locked s) eqn:Hl; [discriminate|].
    destruct (waiters s) as [|j rest] eqn:Hw; [discriminate|].
    destruct (Nat.eqb i j && is_task Waiting i s) eqn:Hi; [|discriminate].
    apply andb_prop in Hi. destruct Hi as [Hij Hi].
    apply Nat.eqb_eq in Hij. subst j. apply is_task_nth in Hi.
    intros H; inversion H; subst.
    inversion Hnd as [|? ? Hnotin Hnd']; subst.
    apply (queue_inv_enter i s rest Waiting Hi Hnd').
    intros k. split.
    + intros Hk. split; [intros ->; exact (Hnotin Hk)|].
      apply Hq. right. exact Hk.
    + intros [Hne Hk]. apply Hq in Hk. destruct Hk as [Hk|Hk]; [congruence|exact Hk].
  - destruct (is_task Authenticating i s) eqn:Hi; [|discriminate].
    apply is_task_nth in Hi.
    destruct (authenticate Httpx (env s)) as [r w'].
    intros H; inversion H; subst. split; [exact Hnd|]. cbn. split; [|discriminate].
    intros k. rewrite update_waiting by (destruct r; discriminate).
    rewrite Hq. split; [|tauto]. intros Hk. split; [congruence|exact Hk].
  - destruct (0 <=? dt); [|discriminate].
    intros H; inversion H; subst. split; [exact Hnd|]. split; assumption.
Qed.

Lemma queue_inv_run (evs : list event) :
  forall s s', queue_inv s -> run evs s = Some s' -> queue_inv s'.
Proof.
  induction evs as [|ev evs IH]; intros s s' Hinv; cbn.
  - intros H; inversion H; subst. exact Hinv.
  - destruct (step ev s) as [s1|] eqn:Hstep; [|discriminate].
    apply IH. exact (queue_inv_step ev s s1 Hinv Hstep).
Qed.

(** A caller that has not finished, or another one, can take a step. *)
Lemma progress (s : state) :
  queue_inv s ->
  finished s = false ->
  exists ev s', is_move ev = true /\ step ev s = Some s'.
Proof.
  intros (Hnd & Hq & Hheld) Hfin.
  assert (exists i t, nth_error (tasks s) i = Some t /\ finished_task t = false)
    as (i & t & Hi & Ht).
  { unfold finished in Hfin. revert Hfin. generalize (tasks s).
    induction l as [|t l IH]; cbn; [discriminate|].
    destruct (finished_task t) eqn:Ht; cbn.
    - intros H. destruct (IH H) as (i & t' & Hi & Ht'). exists (S i), t'. auto.
    - intros _. exists 0%nat, t. auto. }
  assert (forall k, nth_error (tasks s) k = Some Authenticating ->
                    exists s', step (Reply k) s = Some s') as Hreply.
  { intros k Hk. unfold step. rewrite (nth_is_task _ _ _ Hk) by discriminate.
    destruct (authenticate Httpx (env s)). eexists. reflexivity. }
  destruct t; try discriminate.
  - exists (Call i). unfold step. rewrite (nth_is_task _ _ _ Hi) by discriminate.
    destruct (locked s), (waiters s); eexists; split; reflexivity.
  - destruct (locked s) eqn:Hl.
    + destruct (Hheld eq_refl) as [k Hk]. destruct (Hreply k Hk) as [s' Hs'].
      exists (Reply k), s'. auto.
    + apply Hq in Hi. destruct (waiters s) as [|j rest] eqn:Hw; [destruct Hi|].
      assert (nth_error (tasks s) j = Some Waiting) as Hj by (apply Hq; left; reflexivity).
      exists (Resume j). unfold step. rewrite Hl, Hw, Nat.eqb_refl.
      rewrite (nth_is_task _ _ _ Hj) by discriminate.
      eexists; split; reflexivity.
  - destruct (Hreply i Hi) as [s' Hs']. exists (Reply i), s'. auto.
Qed.

(** Every step of a caller brings it nearer to its end. *)
Lemma step_work_left (ev : event) (s s' : state) :
  step ev s = Some s' ->
  (weigh rank s' + (if is_move ev then 1 else 0) <= weigh rank s)%nat.
Proof.
  unfold step, enter_critical, weigh. destruct ev as [i|i|i|dt].
  - destruct (is_task Start i s) eqn:Hi; [|discriminate].
    apply is_task_nth in Hi.
    pose proof (fun a => list_sum_update rank a _ _ _ Hi) as Hsum.
    destruct (locked s), (waiters s); try destruct (is_token_valid _ _);
      intros H; inversion H; subst; cbn [tasks is_move];
      match goal with |- context [update i ?a _] => specialize (Hsum a) end;
      cbn in Hsum; lia.
  - destruct (locked s); [discriminate|].
    destruct (waiters s) as [|j rest]; [discriminate|].
    destruct (Nat.eqb i j && is_task Waiting i s) eqn:Hi; [|discriminate].
    apply andb_prop in Hi. destruct Hi as [_ Hi]. apply is_task_nth in Hi.
    pose proof (fun a => list_sum_update rank a _ _ _ Hi) as Hsum.
    destruct (is_token_valid _ _);
      intros H; inversion H; subst; cbn [tasks is_move];
      match goal with |- context [update i ?a _] => specialize (Hsum a) end;
      cbn in Hsum; lia.
  - destruct (is_task Authenticating i s) eqn:Hi; [|discriminate].
    apply is_task_nth in Hi.
    pose proof (fun a => list_sum_update rank a _ _ _ Hi) as Hsum.
    destruct (authenticate Httpx (env s)) as [r w'].
    intros H; inversion H; subst; cbn [tasks is_move].
    match goal with |- context [update i ?a _] => specialize (Hsum a) end.
    destruct r; cbn in Hsum; lia.
  - destruct (0 <=? dt); [|discriminate].
    intros H; inversion H; subst; cbn [tasks env auth_calls is_move]. lia.
Qed.

Lemma run_work_left (evs : list event) :
  forall s s', run evs s = Some s' -> (weigh rank s' + moves evs <= weigh rank s)%nat.
Proof.
  induction evs as [|ev evs IH]; intros s s'; cbn.
  - intros H; inversion H; subst. cbn. lia.
  - destruct (step ev s) as [s1|] eqn:Hstep; [|discriminate].
    intros Hrun. specialize (IH s1 s' Hrun).
    pose proof (step_work_left ev s s1 Hstep) as Hstep'.
    unfold moves in *. cbn. destruct (is_move ev); cbn; lia.
Qed.

Lemma weigh_init (n : nat) (w : world) : weigh rank (init n w) = (3 * n)%nat.
Proof.
  unfold weigh. cbn [init tasks].
  induction n as [|n IH]; [reflexivity|].
  cbn [repeat map]. change (list_sum (?u :: ?v)) with (u + list_sum v)%nat.
  rewrite IH. cbn [rank]. lia.
Qed.

Lemma finish_from (m : nat) :
  forall s, (weigh rank s <= m)%nat -> queue_inv s ->
    exists evs s',
      run evs s = Some s' /\ finished s' = true
      /\ forallb is_move evs = true
      /\ (List.length evs <= weigh rank s)%nat.
Proof.
  induction m as [|m IH]; intros s Hm Hinv;
    (destruct (finished s) eqn:Hfin;
     [exists [], s; cbn; repeat split; auto; lia|]);
    destruct (progress s Hinv Hfin) as (ev & s1 & Hev & Hstep);
    pose proof (step_work_left ev s s1 Hstep) as Hlt; rewrite Hev in Hlt.
  - lia.
  - destruct (IH s1 ltac:(lia) (queue_inv_step ev s s1 Hinv Hstep))
      as (evs & s' & Hrun & Hdone & Hmoves & Hlen).
    exists (ev :: evs), s'. cbn. rewrite Hstep, Hev, Hmoves.
    repeat split; auto. lia.
Qed.

Lemma requests_inv_init (n : nat) (w : world) : requests_inv w (init n w).
Proof.
  unfold requests_inv, weigh. cbn [init env tasks auth_calls].
  assert (list_sum (map in_flight (repeat Start n)) = 0%nat) as ->.
  { induction n; cbn; auto. }
  lia.
Qed.

Lemma requests_inv_step (w0 : world) (ev : event) (s s' : state) :
  requests_inv w0 s -> step ev s = Some s' -> requests_inv w0 s'.
Proof.
  unfold requests_inv, step, enter_critical, weigh. intros [Hlog Hle].
  destruct ev as [i|i|i|dt].
  - destruct (is_task Start i s) eqn:Hi; [|discriminate].
    apply is_task_nth in Hi.
    pose proof (fun a => list_sum_update in_flight a _ _ _ Hi) as Hf.
    pose proof (fun a => list_sum_update entered a _ _ _ Hi) as He.
    destruct (locked s), (waiters s); try destruct (is_token_valid _ _);
      intros H; inversion H; subst; cbn [tasks env auth_calls];
      match goal with |- context [update i ?a _] =>
        specialize (Hf a); specialize (He a) end;
      cbn in Hf, He; lia.
  - destruct (locked s); [discriminate|].
    destruct (waiters s) as [|j rest]; [discriminate|].
    destruct (Nat.eqb i j && is_task Waiting i s) eqn:Hi; [|discriminate].
    apply andb_prop in Hi. destruct Hi as [_ Hi]. apply is_task_nth in Hi.
    pose proof (fun a => list_sum_update in_flight a _ _ _ Hi) as Hf.
    pose proof (fun a => list_sum_update entered a _ _ _ Hi) as He.
    destruct (is_token_valid _ _);
      intros H; inversion H; subst; cbn [tasks env auth_calls];
      match goal with |- context [update i ?a _] =>
        specialize (Hf a); specialize (He a) end;
      cbn in Hf, He; lia.
  - destruct (is_task Authenticating i s) eqn:Hi; [|discriminate].
    apply is_task_nth in Hi.
    pose proof (fun a => list_sum_update in_flight a _ _ _ Hi) as Hf.
    pose proof (fun a => list_sum_update entered a _ _ _ Hi) as He.
    destruct (authenticate Httpx (env s)) as [r w'] eqn:Hauth.
    destruct (authenticate_inv Httpx (env s) _ _ Hauth) as (Hsent & _).
    intros H; inversion H; subst; cbn [tasks env auth_calls].
    rewrite Hsent, length_app. cbn [List.length].
    match goal with |- context [update i ?a _] =>
      specialize (Hf a); specialize (He a) end.
    destruct r; cbn in Hf, He; lia.
  - destruct (0 <=? dt); [|discriminate].
    intros H; inversion H; subst; cbn [tasks env auth_calls advance sent]. lia.
Qed.

Lemma requests_inv_run (w0 : world) (evs : list event) :
  forall s s', requests_inv w0 s -> run evs s = Some s' -> requests_inv w0 s'.
Proof.
  induction evs as [|ev evs IH]; intros s s' Hinv; cbn.
  - intros H; inversion H; subst. exact Hinv.
  - destruct (step ev s) as [s1|] eqn:Hstep; [|discriminate].
    apply IH. exact (requests_inv_step w0 ev s s1 Hinv Hstep).
Qed.

Lemma weigh_entered_le (s : state) : (weigh entered s <= List.length (tasks s))%nat.
Proof.
  unfold weigh. induction (tasks s) as [|t l IH]; [cbn; lia|].
  cbn [map List.length]. change (list_sum (?u :: ?v)) with (u + list_sum v)%nat.
  destruct t; cbn [entered]; lia.
Qed.

Lemma quiet_init (n : nat) (w : world) : quiet w (init n w).
Proof.
  repeat split; cbn; auto.
  intros j t Hj. apply nth_error_In in Hj. apply repeat_spec in Hj. auto.
Qed.

Lemma quiet_step (w0 : world) (H : Z) (ev : event) (s s' : state) :
  valid_until H (self w0) ->
  quiet w0 s ->
  clock (env s) <= H ->
  step ev s = Some s' ->
  quiet w0 s'.
Proof.
  intros Hvalid (Hcalls & Hfree & Hq & Hall & Hself & Hup & Hsent) Hclock.
  unfold step. destruct ev as [i|i|i|dt].
  - destruct (is_task Start i s); [|discriminate].
    rewrite Hfree, Hq. unfold enter_critical.
    rewrite Hself, (valid_until_now H _ _ Hvalid Hclock).
    intros E; inversion E; subst. repeat split; cbn; auto.
    intros j t Hj. apply nth_error_update in Hj.
    destruct Hj as [[_ ->]|[_ Hj]]; eauto.
  - rewrite Hfree, Hq. discriminate.
  - destruct (is_task Authenticating i s) eqn:Hi; [|discriminate].
    apply is_task_nth in Hi. destruct (Hall _ _ Hi); discriminate.
  - destruct (0 <=? dt); [|discriminate].
    intros E; inversion E; subst. repeat split; cbn; auto.
Qed.

Lemma quiet_run (w0 : world) (H : Z) :
  valid_until H (self w0) ->
  durations_ok w0 ->
  forall evs s s',
    quiet w0 s ->
    run evs s = Some s' ->
    clock (env s') <= H ->
    quiet w0 s'.
Proof.
  intros Hvalid Hdur.
  induction evs as [|ev evs IH]; intros s s' Hquiet; cbn.
  - intros E; inversion E; subst. auto.
  - destruct (step ev s) as [s1|] eqn:Hstep; [|discriminate].
    intros Hrun Hclock.
    assert (durations_ok (env s)) as Hdur0.
    { unfold durations_ok. destruct Hquiet as (_ & _ & _ & _ & _ & -> & _). exact Hdur. }
    destruct (step_clock ev s s1 Hdur0 Hstep) as [Hle Hdur1].
    pose proof (run_clock evs s1 s' Hdur1 Hrun) as Hle1.
    apply (IH s1 s'); auto.
    apply (quiet_step w0 H ev s s1); auto. lia.
Qed.

Lemma update_not_start (a : task) (l : list task) (k i : nat) (t : task) :
  a <> Start ->
  nth_error l i = Some t ->
  t <> Start ->
  exists t', nth_error (update k a l) i = Some t' /\ t' <> Start.
Proof.
  intros Ha Hi Ht. destruct (Nat.eq_dec k i) as [->|Hne].
  - exists a. split; [eapply nth_error_update_eq; eassumption|exact Ha].
  - exists t. split; [rewrite nth_error_update_neq; assumption|exact Ht].
Qed.

(** A caller calls once: nothing brings it back to where it started. *)
Lemma step_not_start (ev : event) (s s' : state) (i : nat) (t : task) :
  step ev s = Some s' ->
  nth_error (tasks s) i = Some t ->
  t <> Start ->
  exists t', nth_error (tasks s') i = Some t' /\ t' <> Start.
Proof.
  intros Hstep Hi Ht. revert Hstep. unfold step, enter_critical.
  destruct ev as [k|k|k|dt].
  - destruct (is_task Start k s); [|discriminate].
    destruct (locked s), (waiters s); try destruct (is_token_valid _ _);
      intros H; inversion H; subst; cbn [tasks];
      apply (update_not_start _ _ _ _ t); auto; discriminate.
  - destruct (locked s); [discriminate|].
    destruct (waiters s) as [|j rest]; [discriminate|].
    destruct (Nat.eqb k j && is_task Waiting k s); [|discriminate].
    destruct (is_token_valid _ _);
      intros H; inversion H; subst; cbn [tasks];
      apply (update_not_start _ _ _ _ t); auto; discriminate.
  - destruct (is_task Authenticating k s); [|discriminate].
    destruct (authenticate Httpx (env s)) as [r w'].
    intros H; inversion H; subst; cbn [tasks].
    apply (update_not_start _ _ _ _ t); auto. destruct r; discriminate.
  - destruct (0 <=? dt); [|discriminate].
    intros H; inversion H; subst; cbn [tasks]. eauto.
Qed.

Lemma step_call (i : nat) (s s' : state) :
  step (Call i) s = Some s' ->
  exists t', nth_error (tasks s') i = Some t' /\ t' <> Start.
Proof.
  unfold step, enter_critical.
  destruct (is_task Start i s) eqn:Hi; [|discriminate].
  apply is_task_nth in Hi.
  destruct (locked s), (waiters s); try destruct (is_token_valid _ _);
    intros H; inversion H; subst; cbn [tasks];
    (eexists; split; [eapply nth_error_update_eq; eassumption|discriminate]).
Qed.

Lemma run_not_start (evs : list event) :
  forall s s' i t,
    run evs s = Some s' ->
    nth_error (tasks s) i = Some t ->
    t <> Start ->
    exists t', nth_error (tasks s') i = Some t' /\ t' <> Start.
Proof.
  induction evs as [|ev evs IH]; intros s s' i t; cbn.
  - intros H; inversion H; subst. eauto.
  - destruct (step ev s) as [s1|] eqn:Hstep; [|discriminate].
    intros Hrun Hi Ht.
    destruct (step_not_start ev s s1 i t Hstep Hi Ht) as (t1 & Hi1 & Ht1).
    exact (IH s1 s' i t1 Hrun Hi1 Ht1).
Qed.

Lemma run_called (evs : list event) :
  forall s s' i,
    run evs s = Some s' ->
    In (Call i) evs ->
    exists t', nth_error (tasks s') i = Some t' /\ t' <> Start.
Proof.
  induction evs as [|ev evs IH]; intros s s' i; cbn; [intros _ []|].
  destruct (step ev s) as [s1|] eqn:Hstep; [|discriminate].
  intros Hrun [->|Hin].
  - destruct (step_call i s s1 Hstep) as (t1 & Hi1 & Ht1).
    exact (run_not_start evs s1 s' i t1 Hrun Hi1 Ht1).
  - exact (IH s1 s' i Hrun Hin).
Qed.

(** X19. In every state the concurrent callers of [ensure_authenticated]
    can reach, at most one caller is suspended on the token request; the lock
    is held exactly when there is one, so that it is free again after a
    token request that failed; and the queue of the lock holds exactly the
    callers suspended in [acquire], each once. *)
Theorem refresh_is_exclusive :
  forall (n : nat) (w : world) (evs : list event) (s : state),
    run evs (init n w) = Some s ->
    (forall i j, nth_error (tasks s) i = Some Authenticating ->
                 nth_error (tasks s) j = Some Authenticating -> i = j)
    /\ (locked s = true
        <-> exists i, nth_error (tasks s) i = Some Authenticating)
    /\ NoDup (waiters s)
    /\ (forall i, In i (waiters s) <-> nth_error (tasks s) i = Some Waiting).
Proof.
  intros n w evs s Hrun.
  pose proof (lock_inv_run evs _ _ (lock_inv_init n w) Hrun) as Hlock.
  destruct (queue_inv_run evs _ _ (queue_inv_init n w) Hrun) as (Hnd & Hq & Hheld).
  split; [|split; [|split; assumption]].
  - intros i j Hi Hj. destruct (Hlock i Hi) as [_ Huniq]. symmetry. auto.
  - split; [exact Hheld|]. intros [i Hi]. destruct (Hlock i Hi) as [Hl _]. exact Hl.
Qed.

Lemma refresh_is_exclusive_witness :
  let refused := (1, Response 500 "Internal Server Error" (Ok (JObj []))) in
  let w := world_at 0 [refused; refused] in
  exists s,
    run [Call 0; Call 1; Call 2; Reply 0] (init 3 w) = Some s
    /\ tasks s = [Failed (HTTPStatusError 500 "Internal Server Error"
                            "https://api.connect.withsecure.com/as/token.oauth2");
                  Waiting; Waiting]
    /\ locked s = false
    /\ NoDup (waiters s).
Proof.
  intros refused w.
  destruct (run [Call 0; Call 1; Call 2; Reply 0] (init 3 w)) as [s|] eqn:Hrun;
    [|vm_compute in Hrun; discriminate].
  exists s. split; [reflexivity|].
  pose proof (refresh_is_exclusive 3 w _ s Hrun) as (_ & _ & Hnd & _).
  vm_compute in Hrun. inversion Hrun; subst.
  split; [reflexivity|]. split; [reflexivity|]. exact Hnd.
Defined.

(** X20. Concurrent callers of [ensure_authenticated] issue at most one
    token request each: the token requests issued are at most the callers
    that got the lock, hence at most the callers; and the requests the
    upstream has seen are the ones issued, less the one on its way. *)
Theorem token_requests_bounded :
  forall (n : nat) (w : world) (evs : list event) (s : state),
    run evs (init n w) = Some s ->
    (List.length (sent (env s)) + weigh in_flight s
     = List.length (sent w) + auth_calls s)%nat
    /\ (auth_calls s <= weigh entered s)%nat
    /\ (weigh entered s <= n)%nat.
Proof.
  intros n w evs s Hrun.
  destruct (requests_inv_run w evs _ _ (requests_inv_init n w) Hrun) as [Hlog Hle].
  split; [exact Hlog|]. split; [exact Hle|].
  pose proof (weigh_entered_le s) as Hlen.
  rewrite (run_tasks_length evs _ _ Hrun) in Hlen.
  cbn [init tasks] in Hlen. rewrite repeat_length in Hlen. exact Hlen.
Qed.

Lemma token_requests_bounded_witness :
  let w := world_at 0 [ok_reply 1 (token_body 60); ok_reply 1 (token_body 60)] in
  exists s,
    run [Call 0; Call 1; Call 2; Reply 0; Resume 1] (init 3 w) = Some s
    /\ auth_calls s = 2%nat
    /\ List.length (sent (env s)) = 1%nat
    /\ (auth_calls s <= 3)%nat.
Proof.
  intros w.
  destruct (run [Call 0; Call 1; Call 2; Reply 0; Resume 1] (init 3 w)) as [s|] eqn:Hrun;
    [|vm_compute in Hrun; discriminate].
  exists s. split; [reflexivity|].
  pose proof (token_requests_bounded 3 w _ s Hrun) as (_ & Hle & Hn).
  vm_compute in Hrun. inversion Hrun; subst.
  split; [reflexivity|]. split; [reflexivity|].
  exact (Nat.le_trans _ _ _ Hle Hn).
Defined.

(** X21. The callers of [ensure_authenticated] cannot block one another for
    good: from every state they can reach, a schedule of steps of the
    callers alone (no time need pass) brings every caller to its end, by a
    return or by the exception of its own token request; and a caller takes
    three steps at most (the call, the wake-up, the token reply), whatever
    the upstream answers. *)
Theorem callers_can_always_finish :
  forall (n : nat) (w : world) (evs : list event) (s : state),
    run evs (init n w) = Some s ->
    exists (evs' : list event) (s' : state),
      run evs' s = Some s'
      /\ finished s' = true
      /\ forallb is_move evs' = true
      /\ (moves evs + List.length evs' <= 3 * n)%nat.
Proof.
  intros n w evs s Hrun.
  pose proof (queue_inv_run evs _ _ (queue_inv_init n w) Hrun) as Hinv.
  pose proof (run_work_left evs _ _ Hrun) as Hleft.
  rewrite weigh_init in Hleft.
  destruct (finish_from (weigh rank s) s (Nat.le_refl _) Hinv)
    as (evs' & s' & Hrun' & Hfin & Hmoves & Hlen).
  exists evs', s'. repeat split; auto. lia.
Qed.

Lemma callers_can_always_finish_witness :
  let refused := (1, Response 500 "Internal Server Error" (Ok (JObj []))) in
  let w := world_at 0 [refused] in
  let evs := [Call 0; Call 1; Tick 7; Call 2] in
  exists (s : state) (evs' : list event) (s' : state),
    run evs (init 3 w) = Some s
    /\ run evs' s = Some s'
    /\ finished s' = true
    /\ (List.length evs' <= 6)%nat.
Proof.
  intros refused w evs.
  destruct (run evs (init 3 w)) as [s|] eqn:Hrun; [|vm_compute in Hrun; discriminate].
  destruct (callers_can_always_finish 3 w evs s Hrun)
    as (evs' & s' & Hrun' & Hfin & _ & Hlen).
  exists s, evs', s'. repeat split; auto.
  change (moves evs) with 3%nat in Hlen. lia.
Defined.

(** X22. While the stored token is valid, [ensure_authenticated] is no
    meeting point: whatever the schedule of the concurrent callers, each
    call returns at once, none is queued on the lock, no token request is
    issued and the client object stays as it was. *)
Theorem valid_token_needs_no_request :
  forall (n : nat) (w : world) (H : Z) (evs : list event) (s : state),
    valid_until H (self w) ->
    durations_ok w ->
    run evs (init n w) = Some s ->
    clock (env s) <= H ->
    auth_calls s = 0%nat
    /\ sent (env s) = sent w
    /\ self (env s) = self w
    /\ locked s = false
    /\ waiters s = []
    /\ (forall j t, nth_error (tasks s) j = Some t -> t = Start \/ t = Done)
    /\ (forall i, List.In (Call i) evs -> nth_error (tasks s) i = Some Done).
Proof.
  intros n w H evs s Hvalid Hdur Hrun Hclock.
  destruct (quiet_run w H Hvalid Hdur evs _ _ (quiet_init n w) Hrun Hclock)
    as (Hcalls & Hfree & Hq & Hall & Hself & _ & Hsent).
  repeat split; auto.
  intros i Hin. destruct (run_called evs _ _ i Hrun Hin) as (t & Hi & Ht).
  destruct (Hall i t Hi) as [->| ->]; [congruence|exact Hi].
Qed.

Lemma valid_token_needs_no_request_witness :
  let w := world_with_token 0 (3600 * second) [] in
  let evs := [Call 1; Tick 5; Call 0; Call 2] in
  exists s,
    run evs (init 3 w) = Some s
    /\ auth_calls s = 0%nat
    /\ tasks s = [Done; Done; Done].
Proof.
  intros w evs.
  destruct (run evs (init 3 w)) as [s|] eqn:Hrun; [|vm_compute in Hrun; discriminate].
  exists s. split; [reflexivity|].
  assert (valid_until (1000 * second) (self w)) as Hvalid.
  { split; [reflexivity|]. eexists. split; [reflexivity|]. vm_compute. reflexivity. }
  assert (clock (env s) <= 1000 * second) as Hclock.
  { vm_compute in Hrun. inversion Hrun; subst. vm_compute. discriminate. }
  destruct (valid_token_needs_no_request 3 w (1000 * second) evs s Hvalid
              (Forall_nil _) Hrun Hclock) as (Hcalls & _).
  split; [exact Hcalls|].
  vm_compute in Hrun. inversion Hrun; subst. reflexivity.
Defined.
